(** * Makefile Tools: configuration support

    A shallow embedding of [src/configuration.ts]: the module-level
    variables of the file become one [State] record, the VS Code workspace
    (settings store, files, root folder) becomes a [World] record that the
    functions read, and every observable effect (log line, status bar
    setter, error dialog, settings write, reparse request, quick pick,
    spawned process) is appended to a trace of [Event]s.

    Strings are [string]s of 8-bit characters; the path functions are the
    POSIX flavour of Node's [path] module. *)

From Stdlib Require Import String Ascii List Bool Arith ZArith Lia.
From Stdlib Require Import Sorting.Sorted Sorting.Permutation.
Import ListNotations.

Local Open Scope string_scope.
Local Open Scope list_scope.

Infix "+++" := String.append (right associativity, at level 60) : string_scope.

(** ** The JavaScript primitives the file relies on *)

Module Js.

(** Truthiness of a value of type [string | undefined]: [undefined] and
    the empty string are falsy. *)
Definition truthy (v : option string) : bool :=
  match v with
  | Some (String _ _) => true
  | _ => false
  end.

(** [a || b] where [a : string | undefined] and [b : string]. *)
Definition orString (a : option string) (b : string) : string :=
  if truthy a then match a with Some s => s | None => b end else b.

(** [a || b] where both sides are [string | undefined]. *)
Definition orOption (a b : option string) : option string :=
  if truthy a then a else b.

(** [s.split(sep)] for a one-character separator.  The empty string splits
    into one empty piece. *)
Fixpoint split (sep : ascii) (s : string) : list string :=
  match s with
  | EmptyString => [EmptyString]
  | String c t =>
      if Ascii.eqb c sep then EmptyString :: split sep t
      else match split sep t with
           | h :: r => String c h :: r
           | [] => [String c EmptyString]
           end
  end.

(** [xs.join(sep)]. *)
Definition join (sep : string) (xs : list string) : string :=
  String.concat sep xs.

(** [xs.indexOf(x)], with [None] for -1. *)
Fixpoint indexOf (x : string) (xs : list string) : option nat :=
  match xs with
  | [] => None
  | y :: ys => if String.eqb y x then Some 0
               else option_map S (indexOf x ys)
  end.

(** [xs.sort()] with the default comparison: strings are ordered by their
    code units.  An insertion sort; the order being total and equal
    strings being indistinguishable, any sorting algorithm gives this
    result. *)
Fixpoint insert (x : string) (xs : list string) : list string :=
  match xs with
  | [] => [x]
  | y :: ys => if String.leb x y then x :: y :: ys else y :: insert x ys
  end.

Fixpoint sort (xs : list string) : list string :=
  match xs with
  | [] => []
  | x :: xs' => insert x (sort xs')
  end.

(** [xs.filter((elem, index, self) => index === self.indexOf(elem))]:
    an element is kept at the position of its first occurrence. *)
Fixpoint filterFirstFrom (self : list string) (index : nat) (xs : list string)
  : list string :=
  match xs with
  | [] => []
  | x :: xs' =>
      let rest := filterFirstFrom self (S index) xs' in
      match indexOf x self with
      | Some i => if Nat.eqb index i then x :: rest else rest
      | None => rest
      end
  end.

Definition filterFirstOccurrence (xs : list string) : list string :=
  filterFirstFrom xs 0 xs.

(** *** Regular expressions

    The fragment used by the file: a sequence of literal characters and
    greedy capturing groups (a parenthesised dot-star).  The dot matches
    every character but a line terminator.  Matching backtracks: a group
    first takes as many characters as it can and gives them back one at
    a time. *)

Inductive Item :=
| Lit (c : ascii)
| DotStar.

Definition lineTerminator (c : ascii) : bool :=
  Ascii.eqb c "010"%char || Ascii.eqb c "013"%char.

Definition capture (r : option (list string)) : option (list string) :=
  option_map (cons EmptyString) r.

Fixpoint matchHere (p : list Item) : string -> option (list string) :=
  match p with
  | [] => fun _ => Some []
  | Lit c :: p' =>
      fun s => match s with
               | String x t => if Ascii.eqb x c then matchHere p' t else None
               | EmptyString => None
               end
  | DotStar :: p' =>
      fix star (s : string) : option (list string) :=
        match s with
        | String x t =>
            if lineTerminator x then capture (matchHere p' s)
            else match star t with
                 | Some (g :: gs) => Some (String x g :: gs)
                 | _ => capture (matchHere p' s)
                 end
        | EmptyString => capture (matchHere p' s)
        end
  end.

(** [regexp.exec(str)] on a fresh regular expression: the first start
    position, from the left, at which the pattern matches.  The result
    lists the captured groups ([match[1]], [match[2]], ...). *)
Fixpoint exec (p : list Item) (s : string) : option (list string) :=
  match matchHere p s with
  | Some gs => Some gs
  | None => match s with
            | EmptyString => None
            | String _ t => exec p t
            end
  end.

End Js.

(** ** Node's [path] module (POSIX) *)

Module Path.

Record ParsedPath := {
  root : string;
  dir : string;
  base : string;
  ext : string;
  name : string
}.

Definition slash : ascii := "/"%char.
Definition dot : ascii := "."%char.

Definition isAbsolute (p : string) : bool :=
  match p with
  | String c _ => Ascii.eqb c slash
  | EmptyString => false
  end.

Definition slice (p : string) (a b : Z) : string :=
  substring (Z.to_nat a) (Z.to_nat (b - a)) p.

Definition charAt (p : string) (i : Z) : ascii :=
  match String.get (Z.to_nat i) p with
  | Some c => c
  | None => zero
  end.

(** The variables of the backwards scan of [parse]. *)
Record Scan := {
  startDot : Z;
  startPart : Z;
  endPart : Z;
  matchedSlash : bool;
  preDotState : Z
}.

(** [for (; i >= start; --i) { ... }] of [parse]; [fuel] bounds the number
    of iterations by the length of the path. *)
Fixpoint scan (p : string) (start : Z) (fuel : nat) (i : Z) (s : Scan) : Scan :=
  match fuel with
  | O => s
  | S fuel' =>
      if (i <? start)%Z then s
      else
        let code := charAt p i in
        if Ascii.eqb code slash then
          if negb (matchedSlash s) then
            {| startDot := startDot s; startPart := (i + 1)%Z;
               endPart := endPart s; matchedSlash := matchedSlash s;
               preDotState := preDotState s |}
          else scan p start fuel' (i - 1)%Z s
        else
          let s1 :=
            if (endPart s =? -1)%Z then
              {| startDot := startDot s; startPart := startPart s;
                 endPart := (i + 1)%Z; matchedSlash := false;
                 preDotState := preDotState s |}
            else s in
          let s2 :=
            if Ascii.eqb code dot then
              if (startDot s1 =? -1)%Z then
                {| startDot := i; startPart := startPart s1;
                   endPart := endPart s1; matchedSlash := matchedSlash s1;
                   preDotState := preDotState s1 |}
              else if negb (preDotState s1 =? 1)%Z then
                {| startDot := startDot s1; startPart := startPart s1;
                   endPart := endPart s1; matchedSlash := matchedSlash s1;
                   preDotState := 1%Z |}
              else s1
            else if negb (startDot s1 =? -1)%Z then
              {| startDot := startDot s1; startPart := startPart s1;
                 endPart := endPart s1; matchedSlash := matchedSlash s1;
                 preDotState := (-1)%Z |}
            else s1 in
          scan p start fuel' (i - 1)%Z s2
  end.

(** [path.parse(p)]. *)
Definition parse (p : string) : ParsedPath :=
  match p with
  | EmptyString =>
      {| root := ""; dir := ""; base := ""; ext := ""; name := "" |}
  | _ =>
      let isAbs := isAbsolute p in
      let start := if isAbs then 1%Z else 0%Z in
      let len := Z.of_nat (String.length p) in
      let s := scan p start (String.length p) (len - 1)%Z
                 {| startDot := (-1)%Z; startPart := 0%Z; endPart := (-1)%Z;
                    matchedSlash := true; preDotState := 0%Z |} in
      let from := if (startPart s =? 0)%Z && isAbs then 1%Z else startPart s in
      let noExt :=
        (startDot s =? -1)%Z || (endPart s =? -1)%Z || (preDotState s =? 0)%Z
        || ((preDotState s =? 1)%Z && (startDot s =? endPart s - 1)%Z
            && (startDot s =? startPart s + 1)%Z) in
      let b := if (endPart s =? -1)%Z then "" else slice p from (endPart s) in
      let d := if (0 <? startPart s)%Z then slice p 0 (startPart s - 1)
               else if isAbs then "/" else "" in
      if noExt then
        {| root := if isAbs then "/" else ""; dir := d; base := b;
           ext := ""; name := b |}
      else
        {| root := if isAbs then "/" else ""; dir := d; base := b;
           ext := slice p (startDot s) (endPart s);
           name := slice p from (startDot s) |}
  end.

(** One step of [normalizeString], segment by segment: empty and [.]
    segments are dropped, [..] removes the segment before it when there
    is one that is not itself [..], and is kept only when the path may
    climb above its start.  [res] holds the segments kept so far, last
    first. *)
Definition pushSegment (allowAboveRoot : bool) (res : list string) (seg : string)
  : list string :=
  if String.eqb seg "" || String.eqb seg "." then res
  else if String.eqb seg ".." then
    match res with
    | top :: rest =>
        if String.eqb top ".." then (if allowAboveRoot then seg :: res else res)
        else rest
    | [] => if allowAboveRoot then [seg] else []
    end
  else seg :: res.

Definition segments (allowAboveRoot : bool) (p : string) : list string :=
  rev (fold_left (pushSegment allowAboveRoot) (Js.split slash p) []).

Definition normalizeString (p : string) (allowAboveRoot : bool) : string :=
  Js.join "/" (segments allowAboveRoot p).

Fixpoint endsWithSlash (p : string) : bool :=
  match p with
  | EmptyString => false
  | String c EmptyString => Ascii.eqb c slash
  | String _ t => endsWithSlash t
  end.

(** [path.normalize(p)]. *)
Definition normalize (p : string) : string :=
  match p with
  | EmptyString => "."
  | _ =>
      let isAbs := isAbsolute p in
      let trailingSeparator := endsWithSlash p in
      let q := normalizeString p (negb isAbs) in
      let q1 := match q with
                | EmptyString => if isAbs then q else "."
                | _ => q
                end in
      let q2 := match q1 with
                | EmptyString => q1
                | _ => if trailingSeparator then q1 +++ "/" else q1
                end in
      if isAbs then "/" +++ q2 else q2
  end.

(** [path.join(a, b)]: the non-empty arguments are put together with a
    slash between them and the result is normalized. *)
Definition join (a b : string) : string :=
  match a, b with
  | EmptyString, EmptyString => "."
  | EmptyString, _ => normalize b
  | _, EmptyString => normalize a
  | _, _ => normalize (a +++ "/" +++ b)
  end.

(** [path.relative(from, to)] for absolute paths: the segments the two
    have in common are dropped, every segment left of [from] becomes
    [..], and the segments left of [to] follow. *)
Fixpoint dropCommon (a b : list string) : list string * list string :=
  match a, b with
  | x :: a', y :: b' => if String.eqb x y then dropCommon a' b' else (a, b)
  | _, _ => (a, b)
  end.

Definition relative (from to : string) : string :=
  let (f, t) := dropCommon (segments false from) (segments false to) in
  Js.join "/" (map (fun _ => "..") f ++ t).

End Path.

(** ** Data model *)

(** [interface MakeConfiguration]: one entry of
    [.vscode/make_configurations.json]. *)
Record MakeConfiguration := {
  name : string;
  commandName : option string;
  commandArgs : option (list string);
  mc_buildLog : option string
}.

(** [interface LaunchConfiguration]. *)
Record LaunchConfiguration := {
  binary : string;
  cwd : string;
  args : list string
}.

(** A launch configuration as an object of the heap: strict equality on
    objects compares identities, not contents. *)
Record LaunchObject := {
  objectId : nat;
  content : LaunchConfiguration
}.

(** The values that meet in the strict comparisons of the settings-change
    handler. *)
Inductive JsValue :=
| JsUndefined
| JsString (s : string)
| JsObject (id : nat).

Definition ofString (v : option string) : JsValue :=
  match v with
  | Some s => JsString s
  | None => JsUndefined
  end.

Definition ofObject (v : option LaunchObject) : JsValue :=
  match v with
  | Some o => JsObject (objectId o)
  | None => JsUndefined
  end.

(** [a === b]. *)
Definition strictEquals (a b : JsValue) : bool :=
  match a, b with
  | JsUndefined, JsUndefined => true
  | JsString s, JsString t => String.eqb s t
  | JsObject i, JsObject j => Nat.eqb i j
  | _, _ => false
  end.

(** ** The modules the file imports *)

(** [./util]: the two path helpers of the launch-configuration codec.
    Their source is not part of the file; the codec is stated over any
    implementation, and [specUtil] below gives the one the specification
    describes. *)
Class Util := {
  makeRelPath : string -> string -> string;
  makeFullPath : string -> string -> string
}.

(** [./parser]: the text parser for targets and launch configurations. *)
Class Parser := {
  parseTargets : string -> list string;
  parseForLaunchConfiguration : string -> list LaunchConfiguration
}.

(** [JSON.parse] at the type the file expects; [None] when it throws. *)
Class Json := {
  JSON_parse : string -> option (list MakeConfiguration)
}.

(** ** The workspace the extension runs in *)

(** The settings of the [Makefile] section, one field per key. *)
Module Settings.

Record t := {
  buildConfiguration : option string;
  buildTarget : option string;
  launchConfiguration : option LaunchConfiguration;
  buildLog : option string;
  extensionLog : option string;
  makePath : option string;
  loggingLevel : option string
}.

Definition empty : t :=
  {| buildConfiguration := None; buildTarget := None;
     launchConfiguration := None; buildLog := None; extensionLog := None;
     makePath := None; loggingLevel := None |}.

End Settings.

(** The outcome of [util.spawnChildProcess]: the promise is rejected, or
    the process closes after delivering its output in chunks. *)
Inductive ProcessResult :=
| Rejected (error : string)
| Closed (stdoutChunks stderrChunks : list string) (retCode : Z) (signal : string).

Record World := {
  settings : Settings.t;
  (** the content of each file that exists *)
  files : string -> option string;
  (** [vscode.workspace.rootPath] *)
  rootPath : option string;
  (** whether [vscode.workspace.workspaceFolders] is defined *)
  workspaceFolders : bool;
  (** the answer of the user to [vscode.window.showQuickPick] *)
  showQuickPick : list string -> option string;
  spawnChildProcess : string -> list string -> string -> ProcessResult
}.

(** What a settings write carries. *)
Inductive SettingValue :=
| VString (s : string)
| VLaunch (lc : LaunchConfiguration)
| VUndefined.

Inductive Event :=
| LogMessage (msg : string)
| ShowErrorMessage (msg : string)
| StatusSetConfiguration (s : string)
| StatusSetTarget (s : string)
| StatusSetLaunchConfiguration (s : string)
| SettingsUpdate (key : string) (value : SettingValue)
| ParseBuildOrDryRun
| QuickPick (items : list string) (placeHolder : option string)
| SpawnChildProcess (command : string) (arguments : list string) (dir : string).

(** The module-level variables of the file, the trace of effects and the
    next free object identity. *)
Record State := {
  currentMakeConfiguration : string;
  makePath : option string;
  buildLog : option string;
  loggingLevel : option string;
  extensionLog : option string;
  currentLaunchConfiguration : option LaunchObject;
  configurationCommandName : string;
  configurationCommandArgs : list string;
  configurationBuildLog : option string;
  makeConfigurations : list MakeConfiguration;
  currentTarget : option string;
  ignoreSettingsChanged : bool;
  events : list Event;
  nextObject : nat
}.

Definition set_currentMakeConfiguration (v : string) (s : State) : State :=
  {| currentMakeConfiguration := v; makePath := makePath s;
     buildLog := buildLog s; loggingLevel := loggingLevel s;
     extensionLog := extensionLog s;
     currentLaunchConfiguration := currentLaunchConfiguration s;
     configurationCommandName := configurationCommandName s;
     configurationCommandArgs := configurationCommandArgs s;
     configurationBuildLog := configurationBuildLog s;
     makeConfigurations := makeConfigurations s;
     currentTarget := currentTarget s;
     ignoreSettingsChanged := ignoreSettingsChanged s;
     events := events s; nextObject := nextObject s |}.

Definition set_makePath (v : option string) (s : State) : State :=
  {| currentMakeConfiguration := currentMakeConfiguration s; makePath := v;
     buildLog := buildLog s; loggingLevel := loggingLevel s;
     extensionLog := extensionLog s;
     currentLaunchConfiguration := currentLaunchConfiguration s;
     configurationCommandName := configurationCommandName s;
     configurationCommandArgs := configurationCommandArgs s;
     configurationBuildLog := configurationBuildLog s;
     makeConfigurations := makeConfigurations s;
     currentTarget := currentTarget s;
     ignoreSettingsChanged := ignoreSettingsChanged s;
     events := events s; nextObject := nextObject s |}.

Definition set_buildLog (v : option string) (s : State) : State :=
  {| currentMakeConfiguration := currentMakeConfiguration s;
     makePath := makePath s; buildLog := v; loggingLevel := loggingLevel s;
     extensionLog := extensionLog s;
     currentLaunchConfiguration := currentLaunchConfiguration s;
     configurationCommandName := configurationCommandName s;
     configurationCommandArgs := configurationCommandArgs s;
     configurationBuildLog := configurationBuildLog s;
     makeConfigurations := makeConfigurations s;
     currentTarget := currentTarget s;
     ignoreSettingsChanged := ignoreSettingsChanged s;
     events := events s; nextObject := nextObject s |}.

Definition set_loggingLevel (v : option string) (s : State) : State :=
  {| currentMakeConfiguration := currentMakeConfiguration s;
     makePath := makePath s; buildLog := buildLog s; loggingLevel := v;
     extensionLog := extensionLog s;
     currentLaunchConfiguration := currentLaunchConfiguration s;
     configurationCommandName := configurationCommandName s;
     configurationCommandArgs := configurationCommandArgs s;
     configurationBuildLog := configurationBuildLog s;
     makeConfigurations := makeConfigurations s;
     currentTarget := currentTarget s;
     ignoreSettingsChanged := ignoreSettingsChanged s;
     events := events s; nextObject := nextObject s |}.

Definition set_extensionLog (v : option string) (s : State) : State :=
  {| currentMakeConfiguration := currentMakeConfiguration s;
     makePath := makePath s; buildLog := buildLog s;
     loggingLevel := loggingLevel s; extensionLog := v;
     currentLaunchConfiguration := currentLaunchConfiguration s;
     configurationCommandName := configurationCommandName s;
     configurationCommandArgs := configurationCommandArgs s;
     configurationBuildLog := configurationBuildLog s;
     makeConfigurations := makeConfigurations s;
     currentTarget := currentTarget s;
     ignoreSettingsChanged := ignoreSettingsChanged s;
     events := events s; nextObject := nextObject s |}.

Definition set_currentLaunchConfiguration (v : option LaunchObject) (s : State)
  : State :=
  {| currentMakeConfiguration := currentMakeConfiguration s;
     makePath := makePath s; buildLog := buildLog s;
     loggingLevel := loggingLevel s; extensionLog := extensionLog s;
     currentLaunchConfiguration := v;
     configurationCommandName := configurationCommandName s;
     configurationCommandArgs := configurationCommandArgs s;
     configurationBuildLog := configurationBuildLog s;
     makeConfigurations := makeConfigurations s;
     currentTarget := currentTarget s;
     ignoreSettingsChanged := ignoreSettingsChanged s;
     events := events s; nextObject := nextObject s |}.

Definition set_configurationCommandName (v : string) (s : State) : State :=
  {| currentMakeConfiguration := currentMakeConfiguration s;
     makePath := makePath s; buildLog := buildLog s;
     loggingLevel := loggingLevel s; extensionLog := extensionLog s;
     currentLaunchConfiguration := currentLaunchConfiguration s;
     configurationCommandName := v;
     configurationCommandArgs := configurationCommandArgs s;
     configurationBuildLog := configurationBuildLog s;
     makeConfigurations := makeConfigurations s;
     currentTarget := currentTarget s;
     ignoreSettingsChanged := ignoreSettingsChanged s;
     events := events s; nextObject := nextObject s |}.

Definition set_configurationCommandArgs (v : list string) (s : State) : State :=
  {| currentMakeConfiguration := currentMakeConfiguration s;
     makePath := makePath s; buildLog := buildLog s;
     loggingLevel := loggingLevel s; extensionLog := extensionLog s;
     currentLaunchConfiguration := currentLaunchConfiguration s;
     configurationCommandName := configurationCommandName s;
     configurationCommandArgs := v;
     configurationBuildLog := configurationBuildLog s;
     makeConfigurations := makeConfigurations s;
     currentTarget := currentTarget s;
     ignoreSettingsChanged := ignoreSettingsChanged s;
     events := events s; nextObject := nextObject s |}.

Definition set_configurationBuildLog (v : option string) (s : State) : State :=
  {| currentMakeConfiguration := currentMakeConfiguration s;
     makePath := makePath s; buildLog := buildLog s;
     loggingLevel := loggingLevel s; extensionLog := extensionLog s;
     currentLaunchConfiguration := currentLaunchConfiguration s;
     configurationCommandName := configurationCommandName s;
     configurationCommandArgs := configurationCommandArgs s;
     configurationBuildLog := v;
     makeConfigurations := makeConfigurations s;
     currentTarget := currentTarget s;
     ignoreSettingsChanged := ignoreSettingsChanged s;
     events := events s; nextObject := nextObject s |}.

Definition set_makeConfigurations (v : list MakeConfiguration) (s : State)
  : State :=
  {| currentMakeConfiguration := currentMakeConfiguration s;
     makePath := makePath s; buildLog := buildLog s;
     loggingLevel := loggingLevel s; extensionLog := extensionLog s;
     currentLaunchConfiguration := currentLaunchConfiguration s;
     configurationCommandName := configurationCommandName s;
     configurationCommandArgs := configurationCommandArgs s;
     configurationBuildLog := configurationBuildLog s;
     makeConfigurations := v;
     currentTarget := currentTarget s;
     ignoreSettingsChanged := ignoreSettingsChanged s;
     events := events s; nextObject := nextObject s |}.

Definition set_currentTarget (v : option string) (s : State) : State :=
  {| currentMakeConfiguration := currentMakeConfiguration s;
     makePath := makePath s; buildLog := buildLog s;
     loggingLevel := loggingLevel s; extensionLog := extensionLog s;
     currentLaunchConfiguration := currentLaunchConfiguration s;
     configurationCommandName := configurationCommandName s;
     configurationCommandArgs := configurationCommandArgs s;
     configurationBuildLog := configurationBuildLog s;
     makeConfigurations := makeConfigurations s;
     currentTarget := v;
     ignoreSettingsChanged := ignoreSettingsChanged s;
     events := events s; nextObject := nextObject s |}.

Definition set_ignoreSettingsChanged (v : bool) (s : State) : State :=
  {| currentMakeConfiguration := currentMakeConfiguration s;
     makePath := makePath s; buildLog := buildLog s;
     loggingLevel := loggingLevel s; extensionLog := extensionLog s;
     currentLaunchConfiguration := currentLaunchConfiguration s;
     configurationCommandName := configurationCommandName s;
     configurationCommandArgs := configurationCommandArgs s;
     configurationBuildLog := configurationBuildLog s;
     makeConfigurations := makeConfigurations s;
     currentTarget := currentTarget s;
     ignoreSettingsChanged := v;
     events := events s; nextObject := nextObject s |}.

Definition set_events (v : list Event) (s : State) : State :=
  {| currentMakeConfiguration := currentMakeConfiguration s;
     makePath := makePath s; buildLog := buildLog s;
     loggingLevel := loggingLevel s; extensionLog := extensionLog s;
     currentLaunchConfiguration := currentLaunchConfiguration s;
     configurationCommandName := configurationCommandName s;
     configurationCommandArgs := configurationCommandArgs s;
     configurationBuildLog := configurationBuildLog s;
     makeConfigurations := makeConfigurations s;
     currentTarget := currentTarget s;
     ignoreSettingsChanged := ignoreSettingsChanged s;
     events := v; nextObject := nextObject s |}.

Definition set_nextObject (v : nat) (s : State) : State :=
  {| currentMakeConfiguration := currentMakeConfiguration s;
     makePath := makePath s; buildLog := buildLog s;
     loggingLevel := loggingLevel s; extensionLog := extensionLog s;
     currentLaunchConfiguration := currentLaunchConfiguration s;
     configurationCommandName := configurationCommandName s;
     configurationCommandArgs := configurationCommandArgs s;
     configurationBuildLog := configurationBuildLog s;
     makeConfigurations := makeConfigurations s;
     currentTarget := currentTarget s;
     ignoreSettingsChanged := ignoreSettingsChanged s;
     events := events s; nextObject := v |}.

(** The variables as they are when the module has been loaded and nothing
    has run yet.  [currentMakeConfiguration] and [configurationCommandName]
    are declared without a value; [initFromSettings] assigns them before
    anything reads them. *)
Definition initialState : State :=
  {| currentMakeConfiguration := ""; makePath := None; buildLog := None;
     loggingLevel := None; extensionLog := None;
     currentLaunchConfiguration := None; configurationCommandName := "";
     configurationCommandArgs := []; configurationBuildLog := None;
     makeConfigurations := []; currentTarget := None;
     ignoreSettingsChanged := false; events := []; nextObject := 0 |}.

(** ** A reader and state monad for the functions of the file *)

Definition M (A : Type) : Type := World -> State -> A * State.

Definition ret {A} (a : A) : M A := fun _ s => (a, s).

Definition bind {A B} (c : M A) (k : A -> M B) : M B :=
  fun w s => let (a, s') := c w s in k a w s'.

Declare Scope prog_scope.
Delimit Scope prog_scope with prog.
Notation "x <- c ;; k" := (bind c (fun x => k))
  (at level 61, c at next level, right associativity) : prog_scope.
Notation "c ;; k" := (bind c (fun _ => k))
  (at level 61, right associativity) : prog_scope.
Local Open Scope prog_scope.

Definition world : M World := fun w s => (w, s).
Definition getState : M State := fun _ s => (s, s).
Definition modify (f : State -> State) : M unit := fun _ s => (tt, f s).
Definition skip : M unit := ret tt.

(** The state a computation ends in. *)
Definition exec {A} (c : M A) (w : World) (s : State) : State := snd (c w s).

(** The value a computation returns. *)
Definition eval {A} (c : M A) (w : World) (s : State) : A := fst (c w s).

Definition emit (e : Event) : M unit :=
  modify (fun s => set_events (events s ++ [e]) s).

Definition logger_message (msg : string) : M unit := emit (LogMessage msg).
Definition make_parseBuildOrDryRun : M unit := emit ParseBuildOrDryRun.

(** A double quote, for the messages that quote a path. *)
Definition dq : string := String "034"%char EmptyString.

(** What string concatenation prints for [string | undefined]. *)
Definition show (v : option string) : string :=
  match v with
  | Some s => s
  | None => "undefined"
  end.

(** ** The functions of [configuration.ts] *)

(** Modelled from the spec: [util.checkFileExistsSync] and [util.readFile]
    (the file existence and read helpers of [./util], whose source is not
    part of the file): a file exists when the workspace has a content for
    its path, and reading it gives that content, or [undefined]. *)
Definition checkFileExistsSync (w : World) (p : string) : bool :=
  match files w p with
  | Some _ => true
  | None => false
  end.

Definition readFile (w : World) (p : string) : option string := files w p.

(** [vscode.workspace.rootPath || ""] *)
Definition rootOrEmpty (w : World) : string := Js.orString (rootPath w) "".

(** [vscode.workspace.rootPath + "/.vscode/make_configurations.json"] *)
Definition configurationsJsonPath (w : World) : string :=
  show (rootPath w) +++ "/.vscode/make_configurations.json".

(** [{ ... }]: a new object. *)
Definition allocate (lc : LaunchConfiguration) : M LaunchObject :=
  fun _ s => ({| objectId := nextObject s; content := lc |},
              set_nextObject (S (nextObject s)) s).

(** [workspaceConfiguration.get("launchConfiguration")]: the store hands
    out an object of its own for the value it holds. *)
Definition getLaunchConfigurationSetting : M (option LaunchObject) :=
  w <- world ;;
  match Settings.launchConfiguration (settings w) with
  | Some lc => o <- allocate lc ;; ret (Some o)
  | None => ret None
  end.

(** [makeConfigurations.find(k => k.name === configuration)] *)
Definition findConfiguration (configuration : option string)
  (configurations : list MakeConfiguration) : option MakeConfiguration :=
  match configuration with
  | Some n => List.find (fun k => String.eqb (name k) n) configurations
  | None => None
  end.

Definition startListeningToSettingsChanged : M unit :=
  modify (set_ignoreSettingsChanged false).

Definition stopListeningToSettingsChanged : M unit :=
  modify (set_ignoreSettingsChanged true).

Definition readCurrentMakeConfiguration : M unit :=
  w <- world ;;
  match Settings.buildConfiguration (settings w) with
  | Some (String c t) => modify (set_currentMakeConfiguration (String c t))
  | _ =>
      logger_message "No current configuration is defined in the settings file" ;;
      modify (set_currentMakeConfiguration "Default")
  end ;;
  s <- getState ;;
  emit (StatusSetConfiguration (currentMakeConfiguration s)).

Definition readMakePath : M unit :=
  w <- world ;;
  modify (set_makePath (Settings.makePath (settings w))) ;;
  s <- getState ;;
  if negb (Js.truthy (makePath s)) then
    logger_message "No path to the make tool is defined in the settings file"
  else skip.

Definition buildLogNotFound : string :=
  "Build log not found. Remove the build log setting or provide a build log file on disk at the given location.".

Definition readBuildLog : M unit :=
  w <- world ;;
  modify (set_buildLog (Settings.buildLog (settings w))) ;;
  s <- getState ;;
  match buildLog s with
  | Some (String c t) =>
      let found := String c t in
      logger_message ("Found build log path setting " +++ dq +++ found +++ dq) ;;
      (if negb (Path.isAbsolute found) then
         modify (set_buildLog (Some (Path.join (rootOrEmpty w) found))) ;;
         logger_message ("Resolving build log path to  " +++ dq
                         +++ Path.join (rootOrEmpty w) found +++ dq)
       else skip) ;;
      s' <- getState ;;
      if negb (checkFileExistsSync w (show (buildLog s'))) then
        logger_message buildLogNotFound
      else skip
  | _ => skip
  end.

Definition readLoggingLevel : M unit :=
  w <- world ;;
  modify (set_loggingLevel (Settings.loggingLevel (settings w))) ;;
  s <- getState ;;
  if negb (Js.truthy (loggingLevel s)) then
    modify (set_loggingLevel (Some "Normal"))
  else skip.

Definition readExtensionLog : M unit :=
  w <- world ;;
  modify (set_extensionLog (Settings.extensionLog (settings w))) ;;
  s <- getState ;;
  match extensionLog s with
  | Some (String c t) =>
      let found := String c t in
      logger_message ("Found extension log path setting " +++ dq +++ found +++ dq) ;;
      if negb (Path.isAbsolute found) then
        modify (set_extensionLog (Some (Path.join (rootOrEmpty w) found))) ;;
        logger_message ("Resolving extension log path to " +++ dq
                        +++ Path.join (rootOrEmpty w) found +++ dq)
      else skip
  | _ => skip
  end.

Definition readCurrentTarget : M unit :=
  w <- world ;;
  match Settings.buildTarget (settings w) with
  | Some (String c t) =>
      modify (set_currentTarget (Some (String c t))) ;;
      emit (StatusSetTarget (String c t))
  | _ =>
      logger_message "No target defined in the settings file" ;;
      emit (StatusSetTarget "Default") ;;
      modify (set_currentTarget (Some ""))
  end.

(** The regular expression of [stringToLaunchConfiguration]: three greedy
    groups, separated by [>] and [(] and closed by [)]. *)
Definition launchRegexp : list Js.Item :=
  [Js.DotStar; Js.Lit ">"; Js.DotStar; Js.Lit "("; Js.DotStar; Js.Lit ")"].

Section Configuration.

Context {U : Util} {P : Parser} {J : Json}.

Definition launchConfigurationToString (configuration : LaunchConfiguration)
  : string :=
  cwd configuration +++ ">"
  +++ makeRelPath (binary configuration) (cwd configuration)
  +++ "(" +++ Js.join "," (args configuration) +++ ")".

Definition stringToLaunchConfiguration (str : string)
  : option LaunchConfiguration :=
  match Js.exec launchRegexp str with
  | Some [m1; m2; m3] =>
      Some {| cwd := m1; binary := makeFullPath m2 m1;
              args := Js.split ","%char m3 |}
  | _ => None
  end.

Definition setCurrentLaunchConfiguration (configuration : LaunchObject)
  : M unit :=
  modify (set_currentLaunchConfiguration (Some configuration)) ;;
  emit (StatusSetLaunchConfiguration
          (launchConfigurationToString (content configuration))).

Definition readCurrentLaunchConfiguration : M unit :=
  o <- getLaunchConfigurationSetting ;;
  modify (set_currentLaunchConfiguration o) ;;
  match o with
  | Some obj =>
      emit (StatusSetLaunchConfiguration
              (launchConfigurationToString (content obj)))
  | None => emit (StatusSetLaunchConfiguration "No launch configuration set")
  end.

Definition readMakeConfigurations : M unit :=
  w <- world ;;
  if checkFileExistsSync w (configurationsJsonPath w) then
    logger_message "Reading configurations from file /.vscode/make_configurations.json" ;;
    match JSON_parse (show (files w (configurationsJsonPath w))) with
    | Some configurations => modify (set_makeConfigurations configurations)
    | None => emit (ShowErrorMessage "Failed to parse make_configurations.json")
    end
  else
    logger_message "Configurations file /.vscode/make_configurations.json not found".

(** The parsed make path of the settings and of the configuration, as
    [getCommandForConfiguration] computes them. *)
Definition parsedPathSettings (s : State) : option Path.ParsedPath :=
  match makePath s with
  | Some (String c t) => Some (Path.parse (String c t))
  | _ => None
  end.

Definition parsedPathConfigurations (makeConfiguration : option MakeConfiguration)
  : option Path.ParsedPath :=
  match makeConfiguration with
  | Some k => match commandName k with
              | Some (String c t) => Some (Path.parse (String c t))
              | _ => None
              end
  | None => None
  end.

Definition getCommandForConfiguration (configuration : option string) : M unit :=
  w <- world ;;
  s <- getState ;;
  let makeConfiguration := findConfiguration configuration (makeConfigurations s) in
  let makeParsedPathSettings := parsedPathSettings s in
  let makeParsedPathConfigurations := parsedPathConfigurations makeConfiguration in
  let commandArgs' :=
    match makeConfiguration with
    | Some k => match commandArgs k with Some a => a | None => [] end
    | None => []
    end in
  modify (set_configurationCommandArgs commandArgs') ;;
  let toolName :=
    Js.orString (option_map Path.name makeParsedPathConfigurations)
      (Js.orString (option_map Path.name makeParsedPathSettings) "make") in
  modify (set_configurationCommandName toolName) ;;
  let configurationCommandPath :=
    Js.orString (option_map Path.dir makeParsedPathConfigurations)
      (Js.orString (option_map Path.dir makeParsedPathSettings) "") in
  modify (set_configurationCommandName (Path.join configurationCommandPath toolName)) ;;
  (if Js.truthy (match makeConfiguration with Some k => commandName k | None => None end)
   then
     logger_message ("Found command '" +++ Path.join configurationCommandPath toolName
                     +++ " " +++ Js.join " " commandArgs'
                     +++ "' for configuration " +++ show configuration)
   else skip) ;;
  let buildLog' := configurationBuildLog s in
  let buildLogContent :=
    if Js.truthy buildLog' then readFile w (show buildLog') else None in
  if negb (Js.truthy buildLogContent) then
    (if match makeParsedPathSettings with
        | None => true | Some p => String.eqb (Path.name p) "" end
        && match makeParsedPathConfigurations with
           | None => true | Some p => String.eqb (Path.name p) "" end
     then logger_message "Could not find any make tool file name in make_configurations.json, nor in settings. Assuming make."
     else skip) ;;
    (if match makeParsedPathSettings with
        | None => true | Some p => String.eqb (Path.dir p) "" end
        && match makeParsedPathConfigurations with
           | None => true | Some p => String.eqb (Path.dir p) "" end
     then logger_message "For the extension to work, make must be on the path."
     else skip) ;;
    (if match makeParsedPathSettings, makeParsedPathConfigurations with
        | None, None => true | _, _ => false end
     then logger_message "It is recommended to define the full path of the make tool in settings (via Makefile.makePath) OR define commandName/commandArgs in make_configurations.json."
     else skip)
  else skip.

Definition getBuildLogForConfiguration (configuration : option string) : M unit :=
  w <- world ;;
  s <- getState ;;
  let makeConfiguration := findConfiguration configuration (makeConfigurations s) in
  modify (set_configurationBuildLog
            (match makeConfiguration with Some k => mc_buildLog k | None => None end)) ;;
  s1 <- getState ;;
  match configurationBuildLog s1 with
  | Some (String c t) =>
      let found := String c t in
      logger_message ("Found build log path setting " +++ dq +++ found +++ dq
                      +++ " defined for configuration " +++ dq
                      +++ show configuration) ;;
      (if negb (Path.isAbsolute found) then
         modify (set_configurationBuildLog
                   (Some (Path.join (rootOrEmpty w) found))) ;;
         logger_message ("Resolving build log path to " +++ dq
                         +++ Path.join (rootOrEmpty w) found +++ dq)
       else skip) ;;
      s2 <- getState ;;
      if negb (checkFileExistsSync w (show (configurationBuildLog s2))) then
        logger_message buildLogNotFound
      else skip
  | _ => modify (set_configurationBuildLog (buildLog s1))
  end.

Definition setCurrentMakeConfiguration (configuration : string) : M unit :=
  modify (set_currentMakeConfiguration configuration) ;;
  s <- getState ;;
  emit (StatusSetConfiguration (currentMakeConfiguration s)) ;;
  logger_message ("Setting configuration - " +++ currentMakeConfiguration s) ;;
  getCommandForConfiguration (Some (currentMakeConfiguration s)) ;;
  getBuildLogForConfiguration (Some (currentMakeConfiguration s)).

Definition readCurrentMakeConfigurationCommand : M unit :=
  readMakeConfigurations ;;
  s <- getState ;;
  getCommandForConfiguration (Some (currentMakeConfiguration s)) ;;
  getBuildLogForConfiguration (Some (currentMakeConfiguration s)).

(** The reads of [initFromSettings]; the two listeners it registers are
    [onDidSaveTextDocument] and [onDidChangeConfiguration] below. *)
Definition initFromSettings : M unit :=
  readLoggingLevel ;;
  readExtensionLog ;;
  readMakePath ;;
  readBuildLog ;;
  readCurrentMakeConfiguration ;;
  readCurrentMakeConfigurationCommand ;;
  readCurrentTarget ;;
  readCurrentLaunchConfiguration.

(** The listener on saved documents. *)
Definition onDidSaveTextDocument (fileName : string) : M unit :=
  w <- world ;;
  s <- getState ;;
  if String.eqb (Path.normalize fileName) (Path.normalize (configurationsJsonPath w))
     && negb (ignoreSettingsChanged s) then
    logger_message "Changes detected in make_configurations.json and triggering update" ;;
    readCurrentMakeConfigurationCommand ;;
    make_parseBuildOrDryRun
  else skip.

(** The listener on settings changes compares six settings with the
    variables, one [if] statement after the other.  Each statement is one
    function here; those that set the local variable [updateConfigProvider]
    return whether they did. *)

(** [updatedBuildConfiguration !== currentMakeConfiguration &&
    (updatedBuildConfiguration !== undefined || currentMakeConfiguration !== "Default")] *)
Definition buildConfigurationChanged (updated : option string) (current : string)
  : bool :=
  negb (strictEquals (ofString updated) (JsString current))
  && (negb (strictEquals (ofString updated) JsUndefined)
      || negb (strictEquals (JsString current) (JsString "Default"))).

(** [updatedTarget !== currentTarget &&
    (updatedTarget !== undefined || currentTarget !== "")] *)
Definition targetChanged (updated current : option string) : bool :=
  negb (strictEquals (ofString updated) (ofString current))
  && (negb (strictEquals (ofString updated) JsUndefined)
      || negb (strictEquals (ofString current) (JsString ""))).

(** [updatedLaunchConfiguration !== currentLaunchConfiguration] *)
Definition launchConfigurationChanged (updated current : option LaunchObject)
  : bool :=
  negb (strictEquals (ofObject updated) (ofObject current)).

(** [updated !== current] for the build log, the extension log and the
    make path. *)
Definition settingChanged (updated current : option string) : bool :=
  negb (strictEquals (ofString updated) (ofString current)).

Definition checkBuildConfiguration : M bool :=
  w <- world ;;
  s <- getState ;;
  if buildConfigurationChanged (Settings.buildConfiguration (settings w))
       (currentMakeConfiguration s)
  then
    logger_message "Make configuration setting changed." ;;
    readCurrentMakeConfiguration ;;
    ret true
  else ret false.

Definition checkTarget : M bool :=
  w <- world ;;
  s <- getState ;;
  if targetChanged (Settings.buildTarget (settings w)) (currentTarget s) then
    logger_message "Target setting changed." ;;
    readCurrentTarget ;;
    ret true
  else ret false.

(** The source declares the fetched launch configuration a [string]; the
    declaration converts nothing, and what the store returns is its own
    object for the stored value, or [undefined].  Strict equality with the
    object in memory compares identities; a string would differ from an
    object in any case. *)
Definition checkLaunchConfiguration : M unit :=
  updatedLaunchConfiguration <- getLaunchConfigurationSetting ;;
  s <- getState ;;
  if launchConfigurationChanged updatedLaunchConfiguration
       (currentLaunchConfiguration s)
  then
    logger_message "Launch configuration setting changed." ;;
    readCurrentLaunchConfiguration
  else skip.

Definition checkBuildLog : M bool :=
  w <- world ;;
  s <- getState ;;
  if settingChanged (Settings.buildLog (settings w)) (buildLog s) then
    logger_message "Build log setting changed." ;;
    readBuildLog ;;
    ret true
  else ret false.

Definition checkExtensionLog : M unit :=
  w <- world ;;
  s <- getState ;;
  if settingChanged (Settings.extensionLog (settings w)) (extensionLog s) then
    logger_message "MakefileTools log setting changed." ;;
    readExtensionLog
  else skip.

Definition checkMakePath : M bool :=
  w <- world ;;
  s <- getState ;;
  if settingChanged (Settings.makePath (settings w)) (makePath s) then
    logger_message "Make path setting changed." ;;
    readMakePath ;;
    ret true
  else ret false.

(** The six statements in the order of the source; the result is the final
    value of [updateConfigProvider]. *)
Definition compareSettings : M bool :=
  logger_message "Detected a change in settings" ;;
  c1 <- checkBuildConfiguration ;;
  c2 <- checkTarget ;;
  checkLaunchConfiguration ;;
  c4 <- checkBuildLog ;;
  checkExtensionLog ;;
  c6 <- checkMakePath ;;
  ret (c1 || c2 || c4 || c6).

(** The listener on settings changes; [affectsMakefile] is the answer of
    [e.affectsConfiguration('Makefile', ...)]. *)
Definition onDidChangeConfiguration (affectsMakefile : bool) : M unit :=
  w <- world ;;
  s <- getState ;;
  if workspaceFolders w && negb (ignoreSettingsChanged s) && affectsMakefile then
    updateConfigProvider <- compareSettings ;;
    if updateConfigProvider then
      logger_message "Some of the changes detected in settings are triggering udpates" ;;
      s' <- getState ;;
      getCommandForConfiguration (Some (currentMakeConfiguration s')) ;;
      getBuildLogForConfiguration (Some (currentMakeConfiguration s')) ;;
      make_parseBuildOrDryRun
    else skip
  else skip.

Definition setConfigurationByName (configurationName : string) : M unit :=
  modify (set_currentMakeConfiguration configurationName) ;;
  s <- getState ;;
  emit (SettingsUpdate "buildConfiguration" (VString (currentMakeConfiguration s))) ;;
  setCurrentMakeConfiguration (currentMakeConfiguration s) ;;
  make_parseBuildOrDryRun.

Definition prepareConfigurationsQuickPick : M (list string) :=
  readMakeConfigurations ;;
  s <- getState ;;
  let items := map name (makeConfigurations s) in
  match items with
  | _ :: _ =>
      logger_message ("Found the following configurations defined in make_configurations.json: "
                      +++ Js.join ";" items) ;;
      ret items
  | [] =>
      logger_message "No configurations defined in make_configurations.json." ;;
      ret (items ++ ["Default"])
  end.

Definition setNewConfiguration : M unit :=
  items <- prepareConfigurationsQuickPick ;;
  w <- world ;;
  emit (QuickPick items None) ;;
  match showQuickPick w items with
  | Some (String c t) => setConfigurationByName (String c t)
  | _ => skip
  end.

Definition parseLaunchConfigurations (source : string) : M (list string) :=
  let binariesLaunchConfigurations := parseForLaunchConfiguration source in
  let items := map launchConfigurationToString binariesLaunchConfigurations in
  let items' := Js.filterFirstOccurrence (Js.sort items) in
  logger_message ("Found the following launch targets defined in the makefile: "
                  +++ Js.join ";" items') ;;
  ret items'.

(** The content of the build log of the configuration, when there is a
    log and it can be read. *)
Definition buildLogContent (w : World) (s : State) : option string :=
  if Js.truthy (configurationBuildLog s)
  then readFile w (show (configurationBuildLog s))
  else None.

Definition parseLaunchConfigurationsFromBuildLog : M (option (list string)) :=
  w <- world ;;
  s <- getState ;;
  match buildLogContent w s with
  | Some (String c t) =>
      logger_message ("Parsing the provided build log " +++ dq
                      +++ show (configurationBuildLog s) +++ dq
                      +++ " for launch configurations...") ;;
      items <- parseLaunchConfigurations (String c t) ;;
      ret (Some items)
  | _ => ret None
  end.

Definition setLaunchConfigurationByName (launchConfigurationName : string)
  : M unit :=
  emit (StatusSetLaunchConfiguration launchConfigurationName) ;;
  match stringToLaunchConfiguration launchConfigurationName with
  | Some lc =>
      o <- allocate lc ;;
      modify (set_currentLaunchConfiguration (Some o)) ;;
      logger_message ("Setting launch target " +++ dq
                      +++ launchConfigurationName +++ dq) ;;
      emit (SettingsUpdate "launchConfiguration" (VLaunch lc))
  | None =>
      modify (set_currentLaunchConfiguration None) ;;
      logger_message ("Setting launch target " +++ dq
                      +++ launchConfigurationName +++ dq) ;;
      emit (SettingsUpdate "launchConfiguration" VUndefined)
  end.

Definition selectLaunchConfiguration (launchConfigurationsNames : list string)
  : M unit :=
  w <- world ;;
  emit (QuickPick launchConfigurationsNames
          (match launchConfigurationsNames with
           | [] => Some "No launch targets identified"
           | _ => None
           end)) ;;
  match showQuickPick w launchConfigurationsNames with
  | Some (String c t) => setLaunchConfigurationByName (String c t)
  | _ => skip
  end.

Definition setNewLaunchConfiguration : M unit :=
  fromLog <- parseLaunchConfigurationsFromBuildLog ;;
  match fromLog with
  | Some binariesLaunchConfigurationNames =>
      selectLaunchConfiguration binariesLaunchConfigurationNames
  | None =>
      w <- world ;;
      s <- getState ;;
      let commandArgs' :=
        configurationCommandArgs s
        ++ (if Js.truthy (currentTarget s) then [show (currentTarget s)] else [])
        ++ ["--dry-run"; "--always-make"; "--keep-going"; "--print-data-base"] in
      logger_message ("Generating the dry-run to parse launch configuration for the binaries built by the makefile. Command: "
                      +++ configurationCommandName s +++ " "
                      +++ Js.join " " commandArgs') ;;
      emit (SpawnChildProcess (configurationCommandName s) commandArgs'
              (rootOrEmpty w)) ;;
      match spawnChildProcess w (configurationCommandName s) commandArgs'
              (rootOrEmpty w) with
      | Closed stdoutChunks stderrChunks retCode signal =>
          (if negb (retCode =? 0)%Z then
             logger_message "The verbose make dry-run command for parsing binaries launch configuration failed." ;;
             logger_message (String.concat "" stderrChunks)
           else skip) ;;
          launchConfigurationNames <-
            parseLaunchConfigurations (String.concat "" stdoutChunks) ;;
          selectLaunchConfiguration launchConfigurationNames
      | Rejected error => logger_message error
      end
  end.

Definition parseTargetsFromBuildLog : M (option (list string)) :=
  w <- world ;;
  s <- getState ;;
  match buildLogContent w s with
  | Some (String c t) =>
      logger_message ("Parsing the provided build log " +++ dq
                      +++ show (configurationBuildLog s) +++ dq
                      +++ " for targets...") ;;
      ret (Some (Js.sort (parseTargets (String c t))))
  | _ => ret None
  end.

Definition setTargetByName (targetName : string) : M unit :=
  modify (set_currentTarget (Some targetName)) ;;
  emit (StatusSetTarget targetName) ;;
  logger_message ("Setting target " +++ targetName) ;;
  emit (SettingsUpdate "buildTarget" (VString targetName)) ;;
  make_parseBuildOrDryRun.

Definition selectTarget (makefileTargets : list string) : M unit :=
  w <- world ;;
  emit (QuickPick makefileTargets None) ;;
  match showQuickPick w makefileTargets with
  | Some (String c t) => setTargetByName (String c t)
  | _ => skip
  end.

Definition setNewTarget : M unit :=
  fromLog <- parseTargetsFromBuildLog ;;
  match fromLog with
  | Some makefileTargets => selectTarget makefileTargets
  | None =>
      w <- world ;;
      s <- getState ;;
      let commandArgs' := ["all"; "--dry-run"; "-p"] ++ configurationCommandArgs s in
      logger_message ("Parsing the targets in the makefile. Command: "
                      +++ configurationCommandName s +++ " "
                      +++ Js.join " " commandArgs') ;;
      emit (SpawnChildProcess (configurationCommandName s) commandArgs'
              (rootOrEmpty w)) ;;
      match spawnChildProcess w (configurationCommandName s) commandArgs'
              (rootOrEmpty w) with
      | Closed stdoutChunks stderrChunks retCode signal =>
          (if negb (retCode =? 0)%Z then
             logger_message "The verbose make dry-run command for parsing targets failed." ;;
             logger_message (String.concat "" stderrChunks)
           else skip) ;;
          selectTarget (Js.sort (parseTargets (String.concat "" stdoutChunks)))
      | Rejected error => logger_message error
      end
  end.

End Configuration.

(** ** The environment of the functions *)

(** [workspaceConfiguration.update(key, value)] as the store applies it; a
    value of [undefined] removes the setting. *)
Definition updateSetting (key : string) (value : SettingValue) (t : Settings.t)
  : Settings.t :=
  let str := match value with VString s => Some s | _ => None end in
  let launch := match value with VLaunch lc => Some lc | _ => None end in
  if String.eqb key "buildConfiguration" then
    {| Settings.buildConfiguration := str;
       Settings.buildTarget := Settings.buildTarget t;
       Settings.launchConfiguration := Settings.launchConfiguration t;
       Settings.buildLog := Settings.buildLog t;
       Settings.extensionLog := Settings.extensionLog t;
       Settings.makePath := Settings.makePath t;
       Settings.loggingLevel := Settings.loggingLevel t |}
  else if String.eqb key "buildTarget" then
    {| Settings.buildConfiguration := Settings.buildConfiguration t;
       Settings.buildTarget := str;
       Settings.launchConfiguration := Settings.launchConfiguration t;
       Settings.buildLog := Settings.buildLog t;
       Settings.extensionLog := Settings.extensionLog t;
       Settings.makePath := Settings.makePath t;
       Settings.loggingLevel := Settings.loggingLevel t |}
  else if String.eqb key "launchConfiguration" then
    {| Settings.buildConfiguration := Settings.buildConfiguration t;
       Settings.buildTarget := Settings.buildTarget t;
       Settings.launchConfiguration := launch;
       Settings.buildLog := Settings.buildLog t;
       Settings.extensionLog := Settings.extensionLog t;
       Settings.makePath := Settings.makePath t;
       Settings.loggingLevel := Settings.loggingLevel t |}
  else t.

Definition withSettings (t : Settings.t) (w : World) : World :=
  {| settings := t; files := files w; rootPath := rootPath w;
     workspaceFolders := workspaceFolders w; showQuickPick := showQuickPick w;
     spawnChildProcess := spawnChildProcess w |}.

(** The store after the settings writes of a trace. *)
Fixpoint commit (trace : list Event) (t : Settings.t) : Settings.t :=
  match trace with
  | [] => t
  | SettingsUpdate key value :: trace' => commit trace' (updateSetting key value t)
  | _ :: trace' => commit trace' t
  end.

(** The events a computation adds to the trace of [s]. *)
Definition added {A} (c : M A) (w : World) (s : State) : list Event :=
  skipn (length (events s)) (events (exec c w s)).

Definition LaunchConfiguration_eq_dec (a b : LaunchConfiguration)
  : {a = b} + {a <> b}.
Proof. decide equality; auto using string_dec, list_eq_dec. Defined.

Definition SettingValue_eq_dec (a b : SettingValue) : {a = b} + {a <> b}.
Proof. decide equality; auto using string_dec, LaunchConfiguration_eq_dec. Defined.

Definition Event_eq_dec (a b : Event) : {a = b} + {a <> b}.
Proof.
  decide equality;
    auto using string_dec, list_eq_dec, SettingValue_eq_dec.
  decide equality; auto using string_dec.
Defined.

(** How often an event occurs in a trace. *)
Definition occurrences (e : Event) (trace : list Event) : nat :=
  count_occ Event_eq_dec trace e.

(** How often the downstream reparse is requested in a trace. *)
Definition reparses (trace : list Event) : nat :=
  occurrences ParseBuildOrDryRun trace.

Definition isSpawn (e : Event) : bool :=
  match e with
  | SpawnChildProcess _ _ _ => true
  | _ => false
  end.

(** How many processes a trace starts. *)
Definition spawns (trace : list Event) : nat := length (filter isSpawn trace).

(** The two notifications the extension listens to. *)
Inductive Notification :=
| DocumentSaved (fileName : string)
| ConfigurationChanged (affectsMakefile : bool).

Section Environment.

Context {U : Util} {P : Parser} {J : Json}.

Definition deliver (n : Notification) : M unit :=
  match n with
  | DocumentSaved fileName => onDidSaveTextDocument fileName
  | ConfigurationChanged affectsMakefile => onDidChangeConfiguration affectsMakefile
  end.

(** A sequence of notifications, each delivered in the workspace as it is
    at that moment. *)
Fixpoint deliverAll (ns : list (World * Notification)) (s : State) : State :=
  match ns with
  | [] => s
  | (w, n) :: ns' => deliverAll ns' (exec (deliver n) w s)
  end.

(** A function of the file that writes to the settings store, followed by
    the change notification that its writes cause: the store takes the
    writes, then the listener runs.  The result is the workspace after
    the writes, the state when the function returns and the state after
    the notification. *)
Definition thenNotified (op : M unit) (w : World) (s : State)
  : World * State * State :=
  let s1 := exec op w s in
  let w1 := withSettings (commit (added op w s) (settings w)) w in
  (w1, s1, exec (onDidChangeConfiguration true) w1 s1).

End Environment.

(** ** Implementations of the imported modules *)

(** Modelled from the spec: [util.makeRelPath] and [util.makeFullPath]
    (section 4.5: the binary is encoded as its path relative to the working
    directory, and decoded by joining the relative form against the
    working directory). *)
Definition specUtil : Util := {|
  makeRelPath fullPath curPath := Path.relative curPath fullPath;
  makeFullPath relPath curPath := Path.join curPath relPath
|}.

(** A parser that takes every line of the text for a target name and finds
    no launch configuration; it stands for [./parser] where a function is
    run on a concrete text. *)
Definition lineParser : Parser := {|
  parseTargets text := Js.split "010"%char text;
  parseForLaunchConfiguration _ := []
|}.

(** A [JSON.parse] that knows two texts: the empty array and an array with
    the configuration [A] of section 8; every other text makes it throw. *)
Definition configurationA : MakeConfiguration :=
  {| name := "A"; commandName := Some "nmake";
     commandArgs := Some ["/f"; "Foo"]; mc_buildLog := None |}.

Definition tinyJson : Json := {|
  JSON_parse text :=
    if String.eqb text "[]" then Some []
    else if String.eqb text "[A]" then Some [configurationA]
    else None
|}.

(** A workspace with the root folder [/proj], no file and no setting, in
    which the user dismisses every quick pick and no process starts. *)
Definition emptyWorld : World :=
  {| settings := Settings.empty; files := fun _ => None;
     rootPath := Some "/proj"; workspaceFolders := true;
     showQuickPick := fun _ => None;
     spawnChildProcess := fun _ _ _ => Rejected "spawn failed" |}.

Definition withFiles (f : string -> option string) (w : World) : World :=
  {| settings := settings w; files := f; rootPath := rootPath w;
     workspaceFolders := workspaceFolders w; showQuickPick := showQuickPick w;
     spawnChildProcess := spawnChildProcess w |}.

(** One file with the given content. *)
Definition oneFile (path content : string) : string -> option string :=
  fun p => if String.eqb p path then Some content else None.

(** ** Observations of strings and paths *)

(** [s.includes(c)] *)
Fixpoint contains (c : ascii) (s : string) : bool :=
  match s with
  | EmptyString => false
  | String x t => Ascii.eqb x c || contains c t
  end.

(** No character of [cs] occurs in [s]. *)
Definition avoids (cs : list ascii) (s : string) : bool :=
  forallb (fun c => negb (contains c s)) cs.

Fixpoint lineFree (s : string) : bool :=
  match s with
  | EmptyString => true
  | String x t => negb (Js.lineTerminator x) && lineFree t
  end.

(** The characters the one-line form gives a meaning to. *)
Definition reserved : list ascii := [">"; "("; ")"; ","]%char.

(** A field that holds no reserved character. *)
Definition plain (s : string) : bool := avoids reserved s.

(** The condition of the specification on a launch configuration: no field
    holds a reserved character. *)
Definition plainRecord (r : LaunchConfiguration) : bool :=
  plain (cwd r) && plain (binary r) && forallb plain (args r).

(** No field holds a line terminator. *)
Definition oneLine (r : LaunchConfiguration) : bool :=
  lineFree (cwd r) && lineFree (binary r) && forallb lineFree (args r).

(** A path segment that normalization keeps as it is: not empty, without a
    slash, and neither [.] nor [..]. *)
Definition segmentOk (seg : string) : bool :=
  negb (String.eqb seg "") && negb (contains Path.slash seg)
  && negb (String.eqb seg ".") && negb (String.eqb seg "..").

(** The normalized absolute path with the given segments. *)
Definition absoluteOf (segs : list string) : string := "/" +++ Js.join "/" segs.

Definition leString (a b : string) : Prop := String.leb a b = true.

(** ** Observations of states and traces *)

(** [c] does not change the observation [f] of the state. *)
Definition preserves {A X} (f : State -> X) (c : M A) : Prop :=
  forall w s, f (exec c w s) = f s.

(** [c] maintains the invariant [I]. *)
Definition keeps {A} (I : State -> Prop) (c : M A) : Prop :=
  forall w s, I s -> I (exec c w s).

Definition isWrite (e : Event) : bool :=
  match e with
  | SettingsUpdate _ _ => true
  | _ => false
  end.

(** [c] only adds events to the trace, and no settings write. *)
Definition writesNothing {A} (c : M A) : Prop :=
  forall w s, exists es,
    events (exec c w s) = events s ++ es /\ forallb (fun e => negb (isWrite e)) es = true.

(** How often the change of the launch configuration is logged in a
    trace. *)
Definition launchChanges (trace : list Event) : nat :=
  occurrences (LogMessage "Launch configuration setting changed.") trace.

(** How often the listener has started its comparisons in a trace. *)
Definition detections (trace : list Event) : nat :=
  occurrences (LogMessage "Detected a change in settings") trace.

(** The object in memory is older than the next object. *)
Definition heapOrdered (s : State) : Prop :=
  match currentLaunchConfiguration s with
  | Some o => objectId o < nextObject s
  | None => True
  end.

(** Whether one of the four settings that bear on the build command
    differs from the variable it is compared with. *)
Definition reparseDue (w : World) (s : State) : bool :=
  buildConfigurationChanged (Settings.buildConfiguration (settings w))
    (currentMakeConfiguration s)
  || targetChanged (Settings.buildTarget (settings w)) (currentTarget s)
  || settingChanged (Settings.buildLog (settings w)) (buildLog s)
  || settingChanged (Settings.makePath (settings w)) (makePath s).

(** The body of [if (updateConfigProvider)] in the listener. *)
Definition triggerUpdates : M unit :=
  logger_message "Some of the changes detected in settings are triggering udpates" ;;
  s' <- getState ;;
  getCommandForConfiguration (Some (currentMakeConfiguration s')) ;;
  getBuildLogForConfiguration (Some (currentMakeConfiguration s')) ;;
  make_parseBuildOrDryRun.

(** ** The resolution rules, as functions of their inputs *)

(** The part of a command that the configuration or else the settings
    supply, or else a default: [a || b || c]. *)
Definition firstOf (fromConfiguration fromSettings : option string)
  (default : string) : string :=
  Js.orString fromConfiguration (Js.orString fromSettings default).

(** The command of a configuration record and a make path: the directory
    and the file name without its extension (the [name] of the parsed path)
    are each taken from the record, or else from the make path, and
    joined. *)
Definition resolvedCommand (record : option MakeConfiguration)
  (globalMakePath : option string) : string :=
  let fromRecord := parsedPathConfigurations record in
  let fromSettings :=
    match globalMakePath with
    | Some (String c t) => Some (Path.parse (String c t))
    | _ => None
    end in
  Path.join
    (firstOf (option_map Path.dir fromRecord) (option_map Path.dir fromSettings) "")
    (firstOf (option_map Path.name fromRecord) (option_map Path.name fromSettings)
       "make").

(** The same with the base name of the parsed path (the file name with its
    extension), as section 4.2 words it. *)
Definition resolvedCommandSpec (record : option MakeConfiguration)
  (globalMakePath : option string) : string :=
  let fromRecord := parsedPathConfigurations record in
  let fromSettings :=
    match globalMakePath with
    | Some (String c t) => Some (Path.parse (String c t))
    | _ => None
    end in
  Path.join
    (firstOf (option_map Path.dir fromRecord) (option_map Path.dir fromSettings) "")
    (firstOf (option_map Path.base fromRecord) (option_map Path.base fromSettings)
       "make").

Definition resolvedArgs (record : option MakeConfiguration) : list string :=
  match record with
  | Some k => match commandArgs k with Some a => a | None => [] end
  | None => []
  end.

(** The build log a configuration record supplies. *)
Definition recordBuildLog (record : option MakeConfiguration) : option string :=
  match record with
  | Some k => mc_buildLog k
  | None => None
  end.

(** A path as the resolution leaves it: absolute paths stay, relative ones
    are joined against the root folder. *)
Definition resolvedPath (w : World) (p : string) : string :=
  if Path.isAbsolute p then p else Path.join (rootOrEmpty w) p.

Definition notFoundMessage : string :=
  "Configurations file /.vscode/make_configurations.json not found".

Definition readingMessage : string :=
  "Reading configurations from file /.vscode/make_configurations.json".

(** ** Inputs on which the functions are run *)

Definition lineBreak : string := String "010"%char EmptyString.

(** A launch configuration of a binary below its working directory, with
    two arguments. *)
Definition launchApp : LaunchConfiguration :=
  {| binary := "/proj/bin/app"; cwd := "/proj"; args := ["-v"; "input.txt"] |}.

(** A state with the given configurations and make path. *)
Definition configured (configurations : list MakeConfiguration)
  (globalMakePath : option string) : State :=
  set_makePath globalMakePath (set_makeConfigurations configurations initialState).

(** A configuration whose command has a directory and an extension. *)
Definition configurationExe : MakeConfiguration :=
  {| name := "A"; commandName := Some "/opt/gnu/gmake.exe";
     commandArgs := None; mc_buildLog := None |}.

(** A configuration whose command is the name of a tool with a version. *)
Definition configurationVersioned : MakeConfiguration :=
  {| name := "A"; commandName := Some "gmake-4.3";
     commandArgs := None; mc_buildLog := None |}.

(** A configuration with a relative build log. *)
Definition configurationLog : MakeConfiguration :=
  {| name := "A"; commandName := None; commandArgs := None;
     mc_buildLog := Some "logs/build.log" |}.

(** The workspace [/proj] with a configurations file that holds the
    configuration [A]. *)
Definition worldWithA : World :=
  withFiles (oneFile "/proj/.vscode/make_configurations.json" "[A]") emptyWorld.

(** The workspace [/proj] with the build log [/proj/build.log], one target
    on each line. *)
Definition worldWithLog : World :=
  withFiles (oneFile "/proj/build.log"
               ("all" +++ lineBreak +++ "clean" +++ lineBreak +++ "clean"))
    emptyWorld.

Definition stateWithLog : State :=
  set_configurationBuildLog (Some "/proj/build.log") initialState.

Definition withStore (t : Settings.t) : World := withSettings t emptyWorld.

(** A store with a build log given relative to the root folder, and the
    same store after the user has set the extension log. *)
Definition storeRelativeLog : Settings.t :=
  {| Settings.buildConfiguration := None; Settings.buildTarget := None;
     Settings.launchConfiguration := None;
     Settings.buildLog := Some "build.log"; Settings.extensionLog := None;
     Settings.makePath := None; Settings.loggingLevel := None |}.

Definition storeRelativeLogEdited : Settings.t :=
  {| Settings.buildConfiguration := None; Settings.buildTarget := None;
     Settings.launchConfiguration := None;
     Settings.buildLog := Some "build.log";
     Settings.extensionLog := Some "/tmp/makefile-tools.log";
     Settings.makePath := None; Settings.loggingLevel := None |}.

(** A store that holds a launch configuration. *)
Definition storeWithLaunch : Settings.t :=
  {| Settings.buildConfiguration := None; Settings.buildTarget := None;
     Settings.launchConfiguration := Some launchApp;
     Settings.buildLog := None; Settings.extensionLog := None;
     Settings.makePath := None; Settings.loggingLevel := None |}.

(** The extension after its initialisation in the empty workspace. *)
Definition started : State :=
  exec (@initFromSettings specUtil tinyJson) emptyWorld initialState.

(** A closed listener in front of two notifications. *)
Definition suppressed : State :=
  exec stopListeningToSettingsChanged emptyWorld started.

Definition startedWithLaunch : State :=
  exec (@initFromSettings specUtil tinyJson) (withStore storeWithLaunch)
    initialState.

(** ** The entry points *)

(** The entry points of the file: the initialisation, the two listeners,
    the guard switches and the commands. *)
Inductive Command :=
| InitFromSettings
| Notify (n : Notification)
| StartListening
| StopListening
| SetConfigurationByName (configurationName : string)
| SetTargetByName (targetName : string)
| SetLaunchConfigurationByName (launchConfigurationName : string)
| SetNewConfiguration
| SetNewTarget
| SetNewLaunchConfiguration.

Section Notified.

Context {U : Util} {P : Parser} {J : Json}.

(** What [setLaunchConfigurationByName] writes: the decoded launch
    configuration, or [undefined] when the name does not decode. *)
Definition launchValue (launchConfigurationName : string) : SettingValue :=
  match stringToLaunchConfiguration launchConfigurationName with
  | Some lc => VLaunch lc
  | None => VUndefined
  end.

(** A function that writes a setting, and then the notification of its
    write: the function leaves the guard as it is, the notification
    requests no reparse, and when the listener is open the notification
    does start the comparisons. *)
Definition quietlyNotified (op : M unit) (w : World) (s : State) : Prop :=
  let '(w1, s1, s2) := thenNotified op w s in
  ignoreSettingsChanged s1 = ignoreSettingsChanged s
  /\ reparses (events s2) = reparses (events s1)
  /\ (workspaceFolders w = true -> ignoreSettingsChanged s = false ->
      detections (events s2) = S (detections (events s1))).

Definition run (c : Command) : M unit :=
  match c with
  | InitFromSettings => initFromSettings
  | Notify n => deliver n
  | StartListening => startListeningToSettingsChanged
  | StopListening => stopListeningToSettingsChanged
  | SetConfigurationByName n => setConfigurationByName n
  | SetTargetByName t => setTargetByName t
  | SetLaunchConfigurationByName l => setLaunchConfigurationByName l
  | SetNewConfiguration => setNewConfiguration
  | SetNewTarget => setNewTarget
  | SetNewLaunchConfiguration => setNewLaunchConfiguration
  end.

(** A sequence of entry points, each run in the workspace as it is at that
    moment. *)
Fixpoint runAll (cs : list (World * Command)) (s : State) : State :=
  match cs with
  | [] => s
  | (w, c) :: cs' => runAll cs' (exec (run c) w s)
  end.

End Notified.

(** ** The accessors of the variables

    The one-line functions that the file exports to read and to assign its
    variables. *)

Definition getCurrentMakeConfiguration : M string :=
  s <- getState ;; ret (currentMakeConfiguration s).

Definition getMakePath : M (option string) := s <- getState ;; ret (makePath s).

Definition setMakePath (path : string) : M unit :=
  modify (set_makePath (Some path)).

Definition getBuildLog : M (option string) := s <- getState ;; ret (buildLog s).

Definition setBuildLog (path : string) : M unit :=
  modify (set_buildLog (Some path)).

Definition getLoggingLevel : M (option string) :=
  s <- getState ;; ret (loggingLevel s).

Definition setLoggingLevel (logLevel : string) : M unit :=
  modify (set_loggingLevel (Some logLevel)).

Definition getExtensionLog : M (option string) :=
  s <- getState ;; ret (extensionLog s).

Definition setExtensionLog (path : string) : M unit :=
  modify (set_extensionLog (Some path)).

Definition getCurrentLaunchConfiguration : M (option LaunchObject) :=
  s <- getState ;; ret (currentLaunchConfiguration s).

Definition getConfigurationCommandName : M string :=
  s <- getState ;; ret (configurationCommandName s).

Definition setConfigurationCommandName (name : string) : M unit :=
  modify (set_configurationCommandName name).

Definition getConfigurationCommandArgs : M (list string) :=
  s <- getState ;; ret (configurationCommandArgs s).

Definition setConfigurationCommandArgs (args : list string) : M unit :=
  modify (set_configurationCommandArgs args).

Definition getConfigurationBuildLog : M (option string) :=
  s <- getState ;; ret (configurationBuildLog s).

Definition setConfigurationBuildLog (name : string) : M unit :=
  modify (set_configurationBuildLog (Some name)).

Definition getMakeConfigurations : M (list MakeConfiguration) :=
  s <- getState ;; ret (makeConfigurations s).

Definition setMakeConfigurations (configurations : list MakeConfiguration)
  : M unit :=
  modify (set_makeConfigurations configurations).

Definition getCurrentTarget : M (option string) :=
  s <- getState ;; ret (currentTarget s).

Definition setCurrentTarget (target : option string) : M unit :=
  modify (set_currentTarget target).

(** ** The dry runs of the make tool *)

Section DryRuns.

Context {U : Util} {P : Parser} {J : Json}.

(** The arguments of the dry run of [setNewTarget], and what the function
    logs and starts. *)
Definition targetArguments (s : State) : list string :=
  ["all"; "--dry-run"; "-p"] ++ configurationCommandArgs s.

Definition targetDryRun (w : World) (s : State) : list Event :=
  [LogMessage ("Parsing the targets in the makefile. Command: "
               +++ configurationCommandName s +++ " "
               +++ Js.join " " (targetArguments s));
   SpawnChildProcess (configurationCommandName s) (targetArguments s)
     (rootOrEmpty w)].

(** The [closing] callback of [setNewTarget], with the output that the
    [stdout] and [stderr] callbacks have collected. *)
Definition targetClosing (out err : list string) (retCode : Z) : M unit :=
  (if negb (retCode =? 0)%Z then
     logger_message "The verbose make dry-run command for parsing targets failed." ;;
     logger_message (String.concat "" err)
   else skip) ;;
  selectTarget (Js.sort (parseTargets (String.concat "" out))).

(** The same for [setNewLaunchConfiguration]. *)
Definition launchArguments (s : State) : list string :=
  configurationCommandArgs s
  ++ (if Js.truthy (currentTarget s) then [show (currentTarget s)] else [])
  ++ ["--dry-run"; "--always-make"; "--keep-going"; "--print-data-base"].

Definition launchDryRun (w : World) (s : State) : list Event :=
  [LogMessage ("Generating the dry-run to parse launch configuration for the binaries built by the makefile. Command: "
               +++ configurationCommandName s +++ " "
               +++ Js.join " " (launchArguments s));
   SpawnChildProcess (configurationCommandName s) (launchArguments s)
     (rootOrEmpty w)].

Definition launchClosing (out err : list string) (retCode : Z) : M unit :=
  (if negb (retCode =? 0)%Z then
     logger_message "The verbose make dry-run command for parsing binaries launch configuration failed." ;;
     logger_message (String.concat "" err)
   else skip) ;;
  launchConfigurationNames <-
    parseLaunchConfigurations (String.concat "" out) ;;
  selectLaunchConfiguration launchConfigurationNames.

End DryRuns.

(** The placeholder of the quick pick of launch targets. *)
Definition launchPlaceHolder (names : list string) : option string :=
  match names with
  | [] => Some "No launch targets identified"
  | _ => None
  end.

(** ** What the functions compute, as functions of their inputs *)

(** The configurations in memory after [readMakeConfigurations]: those of
    the file when it exists and parses, and those of before
    otherwise. *)
Definition loadedConfigurations {J : Json} (w : World) (s : State)
  : list MakeConfiguration :=
  match files w (configurationsJsonPath w) with
  | Some text =>
      match JSON_parse text with
      | Some configurations => configurations
      | None => makeConfigurations s
      end
  | None => makeConfigurations s
  end.

(** The names that [prepareConfigurationsQuickPick] returns for the
    configurations in memory. *)
Definition configurationNames (configurations : list MakeConfiguration)
  : list string :=
  match configurations with
  | [] => ["Default"]
  | _ => map name configurations
  end.

(** A path setting as [readBuildLog] and [readExtensionLog] leave it in
    their variable: a non-empty path is resolved, an empty or absent one
    is kept. *)
Definition resolvedSetting (w : World) (v : option string) : option string :=
  match v with
  | Some (String c t) => Some (resolvedPath w (String c t))
  | _ => v
  end.

(** The three warnings of [getCommandForConfiguration] about the make
    tool. *)
Definition toolWarnings : list string :=
  ["Could not find any make tool file name in make_configurations.json, nor in settings. Assuming make.";
   "For the extension to work, make must be on the path.";
   "It is recommended to define the full path of the make tool in settings (via Makefile.makePath) OR define commandName/commandArgs in make_configurations.json."].

(** The command name a configuration record supplies. *)
Definition recordCommandName (record : option MakeConfiguration) : option string :=
  match record with
  | Some k => commandName k
  | None => None
  end.

(** The workspace after the settings store has taken the writes of
    [op]. *)
Definition stored (op : M unit) (w : World) (s : State) : World :=
  withSettings (commit (added op w s) (settings w)) w.

(** ** Further observations of states and traces *)

(** [c] only adds events to the trace. *)
Definition grows {A} (c : M A) : Prop :=
  forall w s, exists es, events (exec c w s) = events s ++ es.

(** In the workspace [w], [c] does not change the observation [f] of the
    state. *)
Definition preservesIn {A X} (w : World) (f : State -> X) (c : M A) : Prop :=
  forall s, f (exec c w s) = f s.

(** How many settings writes a trace holds. *)
Definition writes (trace : list Event) : nat := length (filter isWrite trace).

Definition isPick (e : Event) : bool :=
  match e with
  | QuickPick _ _ => true
  | _ => false
  end.

(** How many quick picks a trace shows. *)
Definition picks (trace : list Event) : nat := length (filter isPick trace).

(** [c] raises the count [f] by [k] at most. *)
Definition bounded {A} (f : State -> nat) (k : nat) (c : M A) : Prop :=
  forall w s, f (exec c w s) <= f s + k.

(** The variables that the initialisation defines: the command is not
    empty, the target and the logging level are assigned. *)
Definition defined (s : State) : Prop :=
  configurationCommandName s <> ""
  /\ currentTarget s <> None
  /\ Js.truthy (loggingLevel s) = true.

(** The guard after an entry point: the two switches assign it. *)
Definition switched (guard : bool) (c : Command) : bool :=
  match c with
  | StartListening => false
  | StopListening => true
  | _ => guard
  end.

(** The guard after a sequence of entry points. *)
Definition lastSwitch (cs : list (World * Command)) (guard : bool) : bool :=
  fold_left (fun g wc => switched g (snd wc)) cs guard.

(** ** What the status bar shows

    The text that the last call of each setter of the status bar has
    given it, if there has been one. *)

Definition lastConfiguration (shown : option string) (e : Event) : option string :=
  match e with
  | StatusSetConfiguration text => Some text
  | _ => shown
  end.

Definition lastTarget (shown : option string) (e : Event) : option string :=
  match e with
  | StatusSetTarget text => Some text
  | _ => shown
  end.

Definition lastLaunchConfiguration (shown : option string) (e : Event)
  : option string :=
  match e with
  | StatusSetLaunchConfiguration text => Some text
  | _ => shown
  end.

Definition shownConfiguration (trace : list Event) : option string :=
  fold_left lastConfiguration trace None.

Definition shownTarget (trace : list Event) : option string :=
  fold_left lastTarget trace None.

Definition shownLaunchConfiguration (trace : list Event) : option string :=
  fold_left lastLaunchConfiguration trace None.

(** The status bar agrees with the variables: the configuration it shows
    is the current one; the target it shows is the current one, with
    [Default] for the empty target; the launch configuration it shows is
    the one-line form of the current one or a name that decodes to it,
    and a text that does not decode when there is none. *)
Definition configurationShown (s : State) : Prop :=
  forall text, shownConfiguration (events s) = Some text ->
               currentMakeConfiguration s = text.

Definition targetShown (s : State) : Prop :=
  forall text, shownTarget (events s) = Some text ->
               currentTarget s = Some text
               \/ (text = "Default" /\ currentTarget s = Some "").

Definition launchConfigurationShown {U : Util} (s : State) : Prop :=
  forall text, shownLaunchConfiguration (events s) = Some text ->
    match currentLaunchConfiguration s with
    | Some o => text = launchConfigurationToString (content o)
                \/ stringToLaunchConfiguration text = Some (content o)
    | None => stringToLaunchConfiguration text = None
    end.

Definition statusBarConsistent {U : Util} (s : State) : Prop :=
  configurationShown s /\ targetShown s /\ launchConfigurationShown s.

(** ** Further inputs *)

(** A parser that finds three launch configurations, two of them equal, in
    every text. *)
Definition launchTest : LaunchConfiguration :=
  {| binary := "/proj/bin/test"; cwd := "/proj"; args := ["--all"] |}.

Definition launchParser : Parser := {|
  parseTargets text := Js.split "010"%char text;
  parseForLaunchConfiguration _ := [launchTest; launchApp; launchTest]
|}.

(** The workspace [/proj] in which every process prints the targets
    [clean] and [all] in two chunks and ends with the exit code 2, and the
    user dismisses every quick pick. *)
Definition worldWithMake : World :=
  {| settings := Settings.empty; files := fun _ => None;
     rootPath := Some "/proj"; workspaceFolders := true;
     showQuickPick := fun _ => None;
     spawnChildProcess := fun _ _ _ =>
       Closed ["clean" +++ lineBreak +++ "al"; "l"] ["make: *** No rule."] 2 "" |}.

(** The user chooses the configuration [A]. *)
Definition worldChoosingA : World :=
  {| settings := Settings.empty;
     files := oneFile "/proj/.vscode/make_configurations.json" "[A]";
     rootPath := Some "/proj"; workspaceFolders := true;
     showQuickPick := fun _ => Some "A";
     spawnChildProcess := fun _ _ _ => Rejected "spawn failed" |}.

(** A store with a configuration, an absolute build log and a logging
    level. *)
Definition storeAbsoluteLog : Settings.t :=
  {| Settings.buildConfiguration := Some "A"; Settings.buildTarget := None;
     Settings.launchConfiguration := None;
     Settings.buildLog := Some "/var/log/build.log";
     Settings.extensionLog := Some "logs/extension.log";
     Settings.makePath := None; Settings.loggingLevel := Some "Verbose" |}.

(** A store whose configuration is the empty string. *)
Definition storeEmptyConfiguration : Settings.t :=
  {| Settings.buildConfiguration := Some ""; Settings.buildTarget := None;
     Settings.launchConfiguration := None; Settings.buildLog := None;
     Settings.extensionLog := None; Settings.makePath := None;
     Settings.loggingLevel := None |}.

(** A workspace whose settings name a build log that exists, and nothing
    else. *)
Definition worldWithLogSetting : World :=
  {| settings := storeRelativeLog;
     files := oneFile "/proj/build.log" "all:";
     rootPath := Some "/proj"; workspaceFolders := true;
     showQuickPick := fun _ => None;
     spawnChildProcess := fun _ _ _ => Rejected "spawn failed" |}.

(** * Properties *)

(** ** Strings *)

Lemma append_nil_r (s : string) : s +++ "" = s.
Proof. induction s as [|c s IH]; simpl; congruence. Qed.

Lemma append_assoc (a b c : string) : (a +++ b) +++ c = a +++ b +++ c.
Proof. induction a as [|x a IH]; simpl; congruence. Qed.

Lemma contains_append c (a b : string) :
  contains c (a +++ b) = contains c a || contains c b.
Proof.
  induction a as [|x a IH]; simpl; [reflexivity|].
  rewrite IH. now rewrite orb_assoc.
Qed.

Lemma lineFree_append (a b : string) :
  lineFree (a +++ b) = lineFree a && lineFree b.
Proof.
  induction a as [|x a IH]; simpl; [reflexivity|].
  rewrite IH. now rewrite andb_assoc.
Qed.

(** A string in which [c] does not occur has no suffix that starts with
    [c]. *)
Lemma suffix_head c (u v t : string) x :
  u +++ String x v = t -> contains c t = false -> Ascii.eqb x c = false.
Proof.
  intros <- H. rewrite contains_append in H. simpl in H.
  apply orb_false_elim in H as [_ H].
  now apply orb_false_elim in H as [H _].
Qed.

(** ** [split] and [join] *)

Lemma split_not_nil sep s : Js.split sep s <> [].
Proof.
  destruct s as [|c t]; simpl; [discriminate|].
  destruct (Ascii.eqb c sep); [discriminate|].
  destruct (Js.split sep t); discriminate.
Qed.

Lemma split_without sep s : contains sep s = false -> Js.split sep s = [s].
Proof.
  induction s as [|c t IH]; simpl; [reflexivity|].
  intros H. apply orb_false_elim in H as [Hc Ht].
  rewrite Hc, (IH Ht). reflexivity.
Qed.

Lemma split_append sep (x rest : string) :
  contains sep x = false ->
  Js.split sep (x +++ String sep rest) = x :: Js.split sep rest.
Proof.
  induction x as [|c t IH]; simpl; intros H.
  - now rewrite Ascii.eqb_refl.
  - apply orb_false_elim in H as [Hc Ht].
    rewrite Hc, (IH Ht). reflexivity.
Qed.

Lemma split_join_sep sep (xs : list string) :
  xs <> [] ->
  forallb (fun x => negb (contains sep x)) xs = true ->
  Js.split sep (Js.join (String sep "") xs) = xs.
Proof.
  induction xs as [|x xs IH]; [congruence|].
  intros _ H. cbn [forallb] in H. apply andb_prop in H as [Hx Hxs].
  apply negb_true_iff in Hx.
  destruct xs as [|y ys].
  - cbn [Js.join concat]. now apply split_without.
  - change (Js.join (String sep "") (x :: y :: ys))
      with (x +++ String sep (Js.join (String sep "") (y :: ys))).
    rewrite split_append by assumption.
    f_equal. apply IH; [discriminate | assumption].
Qed.

Lemma split_join (xs : list string) :
  xs <> [] ->
  forallb (fun x => negb (contains ","%char x)) xs = true ->
  Js.split ","%char (Js.join "," xs) = xs.
Proof. apply split_join_sep. Qed.

(** Splitting at a separator splits on both sides of it. *)
Lemma split_at sep (a b : string) :
  Js.split sep (a +++ String sep b) = Js.split sep a ++ Js.split sep b.
Proof.
  induction a as [|c a IH]; cbn [append Js.split].
  - now rewrite Ascii.eqb_refl.
  - destruct (Ascii.eqb c sep); [now rewrite IH|].
    rewrite IH. pose proof (split_not_nil sep a) as Hn.
    destruct (Js.split sep a); [congruence | reflexivity].
Qed.

(** ** The regular expression matcher *)

Lemma matchHere_star (p : list Js.Item) (s : string) :
  Js.matchHere (Js.DotStar :: p) s =
  match s with
  | String x t =>
      if Js.lineTerminator x then Js.capture (Js.matchHere p s)
      else match Js.matchHere (Js.DotStar :: p) t with
           | Some (g :: gs) => Some (String x g :: gs)
           | _ => Js.capture (Js.matchHere p s)
           end
  | EmptyString => Js.capture (Js.matchHere p s)
  end.
Proof. destruct s; reflexivity. Qed.

(** A group that can give nothing back: when the rest of the pattern
    matches at no later position, the group is empty. *)
Lemma star_stops (p : list Js.Item) (s : string) :
  (forall u x v, u +++ String x v = s -> Js.matchHere p v = None) ->
  Js.matchHere (Js.DotStar :: p) s = Js.capture (Js.matchHere p s).
Proof.
  induction s as [|c t IH]; intros H; rewrite matchHere_star; [reflexivity|].
  destruct (Js.lineTerminator c); [reflexivity|].
  rewrite IH.
  - rewrite (H "" c t eq_refl). reflexivity.
  - intros u x v E. apply (H (String c u) x v). simpl. now rewrite E.
Qed.

(** A group takes the characters that stand before the place where it
    would otherwise stop. *)
Lemma star_takes (p : list Js.Item) (g s g0 : string) gs :
  lineFree g = true ->
  Js.matchHere (Js.DotStar :: p) s = Some (g0 :: gs) ->
  Js.matchHere (Js.DotStar :: p) (g +++ s) = Some ((g +++ g0) :: gs).
Proof.
  induction g as [|c g IH]; intros Hg Hs; [assumption|].
  simpl in Hg. apply andb_prop in Hg as [Hc Hg].
  change (String c g +++ s) with (String c (g +++ s)).
  change (String c g +++ g0) with (String c (g +++ g0)).
  rewrite matchHere_star.
  apply negb_true_iff in Hc. rewrite Hc.
  now rewrite (IH Hg Hs).
Qed.

Lemma exec_here (p : list Js.Item) (s : string) gs :
  Js.matchHere p s = Some gs -> Js.exec p s = Some gs.
Proof. intros H. destruct s; simpl in *; now rewrite H. Qed.

(** The groups are greedy: the first one ends at the last [>] after which
    the rest can still match, and a text that starts on an earlier line is
    skipped. *)
Example exec_greedy :
  Js.exec launchRegexp "a>b>c(d(e)f)g" = Some ["a>b"; "c(d"; "e)f"].
Proof. reflexivity. Qed.

Example exec_second_line :
  Js.exec launchRegexp ("xx" +++ lineBreak +++ "/proj>bin/app(-v)")
  = Some ["/proj"; "bin/app"; "-v"].
Proof. reflexivity. Qed.

Example exec_no_match : Js.exec launchRegexp "/proj/bin/app -v" = None.
Proof. reflexivity. Qed.

Lemma matchHere_lit (p : list Js.Item) c x (t : string) :
  Js.matchHere (Js.Lit c :: p) (String x t) =
  if Ascii.eqb x c then Js.matchHere p t else None.
Proof. reflexivity. Qed.

(** A literal does not match where the text goes on with a piece in which
    its character does not occur. *)
Lemma lit_misses (p : list Js.Item) c (u v t : string) :
  u +++ v = t -> contains c t = false -> Js.matchHere (Js.Lit c :: p) v = None.
Proof.
  intros E H. destruct v as [|y v]; [reflexivity|].
  rewrite matchHere_lit. now rewrite (suffix_head c u v t y E H).
Qed.

(** A group followed by a separator that does not occur again: the group
    is the text before the separator. *)
Lemma match_group (p : list Js.Item) c (g rest : string) gs :
  lineFree g = true ->
  contains c rest = false ->
  Js.matchHere p rest = Some gs ->
  Js.matchHere (Js.DotStar :: Js.Lit c :: p) (g +++ String c rest)
  = Some (g :: gs).
Proof.
  intros Hg Hc Hrest.
  rewrite <- (append_nil_r g) at 2.
  apply star_takes; [assumption|].
  rewrite star_stops.
  - rewrite matchHere_lit, Ascii.eqb_refl, Hrest. reflexivity.
  - intros u x v E. destruct u as [|c' u]; simpl in E; injection E as _ E.
    + now apply (lit_misses p c "" v rest).
    + apply (lit_misses p c (u +++ String x "") v rest); [|assumption].
      now rewrite append_assoc.
Qed.

Lemma avoids_contains cs c (s : string) :
  avoids cs s = true -> In c cs -> contains c s = false.
Proof.
  unfold avoids. intros H Hin.
  rewrite forallb_forall in H. apply negb_true_iff. now apply H.
Qed.

Lemma contains_join_sep sep c (xs : list string) :
  Ascii.eqb sep c = false ->
  forallb (fun x => negb (contains c x)) xs = true ->
  contains c (Js.join (String sep "") xs) = false.
Proof.
  intros Hc. induction xs as [|x xs IH]; [reflexivity|].
  intros H. cbn [forallb] in H. apply andb_prop in H as [Hx Hxs].
  apply negb_true_iff in Hx.
  destruct xs as [|y ys]; [exact Hx|].
  change (Js.join (String sep "") (x :: y :: ys))
    with (x +++ String sep (Js.join (String sep "") (y :: ys))).
  rewrite contains_append. cbn [contains]. rewrite Hx, Hc, (IH Hxs). reflexivity.
Qed.

Lemma contains_join c (xs : list string) :
  Ascii.eqb ","%char c = false ->
  forallb (fun x => negb (contains c x)) xs = true ->
  contains c (Js.join "," xs) = false.
Proof. apply contains_join_sep. Qed.

Lemma lineFree_join_sep sep (xs : list string) :
  Js.lineTerminator sep = false ->
  forallb lineFree xs = true -> lineFree (Js.join (String sep "") xs) = true.
Proof.
  intros Hsep. induction xs as [|x xs IH]; [reflexivity|].
  intros H. cbn [forallb] in H. apply andb_prop in H as [Hx Hxs].
  destruct xs as [|y ys]; [exact Hx|].
  change (Js.join (String sep "") (x :: y :: ys))
    with (x +++ String sep (Js.join (String sep "") (y :: ys))).
  rewrite lineFree_append. cbn [lineFree]. now rewrite Hx, Hsep, (IH Hxs).
Qed.

Lemma lineFree_join (xs : list string) :
  forallb lineFree xs = true -> lineFree (Js.join "," xs) = true.
Proof. now apply lineFree_join_sep. Qed.

(** ** Paths *)

Example split_empty : Js.split ","%char "" = [""].
Proof. reflexivity. Qed.

Example split_two : Js.split ","%char "/f,Foo" = ["/f"; "Foo"].
Proof. reflexivity. Qed.

Example parse_make : Path.parse "/usr/bin/make" =
  {| Path.root := "/"; Path.dir := "/usr/bin"; Path.base := "make";
     Path.ext := ""; Path.name := "make" |}.
Proof. reflexivity. Qed.

Example parse_exe : Path.parse "tools/gmake.exe" =
  {| Path.root := ""; Path.dir := "tools"; Path.base := "gmake.exe";
     Path.ext := ".exe"; Path.name := "gmake" |}.
Proof. reflexivity. Qed.

Example parse_trailing_slash : Path.parse "/usr/bin/" =
  {| Path.root := "/"; Path.dir := "/usr"; Path.base := "bin";
     Path.ext := ""; Path.name := "bin" |}.
Proof. reflexivity. Qed.

Example parse_two_extensions : Path.parse "a/b.tar.gz" =
  {| Path.root := ""; Path.dir := "a"; Path.base := "b.tar.gz";
     Path.ext := ".gz"; Path.name := "b.tar" |}.
Proof. reflexivity. Qed.

Example normalize_up : Path.normalize "a/../../b/./c/" = "../b/c/".
Proof. reflexivity. Qed.

Example join_log : Path.join "/proj" "logs/build.log" = "/proj/logs/build.log".
Proof. reflexivity. Qed.

Example join_up : Path.join "/proj/out" "../bin/app" = "/proj/bin/app".
Proof. reflexivity. Qed.

Example relative_up : Path.relative "/proj/out" "/proj/bin/app" = "../bin/app".
Proof. reflexivity. Qed.

Lemma normalize_not_empty (p : string) : Path.normalize p <> "".
Proof.
  unfold Path.normalize. destruct p as [|c t]; [discriminate|].
  destruct (Path.isAbsolute (String c t)); [discriminate|].
  destruct (Path.normalizeString (String c t) (negb false)) as [|x q].
  - destruct (Path.endsWithSlash (String c t)); discriminate.
  - destruct (Path.endsWithSlash (String c t)); discriminate.
Qed.

Lemma join_not_empty (a b : string) : Path.join a b <> "".
Proof.
  unfold Path.join.
  destruct a, b; try discriminate; apply normalize_not_empty.
Qed.

Lemma normalize_absolute (p : string) :
  Path.isAbsolute p = true -> Path.isAbsolute (Path.normalize p) = true.
Proof.
  intros H. unfold Path.normalize. destruct p as [|c t]; [discriminate|].
  rewrite H. reflexivity.
Qed.

Lemma join_absolute (a b : string) :
  Path.isAbsolute a = true -> Path.isAbsolute (Path.join a b) = true.
Proof.
  intros H. unfold Path.join. destruct a as [|c t]; [discriminate|].
  destruct b; apply normalize_absolute; exact H.
Qed.

(** ** Relative paths and joining *)

Lemma push_kept a (res : list string) (seg : string) :
  segmentOk seg = true -> Path.pushSegment a res seg = seg :: res.
Proof.
  unfold segmentOk, Path.pushSegment. intros H.
  apply andb_prop in H as [H H4]. apply andb_prop in H as [H H3].
  apply andb_prop in H as [H1 _].
  apply negb_true_iff in H1, H3, H4. now rewrite H1, H3, H4.
Qed.

Lemma push_all_kept a (segs res : list string) :
  forallb segmentOk segs = true ->
  fold_left (Path.pushSegment a) segs res = rev segs ++ res.
Proof.
  revert res. induction segs as [|x xs IH]; intros res H; [reflexivity|].
  cbn [forallb] in H. apply andb_prop in H as [Hx Hxs].
  cbn [fold_left rev]. rewrite push_kept by assumption.
  rewrite IH by assumption. now rewrite <- app_assoc.
Qed.

(** As many [..] as there are segments on the stack remove them. *)
Lemma push_ups (xs ys res : list string) :
  forallb segmentOk xs = true -> length ys = length xs ->
  fold_left (Path.pushSegment false) (map (fun _ => "..") ys) (xs ++ res) = res.
Proof.
  revert ys. induction xs as [|x xs IH]; intros ys H Hlen.
  - destruct ys; [reflexivity | discriminate].
  - destruct ys as [|y ys]; [discriminate|].
    cbn [forallb] in H. apply andb_prop in H as [Hx Hxs].
    cbn [map fold_left app]. injection Hlen as Hlen.
    assert (E : Path.pushSegment false (x :: xs ++ res) ".." = xs ++ res).
    { unfold Path.pushSegment. cbn [String.eqb Ascii.eqb Bool.eqb orb].
      unfold segmentOk in Hx. apply andb_prop in Hx as [_ Hx].
      apply negb_true_iff in Hx. now rewrite Hx. }
    rewrite E. now apply IH.
Qed.

Lemma segmentOk_noSlash (segs : list string) :
  forallb segmentOk segs = true ->
  forallb (fun x => negb (contains Path.slash x)) segs = true.
Proof.
  intros H. rewrite forallb_forall in *. intros x Hx.
  specialize (H x Hx). unfold segmentOk in H.
  apply andb_prop in H as [H _]. apply andb_prop in H as [H _].
  now apply andb_prop in H as [_ H].
Qed.

(** The stack of segments after an absolute path. *)
Lemma push_absolute a (segs : list string) :
  forallb segmentOk segs = true ->
  fold_left (Path.pushSegment a) (Js.split Path.slash (absoluteOf segs)) []
  = rev segs.
Proof.
  intros H. unfold absoluteOf.
  change ("/" +++ Js.join "/" segs) with ("" +++ String Path.slash (Js.join "/" segs)).
  rewrite split_at. cbn [Js.split app fold_left].
  change (Path.pushSegment a [] "") with (@nil string).
  destruct segs as [|x xs]; [reflexivity|].
  change (Js.join "/" (x :: xs)) with (Js.join (String Path.slash "") (x :: xs)).
  rewrite split_join_sep; [|discriminate|now apply segmentOk_noSlash].
  rewrite push_all_kept by assumption. now rewrite app_nil_r.
Qed.

Lemma segments_absolute (segs : list string) :
  forallb segmentOk segs = true ->
  Path.segments false (absoluteOf segs) = segs.
Proof.
  intros H. unfold Path.segments. rewrite push_absolute by assumption.
  apply rev_involutive.
Qed.

Lemma dropCommon_spec (a b f t : list string) :
  Path.dropCommon a b = (f, t) ->
  exists common, a = common ++ f /\ b = common ++ t.
Proof.
  revert b. induction a as [|x a IH]; intros b H.
  - cbn in H. injection H as <- <-. now exists [].
  - destruct b as [|y b].
    + cbn in H. injection H as <- <-. now exists [].
    + cbn [Path.dropCommon] in H. destruct (String.eqb_spec x y) as [->|Hxy].
      * destruct (IH b H) as [common [-> ->]]. now exists (y :: common).
      * injection H as <- <-. now exists [].
Qed.

Lemma endsWithSlash_append (x y : string) :
  y <> "" -> Path.endsWithSlash (x +++ y) = Path.endsWithSlash y.
Proof.
  intros Hy. induction x as [|c x IH]; [reflexivity|].
  cbn [append Path.endsWithSlash]. rewrite IH.
  destruct (x +++ y) eqn:E; [|reflexivity].
  destruct x; cbn in E; [congruence | discriminate].
Qed.

Lemma endsWithSlash_without (x : string) :
  contains Path.slash x = false -> Path.endsWithSlash x = false.
Proof.
  induction x as [|c x IH]; [reflexivity|].
  cbn [contains]. intros H. apply orb_false_elim in H as [Hc Hx].
  cbn [Path.endsWithSlash]. destruct x; [exact Hc | now apply IH].
Qed.

Lemma join_not_empty_string (x : string) (xs : list string) :
  x <> "" -> Js.join "/" (x :: xs) <> "".
Proof.
  intros Hx. destruct xs as [|y ys]; [exact Hx|].
  change (Js.join "/" (x :: y :: ys)) with (x +++ "/" +++ Js.join "/" (y :: ys)).
  destruct x; [congruence | discriminate].
Qed.

(** A path of segments without slashes does not end with a slash. *)
Lemma endsWithSlash_join (xs : list string) :
  forallb (fun x => negb (String.eqb x "") && negb (contains Path.slash x)) xs
  = true ->
  Path.endsWithSlash (Js.join "/" xs) = false.
Proof.
  induction xs as [|x xs IH]; [reflexivity|].
  intros H. cbn [forallb] in H. apply andb_prop in H as [Hx Hxs].
  apply andb_prop in Hx as [Hne Hns]. apply negb_true_iff in Hns.
  destruct xs as [|y ys]; [now apply endsWithSlash_without|].
  change (Js.join "/" (x :: y :: ys))
    with (x +++ String Path.slash (Js.join "/" (y :: ys))).
  rewrite endsWithSlash_append by discriminate.
  cbn [Path.endsWithSlash].
  assert (Hy : y <> "").
  { cbn [forallb] in Hxs. apply andb_prop in Hxs as [Hy _].
    apply andb_prop in Hy as [Hy _]. apply negb_true_iff in Hy.
    now apply String.eqb_neq. }
  pose proof (join_not_empty_string y ys Hy) as Hj.
  destruct (Js.join "/" (y :: ys)) eqn:E; [congruence|].
  now apply IH.
Qed.

(** Normalizing an absolute path that does not end with a slash. *)
Lemma normalize_segments (p : string) (segs : list string) :
  Path.isAbsolute p = true ->
  Path.endsWithSlash p = false ->
  Path.segments false p = segs ->
  Path.normalize p = absoluteOf segs.
Proof.
  intros Ha He Hs. unfold Path.normalize, Path.normalizeString.
  destruct p as [|c t]; [discriminate|].
  rewrite Ha, He. cbn [negb]. rewrite Hs. unfold absoluteOf.
  now destruct (Js.join "/" segs).
Qed.

(** The helpers of the specification are inverse to each other on
    normalized absolute paths: joining the relative path of a binary
    against its working directory gives the binary. *)
Lemma join_relative (segsC segsB : list string) :
  forallb segmentOk segsC = true ->
  forallb segmentOk segsB = true ->
  Path.join (absoluteOf segsC)
    (Path.relative (absoluteOf segsC) (absoluteOf segsB))
  = absoluteOf segsB.
Proof.
  intros HC HB. unfold Path.relative.
  rewrite !segments_absolute by assumption.
  destruct (Path.dropCommon segsC segsB) as [f t] eqn:E.
  destruct (dropCommon_spec _ _ _ _ E) as [common [EC EB]].
  assert (Hparts : forallb segmentOk common = true
                   /\ forallb segmentOk f = true /\ forallb segmentOk t = true).
  { subst segsC segsB. rewrite !forallb_app in HC, HB.
    apply andb_prop in HC as [H1 H2]. apply andb_prop in HB as [_ H3]. tauto. }
  destruct Hparts as [Hcommon [Hf Ht]].
  set (rel := map (fun _ => "..") f ++ t).
  assert (Hrel : forallb (fun x => negb (String.eqb x "")
                                   && negb (contains Path.slash x)) rel = true).
  { unfold rel. rewrite forallb_app. apply andb_true_intro. split.
    - clear. induction f as [|x f IH]; [reflexivity|]. cbn [map forallb].
      now rewrite IH.
    - rewrite forallb_forall in *. intros x Hx. specialize (Ht x Hx).
      unfold segmentOk in Ht. apply andb_prop in Ht as [Ht _].
      now apply andb_prop in Ht as [Ht _]. }
  assert (Hsegs : forall q, Js.split Path.slash q = rel ->
            Path.segments false (absoluteOf segsC +++ String Path.slash q) = segsB).
  { intros q Hq. unfold Path.segments. rewrite split_at, fold_left_app.
    rewrite push_absolute by assumption. rewrite Hq. unfold rel.
    rewrite fold_left_app. rewrite EC, rev_app_distr.
    rewrite push_ups;
      [| rewrite forallb_forall in *; intros x Hx; apply Hf;
         now apply in_rev | now rewrite length_rev ].
    rewrite push_all_kept by assumption.
    rewrite rev_app_distr, !rev_involutive. now subst segsB. }
  unfold Path.join.
  change (absoluteOf segsC) with (String Path.slash (Js.join "/" segsC)) at 1.
  cbv iota beta.
  destruct rel as [|r0 rs] eqn:Erel.
  - (* the binary is the working directory *)
    cbn [Js.join concat].
    apply app_eq_nil in Erel as [Ef ->]. destruct f; [|discriminate].
    rewrite app_nil_r in EC, EB. subst common segsB.
    destruct segsC as [|x xs]; [reflexivity|].
    apply normalize_segments; [reflexivity| |now apply segments_absolute].
    unfold absoluteOf.
    rewrite endsWithSlash_append.
    + apply endsWithSlash_join. rewrite forallb_forall in *.
      intros y Hy. specialize (HC y Hy). unfold segmentOk in HC.
      apply andb_prop in HC as [HC _]. now apply andb_prop in HC as [HC _].
    + apply join_not_empty_string. cbn [forallb] in HC.
      apply andb_prop in HC as [HC _]. unfold segmentOk in HC.
      apply andb_prop in HC as [HC _]. apply andb_prop in HC as [HC _].
      apply andb_prop in HC as [HC _]. apply negb_true_iff in HC.
      now apply String.eqb_neq.
  - assert (Hr0 : r0 <> "").
    { cbn [forallb] in Hrel. apply andb_prop in Hrel as [H _].
      apply andb_prop in H as [H _]. apply negb_true_iff in H.
      now apply String.eqb_neq. }
    pose proof (join_not_empty_string r0 rs Hr0) as Hj.
    pose proof (endsWithSlash_join (r0 :: rs) Hrel) as Hends.
    assert (Hsplit : Js.split Path.slash (Js.join "/" (r0 :: rs)) = r0 :: rs).
    { change (Js.join "/" (r0 :: rs))
        with (Js.join (String Path.slash "") (r0 :: rs)).
      apply split_join_sep; [discriminate|].
      rewrite forallb_forall in *. intros x Hx. specialize (Hrel x Hx).
      now apply andb_prop in Hrel as [_ Hrel]. }
    destruct (Js.join "/" (r0 :: rs)) as [|c q]; [congruence|].
    change (String Path.slash (Js.join "/" segsC) +++ "/" +++ String c q)
      with (absoluteOf segsC +++ String Path.slash (String c q)).
    apply normalize_segments.
    + reflexivity.
    + rewrite endsWithSlash_append by discriminate. exact Hends.
    + now apply Hsegs.
Qed.

(** The relative path of a binary is made of [..] and of segments of the
    binary. *)
Lemma relative_pieces (segsC segsB : list string) :
  forallb segmentOk segsC = true ->
  forallb segmentOk segsB = true ->
  exists pieces,
    Path.relative (absoluteOf segsC) (absoluteOf segsB) = Js.join "/" pieces
    /\ forall x, In x pieces -> x = ".." \/ In x segsB.
Proof.
  intros HC HB. unfold Path.relative.
  rewrite !segments_absolute by assumption.
  destruct (Path.dropCommon segsC segsB) as [f t] eqn:E.
  destruct (dropCommon_spec _ _ _ _ E) as [common [EC EB]].
  exists (map (fun _ => "..") f ++ t). split; [reflexivity|].
  intros x Hx. apply in_app_or in Hx as [Hx|Hx].
  - left. apply in_map_iff in Hx as [y [Hy _]]. now symmetry.
  - right. subst segsB. apply in_or_app. now right.
Qed.

(** ** The launch-configuration codec *)

Section Codec.

Context {U : Util}.

(** What the regular expression finds in an encoded launch
    configuration. *)
Lemma exec_encoded (c rel : string) (xs : list string) :
  lineFree c = true -> lineFree rel = true -> forallb lineFree xs = true ->
  contains ">"%char rel = false ->
  forallb (fun x => negb (contains ">"%char x)) xs = true ->
  forallb (fun x => negb (contains "("%char x)) xs = true ->
  Js.exec launchRegexp (c +++ ">" +++ rel +++ "(" +++ Js.join "," xs +++ ")")
  = Some [c; rel; Js.join "," xs].
Proof.
  intros Hc Hrel Hxs Hgt Hxgt Hxparen.
  assert (Ha : lineFree (Js.join "," xs) = true) by now apply lineFree_join.
  assert (Hagt : contains ">"%char (Js.join "," xs) = false)
    by now apply contains_join.
  assert (Haparen : contains "("%char (Js.join "," xs) = false)
    by now apply contains_join.
  apply exec_here. unfold launchRegexp.
  apply match_group; [assumption| |].
  - rewrite !contains_append. simpl. now rewrite Hgt, Hagt.
  - apply match_group; [assumption| |].
    + rewrite contains_append. simpl. now rewrite Haparen.
    + apply match_group; [assumption|reflexivity|reflexivity].
Qed.

(** Decoding never gives an empty argument list: splitting always yields
    at least one piece. *)
Lemma decoded_arguments_not_empty (str : string) (r : LaunchConfiguration) :
  stringToLaunchConfiguration str = Some r -> args r <> [].
Proof.
  unfold stringToLaunchConfiguration.
  destruct (Js.exec launchRegexp str) as [[|m1 [|m2 [|m3 [|m4 ms]]]]|];
    try discriminate.
  intros [= <-]. apply split_not_nil.
Qed.

(** Hence a launch configuration without arguments is not what decoding
    its one-line form gives, whatever the path helpers do. *)
Lemma roundtrip_fails_without_arguments (r : LaunchConfiguration) :
  args r = [] ->
  stringToLaunchConfiguration (launchConfigurationToString r) <> Some r.
Proof.
  intros Hr H. now apply decoded_arguments_not_empty in H.
Qed.

(** Decoding the one-line form that is built from a working directory, a
    relative path and arguments, under the conditions that the matcher and
    the split need. *)
Lemma decode_encoded (c rel b : string) (xs : list string) :
  lineFree c = true -> lineFree rel = true -> forallb lineFree xs = true ->
  contains ">"%char rel = false ->
  forallb (fun x => negb (contains ">"%char x)) xs = true ->
  forallb (fun x => negb (contains "("%char x)) xs = true ->
  forallb (fun x => negb (contains ","%char x)) xs = true ->
  xs <> [] ->
  makeFullPath rel c = b ->
  stringToLaunchConfiguration
    (c +++ ">" +++ rel +++ "(" +++ Js.join "," xs +++ ")")
  = Some {| binary := b; cwd := c; args := xs |}.
Proof.
  intros Hc Hrel Hxs Hgt Hxgt Hxparen Hxcomma Hne Hfull.
  unfold stringToLaunchConfiguration.
  rewrite exec_encoded by assumption.
  now rewrite Hfull, split_join.
Qed.

(** C1, amended.  Decoding the one-line form of a launch configuration
    gives the configuration back when it has at least one argument, no
    field holds one of the characters [>], [(], [)], [,] or a line
    terminator, and the path helpers are inverse to each other on it:
    the relative form of the binary holds no reserved character or line
    terminator, and joining it against the working directory gives the
    binary. *)
Theorem launch_roundtrip (r : LaunchConfiguration) :
  plainRecord r = true ->
  oneLine r = true ->
  args r <> [] ->
  plain (makeRelPath (binary r) (cwd r)) = true ->
  lineFree (makeRelPath (binary r) (cwd r)) = true ->
  makeFullPath (makeRelPath (binary r) (cwd r)) (cwd r) = binary r ->
  stringToLaunchConfiguration (launchConfigurationToString r) = Some r.
Proof.
  destruct r as [b c xs]; cbn [binary cwd args].
  unfold plainRecord, oneLine; cbn [binary cwd args].
  intros Hplain Hline Hxs Hrel Hrelline Hfull.
  apply andb_prop in Hplain as [_ Hpx].
  apply andb_prop in Hline as [Hline Hlx].
  apply andb_prop in Hline as [Hlc _].
  assert (Hsub : forall ch, In ch reserved ->
            forallb (fun x => negb (contains ch x)) xs = true).
  { intros ch Hin. rewrite forallb_forall in *. intros x Hx.
    apply negb_true_iff.
    apply (avoids_contains reserved); [now apply Hpx | assumption]. }
  unfold launchConfigurationToString. cbn [binary cwd args].
  apply decode_encoded; try assumption.
  - apply (avoids_contains reserved); [assumption | simpl; tauto].
  - apply Hsub. simpl. tauto.
  - apply Hsub. simpl. tauto.
  - apply Hsub. simpl. tauto.
Qed.

End Codec.

(** The round trip with the path helpers of the specification: a launch
    configuration whose working directory and binary are normalized
    absolute paths, with at least one argument and without reserved
    characters and line terminators, is what decoding its one-line form
    gives. *)
Lemma launch_roundtrip_normal_paths (segsC segsB xs : list string) :
  forallb segmentOk segsC = true -> forallb segmentOk segsB = true ->
  forallb plain segsC = true -> forallb plain segsB = true ->
  forallb lineFree segsC = true -> forallb lineFree segsB = true ->
  forallb plain xs = true -> forallb lineFree xs = true -> xs <> [] ->
  let r := {| binary := absoluteOf segsB; cwd := absoluteOf segsC; args := xs |} in
  @stringToLaunchConfiguration specUtil (@launchConfigurationToString specUtil r)
  = Some r.
Proof.
  intros HC HB PC PB LC LB Pxs Lxs Hne. cbn zeta.
  unfold launchConfigurationToString. cbn [binary cwd args makeRelPath specUtil].
  destruct (relative_pieces segsC segsB HC HB) as [pieces [Erel Hpieces]].
  assert (Hsub : forall ch, In ch reserved ->
            forallb (fun x => negb (contains ch x)) xs = true).
  { intros ch Hin. rewrite forallb_forall in *. intros x Hx.
    apply negb_true_iff.
    apply (avoids_contains reserved); [now apply Pxs | assumption]. }
  apply (@decode_encoded specUtil); try assumption.
  - unfold absoluteOf. cbn [append lineFree].
    change (Js.join "/" segsC) with (Js.join (String Path.slash "") segsC).
    now rewrite lineFree_join_sep.
  - rewrite Erel.
    change (Js.join "/" pieces) with (Js.join (String Path.slash "") pieces).
    apply lineFree_join_sep; [reflexivity|].
    rewrite forallb_forall in *. intros x Hx.
    destruct (Hpieces x Hx) as [->|Hin]; [reflexivity | now apply LB].
  - rewrite Erel.
    change (Js.join "/" pieces) with (Js.join (String Path.slash "") pieces).
    apply contains_join_sep; [reflexivity|].
    rewrite forallb_forall in *. intros x Hx. apply negb_true_iff.
    destruct (Hpieces x Hx) as [->|Hin]; [reflexivity|].
    apply (avoids_contains reserved); [now apply PB | simpl; tauto].
  - apply Hsub. simpl. tauto.
  - apply Hsub. simpl. tauto.
  - apply Hsub. simpl. tauto.
  - cbn [makeFullPath specUtil]. now apply join_relative.
Qed.

Example launchApp_encoded :
  @launchConfigurationToString specUtil launchApp = "/proj>bin/app(-v,input.txt)".
Proof. reflexivity. Qed.

Lemma launch_roundtrip_witness :
  @stringToLaunchConfiguration specUtil
    (@launchConfigurationToString specUtil launchApp) = Some launchApp.
Proof.
  apply (@launch_roundtrip specUtil launchApp).
  - reflexivity.
  - reflexivity.
  - discriminate.
  - reflexivity.
  - reflexivity.
  - reflexivity.
Defined.

(** C1 as stated does not hold: an argument with a line break holds none of
    the four characters, and its one-line form does not decode at all. *)
Lemma launch_roundtrip_fails_on_line_break :
  let r := {| binary := "/proj/bin/app"; cwd := "/proj";
              args := ["first" +++ lineBreak +++ "second"] |} in
  plainRecord r = true
  /\ @stringToLaunchConfiguration specUtil (@launchConfigurationToString specUtil r)
     = None
  /\ @stringToLaunchConfiguration specUtil (@launchConfigurationToString specUtil r)
     <> Some r.
Proof. repeat split. vm_compute. discriminate. Qed.

(** Nor does it hold, with the path helpers of the specification, for a
    binary whose path is not normalized: the relative form forgets the
    [.] segment. *)
Lemma launch_roundtrip_fails_on_unnormalized_path :
  let r := {| binary := "/proj/./bin/app"; cwd := "/proj"; args := ["-v"] |} in
  plainRecord r = true
  /\ @stringToLaunchConfiguration specUtil (@launchConfigurationToString specUtil r)
     = Some {| binary := "/proj/bin/app"; cwd := "/proj"; args := ["-v"] |}
  /\ @stringToLaunchConfiguration specUtil (@launchConfigurationToString specUtil r)
     <> Some r.
Proof. repeat split. vm_compute. discriminate. Qed.

(** Nor does it hold for a launch configuration without arguments: the
    decoded configuration has one empty argument. *)
Lemma launch_roundtrip_fails_without_arguments :
  let r := {| binary := "/proj/bin/app"; cwd := "/proj"; args := [] |} in
  plainRecord r = true
  /\ @stringToLaunchConfiguration specUtil (@launchConfigurationToString specUtil r)
     = Some {| binary := "/proj/bin/app"; cwd := "/proj"; args := [""] |}
  /\ @stringToLaunchConfiguration specUtil (@launchConfigurationToString specUtil r)
     <> Some r.
Proof. repeat split. vm_compute. discriminate. Qed.

(** ** What a computation leaves alone *)

Lemma exec_bind {A B} (c : M A) (k : A -> M B) w s :
  exec (bind c k) w s = exec (k (eval c w s)) w (exec c w s).
Proof. unfold exec, eval, bind. now destruct (c w s). Qed.

Lemma eval_bind {A B} (c : M A) (k : A -> M B) w s :
  eval (bind c k) w s = eval (k (eval c w s)) w (exec c w s).
Proof. unfold exec, eval, bind. now destruct (c w s). Qed.

Lemma preserves_ret {A X} (f : State -> X) (a : A) : preserves f (ret a).
Proof. intros w s. reflexivity. Qed.

Lemma preserves_bind {A B X} (f : State -> X) (c : M A) (k : A -> M B) :
  preserves f c -> (forall a, preserves f (k a)) -> preserves f (bind c k).
Proof. intros Hc Hk w s. now rewrite exec_bind, Hk, Hc. Qed.

Lemma preserves_modify {X} (f : State -> X) (g : State -> State) :
  (forall s, f (g s) = f s) -> preserves f (modify g).
Proof. intros H w s. apply H. Qed.

Lemma preserves_world {X} (f : State -> X) : preserves f world.
Proof. intros w s. reflexivity. Qed.

Lemma preserves_getState {X} (f : State -> X) : preserves f getState.
Proof. intros w s. reflexivity. Qed.

Lemma preserves_allocate {X} (f : State -> X) lc :
  (forall n s, f (set_nextObject n s) = f s) -> preserves f (allocate lc).
Proof. intros H w s. apply H. Qed.

Lemma occurrences_app e (a b : list Event) :
  occurrences e (a ++ b) = occurrences e a + occurrences e b.
Proof. apply count_occ_app. Qed.

Lemma spawns_app (a b : list Event) : spawns (a ++ b) = spawns a + spawns b.
Proof. unfold spawns. now rewrite filter_app, length_app. Qed.

(** An event leaves the count of every other event. *)
Lemma preserves_occurrences_emit (e e' : Event) :
  e' <> e -> preserves (fun s => occurrences e (events s)) (emit e').
Proof.
  intros He w s.
  change (occurrences e (events s ++ [e']) = occurrences e (events s)).
  rewrite occurrences_app. unfold occurrences at 2. cbn [count_occ].
  destruct (Event_eq_dec e' e); [contradiction | lia].
Qed.

Lemma preserves_reparses_emit (e : Event) :
  e <> ParseBuildOrDryRun -> preserves (fun s => reparses (events s)) (emit e).
Proof. apply preserves_occurrences_emit. Qed.

Lemma preserves_spawns_emit (e : Event) :
  isSpawn e = false -> preserves (fun s => spawns (events s)) (emit e).
Proof.
  intros He w s.
  change (spawns (events s ++ [e]) = spawns (events s)).
  rewrite spawns_app. unfold spawns at 2. cbn [filter]. rewrite He.
  cbn. lia.
Qed.

(** The steps of a proof that a function leaves an observation alone: the
    function is taken apart along its binds and branches. *)
Ltac frame_step :=
  first
    [ apply preserves_ret
    | apply preserves_world
    | apply preserves_getState
    | apply preserves_bind; [ | intros ? ]
    | apply preserves_modify; intros; reflexivity
    | apply preserves_allocate; intros; reflexivity
    | apply preserves_reparses_emit; discriminate
    | apply preserves_spawns_emit; reflexivity
    | apply preserves_occurrences_emit;
      let H := fresh in intro H; cbn in H; discriminate H
    | match goal with
      | |- preserves _ (if ?b then _ else _) => destruct b
      | |- preserves _ (match ?x with _ => _ end) => destruct x
      end ].

Ltac frame := repeat frame_step.

Section Frames.

Context {U : Util} {P : Parser} {J : Json}.

(** The reads and the two resolution functions request no reparse. *)
Lemma reads_request_nothing :
  preserves (fun s => reparses (events s)) readCurrentMakeConfiguration
  /\ preserves (fun s => reparses (events s)) readCurrentTarget
  /\ preserves (fun s => reparses (events s)) readCurrentLaunchConfiguration
  /\ preserves (fun s => reparses (events s)) readBuildLog
  /\ preserves (fun s => reparses (events s)) readExtensionLog
  /\ preserves (fun s => reparses (events s)) readMakePath
  /\ (forall c, preserves (fun s => reparses (events s)) (getCommandForConfiguration c))
  /\ (forall c, preserves (fun s => reparses (events s)) (getBuildLogForConfiguration c)).
Proof.
  repeat split; intros;
    unfold readCurrentMakeConfiguration, readMakePath, readBuildLog,
      readExtensionLog, readCurrentTarget, readCurrentLaunchConfiguration,
      getLaunchConfigurationSetting, getCommandForConfiguration,
      getBuildLogForConfiguration, logger_message, skip; frame.
Qed.

End Frames.

(** ** The reconciliation guard *)

Section Guard.

Context {U : Util} {P : Parser} {J : Json}.

Lemma deliver_suppressed (n : Notification) (w : World) (s : State) :
  ignoreSettingsChanged s = true -> exec (deliver n) w s = s.
Proof.
  intros H. destruct n as [fileName|affects]; cbn [deliver].
  - unfold onDidSaveTextDocument, exec, bind, world, getState. cbn.
    rewrite H, andb_false_r. reflexivity.
  - unfold onDidChangeConfiguration, exec, bind, world, getState. cbn.
    rewrite H, andb_false_r. reflexivity.
Qed.

(** C9.  While [ignoreSettingsChanged] is true, no notification does
    anything: after every sequence of saved-document and settings-change
    notifications, in whatever workspaces they are delivered, the variables
    and the trace are what they were.  Nothing is re-read, no effective
    setting is recomputed, no reparse is requested. *)
Theorem suppressed_notifications_change_nothing
  (ns : list (World * Notification)) (s : State) :
  ignoreSettingsChanged s = true -> deliverAll ns s = s.
Proof.
  revert s. induction ns as [|[w n] ns IH]; intros s H; [reflexivity|].
  cbn [deliverAll]. rewrite deliver_suppressed by assumption. now apply IH.
Qed.

End Guard.

(** ** Resolution of the command *)

Section Command.

Context {U : Util} {P : Parser} {J : Json}.

Lemma getCommand_name w s configuration :
  configurationCommandName (exec (getCommandForConfiguration configuration) w s)
  = resolvedCommand (findConfiguration configuration (makeConfigurations s))
      (makePath s).
Proof.
  unfold getCommandForConfiguration, exec, bind, world, getState, modify,
    logger_message, emit, skip, ret.
  cbn [fst snd].
  repeat match goal with
    | |- context [if ?b then _ else _] => destruct b
  end; reflexivity.
Qed.

Lemma getCommand_args w s configuration :
  configurationCommandArgs (exec (getCommandForConfiguration configuration) w s)
  = resolvedArgs (findConfiguration configuration (makeConfigurations s)).
Proof.
  unfold getCommandForConfiguration, exec, bind, world, getState, modify,
    logger_message, emit, skip, ret.
  cbn [fst snd].
  repeat match goal with
    | |- context [if ?b then _ else _] => destruct b
  end; reflexivity.
Qed.

(** The priority between the two sources of a part of the command: the
    part the configuration supplies, or else the part the settings supply,
    or else the default. *)
Lemma firstOf_priority (fromConfiguration fromSettings : option string)
  (default : string) :
  (Js.truthy fromConfiguration = true ->
   Some (firstOf fromConfiguration fromSettings default) = fromConfiguration)
  /\ (Js.truthy fromConfiguration = false -> Js.truthy fromSettings = true ->
      Some (firstOf fromConfiguration fromSettings default) = fromSettings)
  /\ (Js.truthy fromConfiguration = false -> Js.truthy fromSettings = false ->
      firstOf fromConfiguration fromSettings default = default).
Proof.
  unfold firstOf, Js.orString.
  destruct fromConfiguration as [[|c t]|], fromSettings as [[|c' t']|];
    cbn; repeat split; intros; congruence.
Qed.

(** The first record with a name is the one that is found. *)
Lemma find_first (n : string) (before after : list MakeConfiguration)
  (k : MakeConfiguration) :
  name k = n ->
  forallb (fun k' => negb (String.eqb (name k') n)) before = true ->
  findConfiguration (Some n) (before ++ k :: after) = Some k.
Proof.
  intros Hk. cbn [findConfiguration].
  induction before as [|k' before IH]; cbn [app find forallb]; intros H.
  - now rewrite Hk, String.eqb_refl.
  - apply andb_prop in H as [H1 H2]. apply negb_true_iff in H1.
    rewrite H1. now apply IH.
Qed.

(** C4.  When no configuration record has the given name and no make path
    is set, the command is [make] and the argument list is empty; and the
    command is not the empty string, whatever the configurations, the
    settings and the name are. *)
Theorem default_command w s configuration :
  let s' := exec (getCommandForConfiguration configuration) w s in
  (findConfiguration configuration (makeConfigurations s) = None ->
   makePath s = None ->
   configurationCommandName s' = "make" /\ configurationCommandArgs s' = [])
  /\ configurationCommandName s' <> "".
Proof.
  cbn zeta. rewrite getCommand_name, getCommand_args. split.
  - intros -> ->. split; reflexivity.
  - apply join_not_empty.
Qed.

(** What the code computes: the command is the join of two parts of the
    parsed paths, each taken from the [commandName] of the first record
    with the name of the configuration, or else, when that record supplies
    none, from the make path of the settings, or else the default (no
    directory, [make]); the arguments are the [commandArgs] of the record,
    or none.  The priority between the two sources is as the source
    comments have it, and for a configuration set whose first record named
    [A] has the command [nmake] and the arguments [/f], [Foo], and the make
    path [/usr/bin/make], the command is [/usr/bin/nmake] with the
    arguments [/f], [Foo].  The part that is joined to the directory is
    the [name] of the parsed path, which is the file name short of its
    extension; what that does to a tool with an extension is shown
    below. *)
Lemma command_resolution w s configuration :
  let s' := exec (getCommandForConfiguration configuration) w s in
  let record := findConfiguration configuration (makeConfigurations s) in
  configurationCommandName s' = resolvedCommand record (makePath s)
  /\ configurationCommandArgs s' = resolvedArgs record
  /\ (forall before after,
        makeConfigurations s = before ++ configurationA :: after ->
        forallb (fun k => negb (String.eqb (name k) "A")) before = true ->
        configuration = Some "A" ->
        makePath s = Some "/usr/bin/make" ->
        configurationCommandName s' = "/usr/bin/nmake"
        /\ configurationCommandArgs s' = ["/f"; "Foo"]).
Proof.
  cbn zeta. rewrite getCommand_name, getCommand_args.
  split; [reflexivity|]. split; [reflexivity|].
  intros before after Hs Hb -> Hm. rewrite Hs, Hm.
  rewrite (find_first "A" before after configurationA eq_refl Hb).
  split; reflexivity.
Qed.

End Command.

Lemma default_command_witness :
  configurationCommandName
    (exec (getCommandForConfiguration (Some "Release")) emptyWorld
       (configured [configurationA] None)) = "make"
  /\ configurationCommandArgs
       (exec (getCommandForConfiguration (Some "Release")) emptyWorld
          (configured [configurationA] None)) = [].
Proof.
  apply (default_command emptyWorld (configured [configurationA] None)
           (Some "Release")); reflexivity.
Defined.

Lemma command_resolution_witness :
  configurationCommandName
    (exec (getCommandForConfiguration (Some "A")) emptyWorld
       (configured [configurationA] (Some "/usr/bin/make"))) = "/usr/bin/nmake"
  /\ configurationCommandArgs
       (exec (getCommandForConfiguration (Some "A")) emptyWorld
          (configured [configurationA] (Some "/usr/bin/make"))) = ["/f"; "Foo"].
Proof.
  apply (command_resolution emptyWorld
           (configured [configurationA] (Some "/usr/bin/make")) (Some "A"))
    with (before := []) (after := []); reflexivity.
Defined.

(** C3 at a run of the code: the only configuration record, named [A],
    has the command [/opt/gnu/gmake.exe], a full path as the declaration
    of [commandName] allows, and no make path is set.  The directory of
    the command is [/opt/gnu] and its base name is [gmake.exe], so the
    directory joined with the base name is the tool itself.  The code
    joins the directory with the [name] of the parsed path, which ends
    before the last dot: the command it resolves is [/opt/gnu/gmake], and
    that is the process [setNewTarget] then starts for its dry run.  A
    tool named [gmake-4.3] is resolved to [gmake-4] in the same way. *)
Theorem command_resolution_drops_extension :
  let s := configured [configurationExe] None in
  let s' := exec (getCommandForConfiguration (Some "A")) emptyWorld s in
  Path.dir (Path.parse "/opt/gnu/gmake.exe") = "/opt/gnu"
  /\ Path.base (Path.parse "/opt/gnu/gmake.exe") = "gmake.exe"
  /\ resolvedCommandSpec (Some configurationExe) None = "/opt/gnu/gmake.exe"
  /\ configurationCommandName s' = "/opt/gnu/gmake"
  /\ configurationCommandName s'
     <> resolvedCommandSpec (findConfiguration (Some "A") (makeConfigurations s))
          (makePath s)
  /\ In (SpawnChildProcess "/opt/gnu/gmake" ["all"; "--dry-run"; "-p"] "/proj")
        (added (@setNewTarget lineParser) emptyWorld s')
  /\ configurationCommandName
       (exec (getCommandForConfiguration (Some "A")) emptyWorld
          (configured [configurationVersioned] None)) = "gmake-4".
Proof.
  cbv zeta. split; [reflexivity|]. split; [reflexivity|].
  split; [reflexivity|]. split; [reflexivity|].
  split; [vm_compute; discriminate|].
  split; [|vm_compute; reflexivity].
  vm_compute. right. left. reflexivity.
Qed.

(** ** Resolution of the build log *)

Section BuildLog.

Context {U : Util} {P : Parser} {J : Json}.

Lemma getBuildLog_result w s configuration :
  configurationBuildLog (exec (getBuildLogForConfiguration configuration) w s)
  = match recordBuildLog (findConfiguration configuration (makeConfigurations s)) with
    | Some (String c t) => Some (resolvedPath w (String c t))
    | _ => buildLog s
    end.
Proof.
  unfold getBuildLogForConfiguration, exec, bind, world, getState,
    logger_message, emit, modify, skip, ret, recordBuildLog, resolvedPath.
  cbn [fst snd].
  destruct (findConfiguration configuration (makeConfigurations s)) as [k|];
    [|reflexivity].
  destruct (mc_buildLog k) as [[|c t]|]; try reflexivity.
  cbn [configurationBuildLog set_configurationBuildLog set_events negb].
  destruct (Path.isAbsolute (String c t));
    cbn [configurationBuildLog set_configurationBuildLog set_events negb
         fst snd];
    repeat match goal with
      | |- context [if ?b then _ else _] => destruct b
    end; reflexivity.
Qed.

(** C7.  The build log of the configuration record, when the record
    supplies one, is the effective build log whatever the build log of the
    settings is; a relative one is joined against the root folder, which
    makes it absolute when the root folder is, and [logs/build.log] under
    the root folder [/proj] becomes [/proj/logs/build.log].  When the
    record supplies none, the effective build log is the one of the
    settings, and it is absent when that is absent too. *)
Theorem build_log_resolution w s configuration :
  let s' := exec (getBuildLogForConfiguration configuration) w s in
  let fromRecord :=
    recordBuildLog (findConfiguration configuration (makeConfigurations s)) in
  (forall b, fromRecord = Some b -> b <> "" ->
     configurationBuildLog s' = Some (resolvedPath w b)
     /\ (Path.isAbsolute b = false ->
         resolvedPath w b = Path.join (rootOrEmpty w) b)
     /\ (Path.isAbsolute (rootOrEmpty w) = true ->
         Path.isAbsolute (resolvedPath w b) = true))
  /\ (fromRecord = Some "logs/build.log" -> rootPath w = Some "/proj" ->
      configurationBuildLog s' = Some "/proj/logs/build.log")
  /\ (Js.truthy fromRecord = false -> configurationBuildLog s' = buildLog s)
  /\ (fromRecord = None -> buildLog s = None -> configurationBuildLog s' = None).
Proof.
  cbn zeta. rewrite getBuildLog_result.
  split; [|split; [|split]].
  - intros b Hb Hne. split; [|split].
    + destruct b as [|c t]; [congruence|]. now rewrite Hb.
    + intros Hrel. unfold resolvedPath. now rewrite Hrel.
    + intros Hroot. unfold resolvedPath.
      destruct (Path.isAbsolute b) eqn:E; [assumption|].
      now apply join_absolute.
  - intros -> Hroot. unfold resolvedPath, rootOrEmpty. rewrite Hroot. reflexivity.
  - intros H.
    destruct (recordBuildLog _) as [[|c t]|]; try reflexivity. discriminate.
  - intros -> ->. reflexivity.
Qed.

End BuildLog.

Lemma build_log_resolution_witness :
  configurationBuildLog
    (exec (getBuildLogForConfiguration (Some "A")) emptyWorld
       (set_buildLog (Some "/var/log/make.log")
          (configured [configurationLog] None)))
  = Some "/proj/logs/build.log"
  /\ configurationBuildLog
       (exec (getBuildLogForConfiguration (Some "A")) emptyWorld
          (set_buildLog (Some "/var/log/make.log")
             (configured [configurationA] None)))
     = Some "/var/log/make.log"
  /\ configurationBuildLog
       (exec (getBuildLogForConfiguration (Some "A")) emptyWorld
          (configured [configurationA] None))
     = None.
Proof.
  split; [|split].
  - apply (proj1 (build_log_resolution emptyWorld
                    (set_buildLog (Some "/var/log/make.log")
                       (configured [configurationLog] None)) (Some "A"))
             "logs/build.log"); [reflexivity | discriminate].
  - apply (build_log_resolution emptyWorld
             (set_buildLog (Some "/var/log/make.log")
                (configured [configurationA] None)) (Some "A")).
    reflexivity.
  - apply (build_log_resolution emptyWorld
             (configured [configurationA] None) (Some "A")); reflexivity.
Defined.

(** ** Loading the configurations *)

Section Load.

Context {U : Util} {P : Parser} {J : Json}.

(** Without the file, the configurations in memory stay what they were and
    one message is logged. *)
Lemma load_without_file w s :
  files w (configurationsJsonPath w) = None ->
  exec readMakeConfigurations w s
  = set_events (events s ++ [LogMessage notFoundMessage]) s.
Proof.
  intros H. unfold readMakeConfigurations, exec, bind, world, checkFileExistsSync.
  cbn. rewrite H. reflexivity.
Qed.

(** With a file that does not parse, the configurations in memory stay what
    they were and an error is shown to the user. *)
Lemma load_malformed_file w s text :
  files w (configurationsJsonPath w) = Some text ->
  JSON_parse text = None ->
  exec readMakeConfigurations w s
  = set_events (events s ++ [LogMessage readingMessage;
                             ShowErrorMessage "Failed to parse make_configurations.json"])
      s.
Proof.
  intros H Hp. unfold readMakeConfigurations, exec, bind, world, checkFileExistsSync.
  cbn. rewrite H. cbn. rewrite Hp. cbn. rewrite <- app_assoc. reflexivity.
Qed.

(** With a file that parses, the configurations in memory are those of the
    file. *)
Lemma load_file w s text configurations :
  files w (configurationsJsonPath w) = Some text ->
  JSON_parse text = Some configurations ->
  makeConfigurations (exec readMakeConfigurations w s) = configurations.
Proof.
  intros H Hp. unfold readMakeConfigurations, exec, bind, world, checkFileExistsSync.
  cbn. rewrite H. cbn. rewrite Hp. reflexivity.
Qed.

End Load.

(** C8 at a run of the code: the configurations are loaded from the file,
    the file is removed, and the configurations are loaded again.  The
    second load logs that the file is not found and shows no error, but the
    configurations in memory are still those of the removed file, not the
    empty set. *)
Theorem removed_file_leaves_configurations :
  let loaded := exec (@initFromSettings specUtil tinyJson) worldWithA initialState in
  let reloaded := exec (@readMakeConfigurations tinyJson) emptyWorld loaded in
  files emptyWorld (configurationsJsonPath emptyWorld) = None
  /\ makeConfigurations loaded = [configurationA]
  /\ added (@readMakeConfigurations tinyJson) emptyWorld loaded
     = [LogMessage notFoundMessage]
  /\ makeConfigurations reloaded = [configurationA]
  /\ makeConfigurations reloaded <> [].
Proof. repeat split; try reflexivity. vm_compute. discriminate. Qed.

(** ** Sorting *)

Lemma leb_false_le (a b : string) : String.leb a b = false -> leString b a.
Proof.
  intros H. destruct (String.leb_total a b) as [H'|H']; [congruence | exact H'].
Qed.

Lemma insert_permutation x xs : Permutation (Js.insert x xs) (x :: xs).
Proof.
  induction xs as [|y ys IH]; cbn [Js.insert]; [reflexivity|].
  destruct (String.leb x y); [reflexivity|].
  rewrite IH. apply perm_swap.
Qed.

Lemma sort_permutation xs : Permutation (Js.sort xs) xs.
Proof.
  induction xs as [|x xs IH]; cbn [Js.sort]; [reflexivity|].
  rewrite insert_permutation. now constructor.
Qed.

Lemma insert_sorted x xs :
  LocallySorted leString xs -> LocallySorted leString (Js.insert x xs).
Proof.
  induction 1 as [|y|y z zs Hs IH Hyz]; cbn [Js.insert].
  - constructor.
  - destruct (String.leb x y) eqn:E.
    + constructor; [constructor | exact E].
    + constructor; [constructor | now apply leb_false_le].
  - destruct (String.leb x y) eqn:E.
    + constructor; [constructor; assumption | exact E].
    + cbn [Js.insert] in IH. destruct (String.leb x z) eqn:E'.
      * constructor; [exact IH | now apply leb_false_le].
      * constructor; [exact IH | exact Hyz].
Qed.

Lemma sort_sorted xs : LocallySorted leString (Js.sort xs).
Proof.
  induction xs as [|x xs IH]; cbn [Js.sort]; [constructor|].
  now apply insert_sorted.
Qed.

(** ** Target discovery *)

Section Targets.

Context {U : Util} {P : Parser} {J : Json}.

Lemma parseTargetsFromBuildLog_log w s c t :
  buildLogContent w s = Some (String c t) ->
  eval parseTargetsFromBuildLog w s = Some (Js.sort (parseTargets (String c t))).
Proof.
  intros H. unfold parseTargetsFromBuildLog, eval, bind, world, getState.
  cbn. rewrite H. reflexivity.
Qed.

Lemma parseTargetsFromBuildLog_spawns :
  preserves (fun s => spawns (events s)) parseTargetsFromBuildLog.
Proof. unfold parseTargetsFromBuildLog, logger_message. frame. Qed.

Lemma selectTarget_spawns targets :
  preserves (fun s => spawns (events s)) (selectTarget targets).
Proof.
  unfold selectTarget, setTargetByName, make_parseBuildOrDryRun, logger_message,
    skip.
  frame.
Qed.

(** C6, amended.  When the build log of the configuration can be read and
    is not empty, target discovery gives the target names that the parser
    finds in it, in lexicographic order and as often as the parser returns
    them, and starts no process: it removes no duplicate, so the targets
    are free of duplicates exactly when those of the parser are, and for
    the parsed targets [all], [clean], [clean] the result is [all],
    [clean], [clean]. *)
Theorem targets_from_build_log w s text :
  buildLogContent w s = Some text -> text <> "" ->
  let targets := Js.sort (parseTargets text) in
  eval parseTargetsFromBuildLog w s = Some targets
  /\ LocallySorted leString targets
  /\ Permutation targets (parseTargets text)
  /\ (NoDup targets <-> NoDup (parseTargets text))
  /\ (parseTargets text = ["all"; "clean"; "clean"] ->
      targets = ["all"; "clean"; "clean"])
  /\ spawns (events (exec setNewTarget w s)) = spawns (events s).
Proof.
  intros H Hne. destruct text as [|c t]; [congruence|]. cbn zeta.
  split; [now apply parseTargetsFromBuildLog_log|].
  split; [apply sort_sorted|].
  split; [apply sort_permutation|].
  split.
  { split; intros Hnd; eapply Permutation_NoDup; try exact Hnd.
    - apply sort_permutation.
    - symmetry. apply sort_permutation. }
  split; [intros ->; reflexivity|].
  unfold setNewTarget. rewrite exec_bind.
  rewrite (parseTargetsFromBuildLog_log w s c t H).
  rewrite (selectTarget_spawns _ w _).
  apply parseTargetsFromBuildLog_spawns.
Qed.

End Targets.

Lemma targets_from_build_log_witness :
  @eval _ (@parseTargetsFromBuildLog lineParser) worldWithLog stateWithLog
  = Some ["all"; "clean"; "clean"].
Proof.
  apply (@targets_from_build_log lineParser worldWithLog stateWithLog
           ("all" +++ lineBreak +++ "clean" +++ lineBreak +++ "clean")).
  - reflexivity.
  - discriminate.
Defined.

(** C6 as stated does not hold: the parser finds the target lines [all],
    [clean], [clean] in the build log, and target discovery gives the three
    of them, not [all], [clean]. *)
Lemma targets_keep_duplicates :
  @parseTargets lineParser ("all" +++ lineBreak +++ "clean" +++ lineBreak +++ "clean")
  = ["all"; "clean"; "clean"]
  /\ @eval _ (@parseTargetsFromBuildLog lineParser) worldWithLog stateWithLog
     <> Some ["all"; "clean"].
Proof. split; [reflexivity|]. vm_compute. discriminate. Qed.

(** ** The settings-change listener *)

Section Listener.

Context {U : Util} {P : Parser} {J : Json}.

Ltac listener :=
  unfold checkBuildConfiguration, checkTarget, checkLaunchConfiguration,
    checkBuildLog, checkExtensionLog, checkMakePath,
    readCurrentMakeConfiguration, readMakePath, readBuildLog,
    readLoggingLevel, readExtensionLog, readCurrentTarget,
    readCurrentLaunchConfiguration, getLaunchConfigurationSetting,
    readMakeConfigurations, getCommandForConfiguration,
    getBuildLogForConfiguration, logger_message, skip.

Ltac framed := intros; listener; frame.

Lemma eval_checkBuildConfiguration w s :
  eval checkBuildConfiguration w s
  = buildConfigurationChanged (Settings.buildConfiguration (settings w))
      (currentMakeConfiguration s).
Proof.
  unfold checkBuildConfiguration, eval, bind, world, getState. cbn.
  destruct (buildConfigurationChanged _ _); [|reflexivity].
  unfold logger_message, emit, modify, readCurrentMakeConfiguration, bind, world.
  cbn. destruct (Settings.buildConfiguration (settings w)) as [[|c t]|];
    reflexivity.
Qed.

Lemma eval_checkTarget w s :
  eval checkTarget w s
  = targetChanged (Settings.buildTarget (settings w)) (currentTarget s).
Proof.
  unfold checkTarget, eval, bind, world, getState. cbn.
  destruct (targetChanged _ _); [|reflexivity].
  unfold logger_message, emit, modify, readCurrentTarget, bind, world.
  cbn. destruct (Settings.buildTarget (settings w)) as [[|c t]|]; reflexivity.
Qed.

Lemma eval_checkBuildLog w s :
  eval checkBuildLog w s
  = settingChanged (Settings.buildLog (settings w)) (buildLog s).
Proof.
  unfold checkBuildLog. rewrite !eval_bind. cbn [eval world getState fst].
  change (exec world w s) with s. change (exec getState w s) with s.
  destruct (settingChanged _ _); [|reflexivity].
  now rewrite !eval_bind.
Qed.

Lemma eval_checkMakePath w s :
  eval checkMakePath w s
  = settingChanged (Settings.makePath (settings w)) (makePath s).
Proof.
  unfold checkMakePath. rewrite !eval_bind. cbn [eval world getState fst].
  change (exec world w s) with s. change (exec getState w s) with s.
  destruct (settingChanged _ _); [|reflexivity].
  now rewrite !eval_bind.
Qed.

Lemma target_untouched :
  preserves currentTarget (logger_message "Detected a change in settings")
  /\ preserves currentTarget checkBuildConfiguration.
Proof. split; framed. Qed.

Lemma buildLog_untouched :
  preserves buildLog (logger_message "Detected a change in settings")
  /\ preserves buildLog checkBuildConfiguration
  /\ preserves buildLog checkTarget
  /\ preserves buildLog checkLaunchConfiguration.
Proof. repeat split; framed. Qed.

Lemma makePath_untouched :
  preserves makePath (logger_message "Detected a change in settings")
  /\ preserves makePath checkBuildConfiguration
  /\ preserves makePath checkTarget
  /\ preserves makePath checkLaunchConfiguration
  /\ preserves makePath checkBuildLog
  /\ preserves makePath checkExtensionLog.
Proof. repeat split; framed. Qed.

(** The final value of [updateConfigProvider]: one of the configuration,
    the target, the build log and the make path of the store differs from
    the variable it is compared with.  The launch configuration and the
    extension log have no part in it. *)
Lemma compareSettings_flag w s :
  eval compareSettings w s
  = buildConfigurationChanged (Settings.buildConfiguration (settings w))
      (currentMakeConfiguration s)
    || targetChanged (Settings.buildTarget (settings w)) (currentTarget s)
    || settingChanged (Settings.buildLog (settings w)) (buildLog s)
    || settingChanged (Settings.makePath (settings w)) (makePath s).
Proof.
  unfold compareSettings. rewrite !eval_bind. cbn [eval ret fst].
  rewrite eval_checkBuildConfiguration, eval_checkTarget, eval_checkBuildLog,
    eval_checkMakePath.
  destruct target_untouched as [T0 T1].
  destruct buildLog_untouched as [B0 [B1 [B2 B3]]].
  destruct makePath_untouched as [M0 [M1 [M2 [M3 [M4 M5]]]]].
  rewrite M5, M4, M3, M2, M1, M0.
  rewrite B3, B2, B1, B0.
  rewrite T1, T0.
  reflexivity.
Qed.

Lemma compareSettings_requests_nothing :
  preserves (fun s => reparses (events s)) compareSettings.
Proof. unfold compareSettings. framed. Qed.

Lemma resolution_requests_nothing configuration :
  preserves (fun s => reparses (events s)) (getCommandForConfiguration configuration)
  /\ preserves (fun s => reparses (events s))
       (getBuildLogForConfiguration configuration).
Proof. split; framed. Qed.

(** What the listener does when its condition holds. *)
Lemma listener_open w s :
  workspaceFolders w = true -> ignoreSettingsChanged s = false ->
  exec (onDidChangeConfiguration true) w s
  = if eval compareSettings w s then
      exec (logger_message "Some of the changes detected in settings are triggering udpates" ;;
            s' <- getState ;;
            getCommandForConfiguration (Some (currentMakeConfiguration s')) ;;
            getBuildLogForConfiguration (Some (currentMakeConfiguration s')) ;;
            make_parseBuildOrDryRun) w (exec compareSettings w s)
    else exec compareSettings w s.
Proof.
  intros Hw Hs. unfold onDidChangeConfiguration.
  do 2 rewrite exec_bind. cbn [eval world getState fst].
  change (exec world w s) with s. change (exec getState w s) with s.
  rewrite Hw, Hs. cbn [andb negb]. rewrite exec_bind.
  destruct (eval compareSettings w s); reflexivity.
Qed.

(** One notification requests the reparse once when the flag is set, and
    not at all when it is not. *)
Lemma notification_reparses w s :
  workspaceFolders w = true -> ignoreSettingsChanged s = false ->
  reparses (events (exec (onDidChangeConfiguration true) w s))
  = reparses (events s) + (if eval compareSettings w s then 1 else 0).
Proof.
  intros Hw Hs. rewrite listener_open by assumption.
  destruct (eval compareSettings w s).
  - rewrite !exec_bind.
    change (reparses (events (exec make_parseBuildOrDryRun w ?x)))
      with (reparses (events x ++ [ParseBuildOrDryRun])).
    rewrite (occurrences_app ParseBuildOrDryRun).
    destruct (resolution_requests_nothing
                (Some (currentMakeConfiguration
                   (eval getState w
                      (exec (logger_message "Some of the changes detected in settings are triggering udpates")
                         w (exec compareSettings w s)))))) as [R1 R2].
    unfold reparses in *. rewrite R2, R1.
    change (exec getState w ?x) with x.
    change (occurrences ParseBuildOrDryRun
              (events (exec (logger_message ?m) w ?x)))
      with (occurrences ParseBuildOrDryRun (events x ++ [LogMessage m])).
    rewrite occurrences_app. cbn [occurrences count_occ].
    pose proof (compareSettings_requests_nothing w s) as C. unfold reparses in C.
    rewrite C. cbn. lia.
  - rewrite (compareSettings_requests_nothing w s). lia.
Qed.

Lemma exec_compareSettings w s :
  exec compareSettings w s
  = exec checkMakePath w
      (exec checkExtensionLog w
         (exec checkBuildLog w
            (exec checkLaunchConfiguration w
               (exec checkTarget w
                  (exec checkBuildConfiguration w
                     (exec (logger_message "Detected a change in settings") w s)))))).
Proof. unfold compareSettings. now rewrite !exec_bind. Qed.

(** The steps before the comparison of the launch configuration leave the
    launch configuration in memory, the heap and the number of times its
    change has been logged. *)
Lemma before_launch_check :
  (preserves currentLaunchConfiguration (logger_message "Detected a change in settings")
   /\ preserves currentLaunchConfiguration checkBuildConfiguration
   /\ preserves currentLaunchConfiguration checkTarget)
  /\ (preserves nextObject (logger_message "Detected a change in settings")
      /\ preserves nextObject checkBuildConfiguration
      /\ preserves nextObject checkTarget)
  /\ (preserves (fun s => launchChanges (events s))
        (logger_message "Detected a change in settings")
      /\ preserves (fun s => launchChanges (events s))
           checkBuildConfiguration
      /\ preserves (fun s => launchChanges (events s))
           checkTarget).
Proof. unfold launchChanges. repeat split; framed. Qed.

(** So do the steps after it. *)
Lemma after_launch_check :
  (preserves currentLaunchConfiguration checkBuildLog
   /\ preserves currentLaunchConfiguration checkExtensionLog
   /\ preserves currentLaunchConfiguration checkMakePath)
  /\ (preserves nextObject checkBuildLog
      /\ preserves nextObject checkExtensionLog
      /\ preserves nextObject checkMakePath)
  /\ (preserves (fun s => launchChanges (events s)) checkBuildLog
      /\ preserves (fun s => launchChanges (events s))
           checkExtensionLog
      /\ preserves (fun s => launchChanges (events s))
           checkMakePath).
Proof. unfold launchChanges. repeat split; framed. Qed.

End Listener.

Section LaunchCheck.

Context {U : Util} {P : Parser} {J : Json}.

(** The comparison of the launch configuration when the store holds one
    and the memory holds an object that was made before: the fetched value
    is a new object, the comparison reports a change, and the launch
    configuration is read again into another new object. *)
Lemma checkLaunch_rereads w s lc o :
  Settings.launchConfiguration (settings w) = Some lc ->
  currentLaunchConfiguration s = Some o ->
  objectId o < nextObject s ->
  let s' := exec checkLaunchConfiguration w s in
  currentLaunchConfiguration s'
  = Some {| objectId := S (nextObject s); content := lc |}
  /\ nextObject s' = S (S (nextObject s))
  /\ launchChanges (events s') = S (launchChanges (events s)).
Proof.
  intros Hlc Hcur Hlt. cbn zeta.
  unfold checkLaunchConfiguration, getLaunchConfigurationSetting,
    readCurrentLaunchConfiguration, getLaunchConfigurationSetting,
    exec, bind, world, getState, allocate, logger_message, emit, modify, ret.
  cbn [fst snd]. rewrite Hlc. cbn [fst snd currentLaunchConfiguration
    set_nextObject nextObject]. rewrite Hcur.
  unfold launchConfigurationChanged. cbn [ofObject objectId strictEquals].
  assert (E : Nat.eqb (nextObject s) (objectId o) = false)
    by (apply Nat.eqb_neq; lia).
  rewrite E. cbn [negb fst snd]. rewrite Hlc.
  cbn [fst snd currentLaunchConfiguration set_currentLaunchConfiguration
       set_events set_nextObject nextObject events].
  repeat split.
  unfold launchChanges. rewrite !occurrences_app.
  cbn. lia.
Qed.

End LaunchCheck.

Section Reread.

Context {U : Util} {P : Parser} {J : Json}.

Lemma listener_steps w s :
  workspaceFolders w = true -> ignoreSettingsChanged s = false ->
  exec (onDidChangeConfiguration true) w s
  = if eval compareSettings w s
    then exec triggerUpdates w (exec compareSettings w s)
    else exec compareSettings w s.
Proof. apply listener_open. Qed.

Lemma triggerUpdates_frame :
  preserves currentLaunchConfiguration triggerUpdates
  /\ preserves nextObject triggerUpdates
  /\ preserves (fun s => launchChanges (events s)) triggerUpdates.
Proof.
  unfold launchChanges, triggerUpdates, getCommandForConfiguration,
    getBuildLogForConfiguration, make_parseBuildOrDryRun, logger_message, skip.
  repeat split; frame.
Qed.

(** The comparisons of one notification, when the store holds a launch
    configuration and the memory holds an older object. *)
Lemma compareSettings_rereads w s lc o :
  Settings.launchConfiguration (settings w) = Some lc ->
  currentLaunchConfiguration s = Some o ->
  objectId o < nextObject s ->
  let s' := exec compareSettings w s in
  currentLaunchConfiguration s'
  = Some {| objectId := S (nextObject s); content := lc |}
  /\ nextObject s' = S (S (nextObject s))
  /\ launchChanges (events s') = S (launchChanges (events s)).
Proof.
  intros Hlc Hcur Hlt. cbn zeta. rewrite exec_compareSettings.
  destruct before_launch_check as [[L0 [L1 L2]] [[N0 [N1 N2]] [C0 [C1 C2]]]].
  destruct after_launch_check as [[L4 [L5 L6]] [[N4 [N5 N6]] [C4 [C5 C6]]]].
  set (pre := exec checkTarget w
                (exec checkBuildConfiguration w
                   (exec (logger_message "Detected a change in settings") w s))).
  assert (Hpre : currentLaunchConfiguration pre = Some o)
    by (unfold pre; now rewrite L2, L1, L0).
  assert (Npre : nextObject pre = nextObject s)
    by (unfold pre; now rewrite N2, N1, N0).
  assert (Cpre : launchChanges (events pre) = launchChanges (events s))
    by (unfold pre; now rewrite C2, C1, C0).
  destruct (checkLaunch_rereads w pre lc o Hlc Hpre) as [A [B C]]; [lia|].
  rewrite L6, L5, L4, N6, N5, N4, C6, C5, C4.
  rewrite A, B, C, Npre, Cpre. repeat split.
Qed.

(** One notification in such a state. *)
Lemma launch_reread_step w s lc o :
  workspaceFolders w = true -> ignoreSettingsChanged s = false ->
  Settings.launchConfiguration (settings w) = Some lc ->
  currentLaunchConfiguration s = Some o ->
  objectId o < nextObject s ->
  let s' := exec (onDidChangeConfiguration true) w s in
  launchChanges (events s') = S (launchChanges (events s))
  /\ (exists o', currentLaunchConfiguration s' = Some o'
                 /\ objectId o' < nextObject s'
                 /\ ignoreSettingsChanged s' = false).
Proof.
  intros Hw Hs Hlc Hcur Hlt. cbn zeta.
  assert (G : ignoreSettingsChanged (exec (onDidChangeConfiguration true) w s)
              = false).
  { rewrite <- Hs. generalize w s. change (preserves ignoreSettingsChanged
      (onDidChangeConfiguration true)).
    unfold onDidChangeConfiguration, compareSettings,
      checkBuildConfiguration, checkTarget, checkLaunchConfiguration,
      checkBuildLog, checkExtensionLog, checkMakePath,
      readCurrentMakeConfiguration, readMakePath, readBuildLog,
      readExtensionLog, readCurrentTarget, readCurrentLaunchConfiguration,
      getLaunchConfigurationSetting, getCommandForConfiguration,
      getBuildLogForConfiguration, make_parseBuildOrDryRun, logger_message, skip.
    frame. }
  rewrite listener_steps in * by assumption.
  destruct (compareSettings_rereads w s lc o Hlc Hcur Hlt) as [A [B C]].
  destruct triggerUpdates_frame as [T1 [T2 T3]].
  destruct (eval compareSettings w s).
  - rewrite T1, T2, T3, A, B, C. split; [reflexivity|].
    eexists. split; [reflexivity|]. cbn. split; [lia | exact G].
  - rewrite A, B, C. split; [reflexivity|].
    eexists. split; [reflexivity|]. cbn. split; [lia | exact G].
Qed.

(** C10.  In the settings-change listener the launch configuration of the
    store meets the object in memory under strict equality.  A string is
    never strictly equal to an object, and the value that is fetched is
    never the object in memory; so when the store holds a launch
    configuration and the memory holds one, the comparison reports a
    change, the change is logged once, and the launch configuration is
    read again from the store into a new object.  The state after the
    notification is of the same kind, so this happens on every such
    notification. *)
Theorem launch_configuration_reread w s lc o :
  workspaceFolders w = true -> ignoreSettingsChanged s = false ->
  Settings.launchConfiguration (settings w) = Some lc ->
  currentLaunchConfiguration s = Some o ->
  objectId o < nextObject s ->
  let s' := exec (onDidChangeConfiguration true) w s in
  (forall str, strictEquals (JsString str) (ofObject (Some o)) = false)
  /\ launchConfigurationChanged
       (eval getLaunchConfigurationSetting w s) (Some o) = true
  /\ launchChanges (events s') = S (launchChanges (events s))
  /\ (exists o', currentLaunchConfiguration s' = Some o'
                 /\ content o' = lc
                 /\ objectId o' <> objectId o
                 /\ objectId o' < nextObject s').
Proof.
  intros Hw Hs Hlc Hcur Hlt. cbn zeta.
  split; [reflexivity|]. split.
  { unfold getLaunchConfigurationSetting, eval, bind, world. cbn.
    rewrite Hlc. cbn. unfold launchConfigurationChanged. cbn.
    apply negb_true_iff, Nat.eqb_neq. lia. }
  rewrite listener_steps by assumption.
  destruct (compareSettings_rereads w s lc o Hlc Hcur Hlt) as [A [B C]].
  destruct triggerUpdates_frame as [T1 [T2 T3]].
  destruct (eval compareSettings w s).
  - rewrite T1, T2, T3, A, B, C. split; [reflexivity|].
    eexists. split; [reflexivity|]. cbn. repeat split; lia.
  - rewrite A, B, C. split; [reflexivity|].
    eexists. split; [reflexivity|]. cbn. repeat split; lia.
Qed.

(** On every notification of a sequence, as long as the store holds a
    launch configuration and the listener is open: the change of the
    launch configuration is logged as often as there are notifications. *)
Lemma launch_configuration_reread_every_time
  (ws : list World) (s : State) (o : LaunchObject) :
  Forall (fun w => workspaceFolders w = true
                   /\ Settings.launchConfiguration (settings w) <> None) ws ->
  ignoreSettingsChanged s = false ->
  currentLaunchConfiguration s = Some o ->
  objectId o < nextObject s ->
  launchChanges
    (events (deliverAll (map (fun w => (w, ConfigurationChanged true)) ws) s))
  = length ws + launchChanges (events s).
Proof.
  intros Hws. revert s o.
  induction Hws as [|w ws [Hw Hlc] _ IH]; intros s o Hs Hcur Hlt; [reflexivity|].
  cbn [map deliverAll deliver length].
  destruct (Settings.launchConfiguration (settings w)) as [lc|] eqn:E;
    [|congruence].
  destruct (launch_reread_step w s lc o Hw Hs E Hcur Hlt) as [C [o' [Ho' [Hlt' Hg]]]].
  rewrite (IH _ o' Hg Ho' Hlt'). rewrite C. lia.
Qed.

End Reread.

(** ** Which changes request a reparse *)

Section Reparse.

Context {U : Util} {P : Parser} {J : Json}.

(** The flag does not depend on the launch configuration or on the
    extension log, and it is set as soon as one of the four other settings
    differs from its variable; the reparse is then requested once, however
    many of the four differ. *)
Lemma reparse_once w s :
  workspaceFolders w = true -> ignoreSettingsChanged s = false ->
  eval compareSettings w s = reparseDue w s
  /\ reparses (events (exec (onDidChangeConfiguration true) w s))
     = reparses (events s) + (if reparseDue w s then 1 else 0).
Proof.
  intros Hw Hs. split; [apply compareSettings_flag|].
  rewrite notification_reparses by assumption.
  now rewrite compareSettings_flag.
Qed.

End Reparse.

(** C5 at a run of the code: the extension is initialised in a workspace
    whose build log setting is relative, then the user changes the
    extension log and nothing else.  The variable of the build log holds
    the resolved path, the comparison with the unresolved setting reports
    a change, the flag is set and the reparse is requested. *)
Theorem extension_log_change_requests_reparse :
  let s := exec (@initFromSettings specUtil tinyJson) (withStore storeRelativeLog)
             initialState in
  let w := withStore storeRelativeLogEdited in
  buildLog s = Some "/proj/build.log"
  /\ Settings.buildLog (settings w) = Some "build.log"
  /\ eval (@compareSettings specUtil) w s = true
  /\ reparses (events (exec (@onDidChangeConfiguration specUtil true) w s))
     = reparses (events s) + 1.
Proof. repeat split. Qed.

(** ** Settings writes and their notification *)

Lemma writesNothing_ret {A} (a : A) : writesNothing (ret a).
Proof. intros w s. exists []. now rewrite app_nil_r. Qed.

Lemma writesNothing_world : writesNothing world.
Proof. intros w s. exists []. now rewrite app_nil_r. Qed.

Lemma writesNothing_getState : writesNothing getState.
Proof. intros w s. exists []. now rewrite app_nil_r. Qed.

Lemma writesNothing_modify (g : State -> State) :
  (forall s, events (g s) = events s) -> writesNothing (modify g).
Proof.
  intros H w s. exists []. rewrite app_nil_r. split; [apply H | reflexivity].
Qed.

Lemma writesNothing_emit (e : Event) : isWrite e = false -> writesNothing (emit e).
Proof. intros H w s. exists [e]. split; [reflexivity|]. cbn. now rewrite H. Qed.

Lemma writesNothing_bind {A B} (c : M A) (k : A -> M B) :
  writesNothing c -> (forall a, writesNothing (k a)) -> writesNothing (bind c k).
Proof.
  intros Hc Hk w s. rewrite exec_bind.
  destruct (Hc w s) as [es1 [E1 Q1]].
  destruct (Hk (eval c w s) w (exec c w s)) as [es2 [E2 Q2]].
  exists (es1 ++ es2). rewrite E2, E1, app_assoc. split; [reflexivity|].
  rewrite forallb_app. now rewrite Q1, Q2.
Qed.

Ltac quiet_step :=
  first
    [ apply writesNothing_ret
    | apply writesNothing_world
    | apply writesNothing_getState
    | apply writesNothing_bind; [ | intros ? ]
    | apply writesNothing_emit; reflexivity
    | apply writesNothing_modify; intros; reflexivity
    | match goal with
      | |- writesNothing (if ?b then _ else _) => destruct b
      | |- writesNothing (match ?x with _ => _ end) => destruct x
      end ].

Ltac quiet := repeat quiet_step.

Lemma added_app {A} (c : M A) w s es :
  events (exec c w s) = events s ++ es -> added c w s = es.
Proof.
  intros H. unfold added. rewrite H, skipn_app, skipn_all, Nat.sub_diag.
  reflexivity.
Qed.

Lemma commit_app (a b : list Event) (t : Settings.t) :
  commit (a ++ b) t = commit b (commit a t).
Proof.
  revert t. induction a as [|e a IH]; intros t; [reflexivity|].
  destruct e; cbn [app commit]; apply IH.
Qed.

Lemma commit_nothing (es : list Event) (t : Settings.t) :
  forallb (fun e => negb (isWrite e)) es = true -> commit es t = t.
Proof.
  revert t. induction es as [|e es IH]; intros t H; [reflexivity|].
  cbn [forallb] in H. apply andb_prop in H as [He Hes].
  destruct e; cbn [commit]; try (now apply IH). discriminate.
Qed.

(** One write between steps that write nothing: the store takes the one
    write. *)
Lemma commit_one_write {A B} (pre : M B) (key : string) (value : SettingValue)
  (rest : M A) (op : M A) w s t :
  (forall w s, exec op w s
     = exec rest w (exec (emit (SettingsUpdate key value)) w (exec pre w s))) ->
  writesNothing pre ->
  writesNothing rest ->
  commit (added op w s) t = updateSetting key value t.
Proof.
  intros Hop Hpre Hrest.
  destruct (Hpre w s) as [es1 [E1 Q1]].
  destruct (Hrest w (exec (emit (SettingsUpdate key value)) w (exec pre w s)))
    as [es2 [E2 Q2]].
  rewrite (added_app op w s (es1 ++ SettingsUpdate key value :: es2)).
  - rewrite commit_app. cbn [commit].
    now rewrite (commit_nothing es1), (commit_nothing es2).
  - rewrite Hop, E2.
    change (events (exec (emit (SettingsUpdate key value)) w (exec pre w s)))
      with (events (exec pre w s) ++ [SettingsUpdate key value]).
    rewrite E1, <- !app_assoc. reflexivity.
Qed.

Section SelfWrites.

Context {U : Util} {P : Parser} {J : Json}.

(** The store after [setConfigurationByName]. *)
Lemma store_after_setConfigurationByName n w s t :
  commit (added (setConfigurationByName n) w s) t
  = updateSetting "buildConfiguration" (VString n) t.
Proof.
  apply (commit_one_write (modify (set_currentMakeConfiguration n)) _ _
           (setCurrentMakeConfiguration n ;; make_parseBuildOrDryRun)).
  - intros w' s'. unfold setConfigurationByName. now rewrite !exec_bind.
  - quiet.
  - unfold setCurrentMakeConfiguration, getCommandForConfiguration,
      getBuildLogForConfiguration, make_parseBuildOrDryRun, logger_message, skip.
    quiet.
Qed.

(** The store after [setTargetByName]. *)
Lemma store_after_setTargetByName target w s t :
  commit (added (setTargetByName target) w s) t
  = updateSetting "buildTarget" (VString target) t.
Proof.
  apply (commit_one_write
           (modify (set_currentTarget (Some target)) ;;
            emit (StatusSetTarget target) ;;
            logger_message ("Setting target " +++ target)) _ _
           make_parseBuildOrDryRun).
  - intros w' s'. unfold setTargetByName. now rewrite !exec_bind.
  - unfold logger_message. quiet.
  - unfold make_parseBuildOrDryRun. quiet.
Qed.

(** The store after [setLaunchConfigurationByName]. *)
Lemma store_after_setLaunchConfigurationByName l w s t :
  commit (added (setLaunchConfigurationByName l) w s) t
  = updateSetting "launchConfiguration" (launchValue l) t.
Proof.
  unfold launchValue, setLaunchConfigurationByName.
  destruct (stringToLaunchConfiguration l) as [lc|].
  - apply (commit_one_write
             (emit (StatusSetLaunchConfiguration l) ;;
              o <- allocate lc ;;
              modify (set_currentLaunchConfiguration (Some o)) ;;
              logger_message ("Setting launch target " +++ dq +++ l +++ dq))
             _ _ (ret tt)).
    + intros w' s'. now rewrite !exec_bind.
    + unfold logger_message.
      apply writesNothing_bind; [quiet|intros ?].
      apply writesNothing_bind; [|intros ?; quiet].
      intros w' s'. exists []. now rewrite app_nil_r.
    + quiet.
  - apply (commit_one_write
             (emit (StatusSetLaunchConfiguration l) ;;
              modify (set_currentLaunchConfiguration None) ;;
              logger_message ("Setting launch target " +++ dq +++ l +++ dq))
             _ _ (ret tt)).
    + intros w' s'. now rewrite !exec_bind.
    + unfold logger_message. quiet.
    + quiet.
Qed.

Lemma listener_closed w s :
  workspaceFolders w && negb (ignoreSettingsChanged s) = false ->
  exec (onDidChangeConfiguration true) w s = s.
Proof.
  intros H. unfold onDidChangeConfiguration, exec, bind, world, getState. cbn.
  rewrite H. reflexivity.
Qed.

(** The comparisons start with one log line that no other step writes. *)
Lemma compareSettings_detects w s :
  detections (events (exec compareSettings w s)) = S (detections (events s)).
Proof.
  rewrite exec_compareSettings.
  assert (F : preserves (fun s => detections (events s)) checkBuildConfiguration
              /\ preserves (fun s => detections (events s)) checkTarget
              /\ preserves (fun s => detections (events s)) checkLaunchConfiguration
              /\ preserves (fun s => detections (events s)) checkBuildLog
              /\ preserves (fun s => detections (events s)) checkExtensionLog
              /\ preserves (fun s => detections (events s)) checkMakePath).
  { unfold detections, checkBuildConfiguration, checkTarget,
      checkLaunchConfiguration, checkBuildLog, checkExtensionLog, checkMakePath,
      readCurrentMakeConfiguration, readMakePath, readBuildLog,
      readExtensionLog, readCurrentTarget, readCurrentLaunchConfiguration,
      getLaunchConfigurationSetting, logger_message, skip.
    repeat split; frame. }
  destruct F as [F1 [F2 [F3 [F4 [F5 F6]]]]].
  rewrite F6, F5, F4, F3, F2, F1.
  change (events (exec (logger_message "Detected a change in settings") w s))
    with (events s ++ [LogMessage "Detected a change in settings"]).
  unfold detections. rewrite occurrences_app. cbn. lia.
Qed.

Lemma triggerUpdates_detects_nothing :
  preserves (fun s => detections (events s)) triggerUpdates.
Proof.
  unfold detections, triggerUpdates, getCommandForConfiguration,
    getBuildLogForConfiguration, make_parseBuildOrDryRun, logger_message, skip.
  frame.
Qed.

(** An open listener starts its comparisons. *)
Lemma listener_detects w s :
  workspaceFolders w = true -> ignoreSettingsChanged s = false ->
  detections (events (exec (onDidChangeConfiguration true) w s))
  = S (detections (events s)).
Proof.
  intros Hw Hs. rewrite listener_open by assumption.
  fold triggerUpdates.
  destruct (eval compareSettings w s).
  - rewrite (triggerUpdates_detects_nothing w). apply compareSettings_detects.
  - apply compareSettings_detects.
Qed.

(** A notification requests no reparse when none is due. *)
Lemma listener_requests_nothing w s :
  reparseDue w s = false ->
  reparses (events (exec (onDidChangeConfiguration true) w s))
  = reparses (events s).
Proof.
  intros H.
  destruct (workspaceFolders w && negb (ignoreSettingsChanged s)) eqn:G.
  - apply andb_prop in G as [Hw Hs]. apply negb_true_iff in Hs.
    destruct (reparse_once w s Hw Hs) as [_ R]. rewrite R, H. lia.
  - now rewrite listener_closed.
Qed.

Lemma setCurrentMakeConfiguration_frame configuration :
  preserves currentTarget (setCurrentMakeConfiguration configuration)
  /\ preserves buildLog (setCurrentMakeConfiguration configuration)
  /\ preserves makePath (setCurrentMakeConfiguration configuration)
  /\ preserves ignoreSettingsChanged (setCurrentMakeConfiguration configuration).
Proof.
  unfold setCurrentMakeConfiguration, getCommandForConfiguration,
    getBuildLogForConfiguration, logger_message, skip.
  repeat split; frame.
Qed.

Lemma setCurrentMakeConfiguration_sets configuration w s :
  currentMakeConfiguration (exec (setCurrentMakeConfiguration configuration) w s)
  = configuration.
Proof.
  unfold setCurrentMakeConfiguration. rewrite exec_bind.
  assert (F : forall a : unit, preserves currentMakeConfiguration
                (s0 <- getState ;;
                 emit (StatusSetConfiguration (currentMakeConfiguration s0)) ;;
                 logger_message ("Setting configuration - "
                                 +++ currentMakeConfiguration s0) ;;
                 getCommandForConfiguration (Some (currentMakeConfiguration s0)) ;;
                 getBuildLogForConfiguration (Some (currentMakeConfiguration s0)))).
  { intros _. unfold getCommandForConfiguration, getBuildLogForConfiguration,
      logger_message, skip. frame. }
  now rewrite (F tt).
Qed.

(** The state after [setConfigurationByName]. *)
Lemma state_after_setConfigurationByName n w s :
  let s1 := exec (setConfigurationByName n) w s in
  currentMakeConfiguration s1 = n
  /\ currentTarget s1 = currentTarget s
  /\ buildLog s1 = buildLog s
  /\ makePath s1 = makePath s
  /\ ignoreSettingsChanged s1 = ignoreSettingsChanged s.
Proof.
  cbn zeta. split.
  - unfold setConfigurationByName. rewrite !exec_bind.
    assert (F : preserves currentMakeConfiguration make_parseBuildOrDryRun)
      by (unfold make_parseBuildOrDryRun; frame).
    rewrite F. apply setCurrentMakeConfiguration_sets.
  - assert (F : preserves currentTarget (setConfigurationByName n)
                /\ preserves buildLog (setConfigurationByName n)
                /\ preserves makePath (setConfigurationByName n)
                /\ preserves ignoreSettingsChanged (setConfigurationByName n)).
    { unfold setConfigurationByName, setCurrentMakeConfiguration,
        getCommandForConfiguration, getBuildLogForConfiguration,
        make_parseBuildOrDryRun, logger_message, skip.
      repeat split; frame. }
    destruct F as [F1 [F2 [F3 F4]]].
    now rewrite F1, F2, F3, F4.
Qed.

(** The state after [setTargetByName]. *)
Lemma state_after_setTargetByName target w s :
  let s1 := exec (setTargetByName target) w s in
  currentMakeConfiguration s1 = currentMakeConfiguration s
  /\ currentTarget s1 = Some target
  /\ buildLog s1 = buildLog s
  /\ makePath s1 = makePath s
  /\ ignoreSettingsChanged s1 = ignoreSettingsChanged s.
Proof. repeat split. Qed.

(** The state after [setLaunchConfigurationByName]. *)
Lemma state_after_setLaunchConfigurationByName l w s :
  let s1 := exec (setLaunchConfigurationByName l) w s in
  currentMakeConfiguration s1 = currentMakeConfiguration s
  /\ currentTarget s1 = currentTarget s
  /\ buildLog s1 = buildLog s
  /\ makePath s1 = makePath s
  /\ ignoreSettingsChanged s1 = ignoreSettingsChanged s.
Proof.
  cbn zeta. unfold setLaunchConfigurationByName, exec, bind, emit, modify.
  cbn [fst snd]. destruct (stringToLaunchConfiguration l); repeat split.
Qed.

Lemma quietlyNotified_intro (op : M unit) w s :
  ignoreSettingsChanged (exec op w s) = ignoreSettingsChanged s ->
  reparseDue (withSettings (commit (added op w s) (settings w)) w) (exec op w s)
  = false ->
  quietlyNotified op w s.
Proof.
  intros Hg Hdue. unfold quietlyNotified, thenNotified.
  split; [exact Hg|]. split.
  - now apply listener_requests_nothing.
  - intros Hw Hs. apply listener_detects; [exact Hw | now rewrite Hg].
Qed.

(** C2, amended.  No function of the file takes the guard for its write to
    the settings store: [setConfigurationByName], [setTargetByName] and
    [setLaunchConfigurationByName] leave [ignoreSettingsChanged] as it is,
    and when the listener is open the notification of the write does start
    the comparisons of the reconciliation step.  What keeps the step from
    requesting a reparse is that the memory holds the written value when
    the notification arrives: if none of the configuration, the target,
    the build log and the make path of the store differs from its variable
    before the write, the notification of the write requests no
    reparse. *)
Theorem self_writes_request_no_reparse w s :
  reparseDue w s = false ->
  (forall n, quietlyNotified (setConfigurationByName n) w s)
  /\ (forall target, quietlyNotified (setTargetByName target) w s)
  /\ (forall l, quietlyNotified (setLaunchConfigurationByName l) w s).
Proof.
  unfold reparseDue. intros H.
  apply orb_false_elim in H as [H H4].
  apply orb_false_elim in H as [H H3].
  apply orb_false_elim in H as [H1 H2].
  split; [|split].
  - intros n.
    destruct (state_after_setConfigurationByName n w s) as [A [B [C [D E]]]].
    apply quietlyNotified_intro; [exact E|].
    rewrite store_after_setConfigurationByName. unfold reparseDue.
    rewrite A, B, C, D.
    cbn [settings withSettings updateSetting String.eqb Ascii.eqb Bool.eqb
         Settings.buildConfiguration Settings.buildTarget Settings.buildLog
         Settings.makePath].
    rewrite H2, H3, H4.
    unfold buildConfigurationChanged. cbn [ofString strictEquals].
    now rewrite String.eqb_refl.
  - intros target.
    destruct (state_after_setTargetByName target w s) as [A [B [C [D E]]]].
    apply quietlyNotified_intro; [exact E|].
    rewrite store_after_setTargetByName. unfold reparseDue.
    rewrite A, B, C, D.
    cbn [settings withSettings updateSetting String.eqb Ascii.eqb Bool.eqb
         Settings.buildConfiguration Settings.buildTarget Settings.buildLog
         Settings.makePath].
    rewrite H1, H3, H4.
    unfold targetChanged. cbn [ofString strictEquals].
    now rewrite String.eqb_refl.
  - intros l.
    destruct (state_after_setLaunchConfigurationByName l w s)
      as [A [B [C [D E]]]].
    apply quietlyNotified_intro; [exact E|].
    rewrite store_after_setLaunchConfigurationByName. unfold reparseDue.
    rewrite A, B, C, D.
    cbn [settings withSettings updateSetting String.eqb Ascii.eqb Bool.eqb
         Settings.buildConfiguration Settings.buildTarget Settings.buildLog
         Settings.makePath].
    now rewrite H1, H2, H3, H4.
Qed.

(** The guard is switched by [startListeningToSettingsChanged] and
    [stopListeningToSettingsChanged] and by nothing else: every other entry
    point leaves it as it is. *)
Lemma guard_only_switched (c : Command) :
  c <> StartListening -> c <> StopListening ->
  preserves ignoreSettingsChanged (run c).
Proof.
  intros H1 H2.
  destruct c as [|[fileName|affects]| | |n|t|l| | |]; cbn [run deliver];
    try congruence;
    unfold initFromSettings, onDidSaveTextDocument, onDidChangeConfiguration,
      compareSettings, checkBuildConfiguration, checkTarget,
      checkLaunchConfiguration, checkBuildLog, checkExtensionLog, checkMakePath,
      setNewConfiguration, prepareConfigurationsQuickPick, setNewTarget,
      setNewLaunchConfiguration, parseTargetsFromBuildLog,
      parseLaunchConfigurationsFromBuildLog, parseLaunchConfigurations,
      selectTarget, selectLaunchConfiguration, setConfigurationByName,
      setTargetByName, setLaunchConfigurationByName, setCurrentMakeConfiguration,
      readCurrentMakeConfigurationCommand, readLoggingLevel, readExtensionLog,
      readMakePath, readBuildLog, readCurrentMakeConfiguration,
      readCurrentTarget, readCurrentLaunchConfiguration,
      getLaunchConfigurationSetting, readMakeConfigurations,
      getCommandForConfiguration, getBuildLogForConfiguration,
      make_parseBuildOrDryRun, logger_message, skip;
    frame.
Qed.

End SelfWrites.

(** ** The heap *)

Lemma keeps_ret {A} (I : State -> Prop) (a : A) : keeps I (ret a).
Proof. intros w s H. exact H. Qed.

Lemma keeps_bind {A B} (I : State -> Prop) (c : M A) (k : A -> M B) :
  keeps I c -> (forall a, keeps I (k a)) -> keeps I (bind c k).
Proof. intros Hc Hk w s H. rewrite exec_bind. now apply Hk, Hc. Qed.

Lemma keeps_heap_modify (g : State -> State) :
  (forall s, currentLaunchConfiguration (g s) = currentLaunchConfiguration s) ->
  (forall s, nextObject (g s) = nextObject s) ->
  keeps heapOrdered (modify g).
Proof.
  intros H1 H2 w s H. unfold heapOrdered, exec, modify in *. cbn.
  now rewrite H1, H2.
Qed.

Lemma keeps_heap_world : keeps heapOrdered world.
Proof. intros w s H. exact H. Qed.

Lemma keeps_heap_getState : keeps heapOrdered getState.
Proof. intros w s H. exact H. Qed.

Lemma keeps_heap_allocate lc : keeps heapOrdered (allocate lc).
Proof.
  intros w s H. unfold heapOrdered, exec, allocate in *. cbn.
  destruct (currentLaunchConfiguration s); [lia | exact I].
Qed.

Section Heap.

Context {U : Util} {P : Parser} {J : Json}.

Lemma keeps_heap_read : keeps heapOrdered readCurrentLaunchConfiguration.
Proof.
  intros w s H.
  unfold heapOrdered, readCurrentLaunchConfiguration,
    getLaunchConfigurationSetting, exec, bind, world, allocate, modify, emit, ret.
  cbn. destruct (Settings.launchConfiguration (settings w)); cbn; [lia | exact I].
Qed.

Lemma keeps_heap_setLaunch l : keeps heapOrdered (setLaunchConfigurationByName l).
Proof.
  intros w s H.
  unfold heapOrdered, setLaunchConfigurationByName, exec, bind, allocate,
    modify, logger_message, emit.
  cbn. destruct (stringToLaunchConfiguration l); cbn; [lia | exact I].
Qed.

Ltac heap_step :=
  lazymatch goal with
  | |- keeps _ (ret _) => apply keeps_ret
  | |- keeps _ world => apply keeps_heap_world
  | |- keeps _ getState => apply keeps_heap_getState
  | |- keeps _ skip => apply keeps_ret
  | |- keeps _ readCurrentLaunchConfiguration => apply keeps_heap_read
  | |- keeps _ (setLaunchConfigurationByName _) => apply keeps_heap_setLaunch
  | |- keeps _ (allocate _) => apply keeps_heap_allocate
  | |- keeps _ (bind _ _) => apply keeps_bind; [ | intros ? ]
  | |- keeps _ (modify _) => apply keeps_heap_modify; intros; reflexivity
  | |- keeps _ (emit _) => apply keeps_heap_modify; intros; reflexivity
  | |- keeps _ (logger_message _) => apply keeps_heap_modify; intros; reflexivity
  | |- keeps _ make_parseBuildOrDryRun =>
      apply keeps_heap_modify; intros; reflexivity
  | |- keeps _ (if ?b then _ else _) => destruct b
  | |- keeps _ (match ?x with _ => _ end) => destruct x
  end.

Ltac heap := repeat heap_step.

Lemma keeps_heap_readMakeConfigurations : keeps heapOrdered readMakeConfigurations.
Proof. unfold readMakeConfigurations. heap. Qed.

Lemma keeps_heap_getCommand c : keeps heapOrdered (getCommandForConfiguration c).
Proof. unfold getCommandForConfiguration. heap. Qed.

Lemma keeps_heap_getBuildLog c : keeps heapOrdered (getBuildLogForConfiguration c).
Proof. unfold getBuildLogForConfiguration. heap. Qed.

Ltac heap_known :=
  lazymatch goal with
  | |- keeps _ readMakeConfigurations => apply keeps_heap_readMakeConfigurations
  | |- keeps _ (getCommandForConfiguration _) => apply keeps_heap_getCommand
  | |- keeps _ (getBuildLogForConfiguration _) => apply keeps_heap_getBuildLog
  end.

Lemma keeps_heap_setConfigurationByName n :
  keeps heapOrdered (setConfigurationByName n).
Proof.
  unfold setConfigurationByName, setCurrentMakeConfiguration.
  repeat first [ heap_known | heap_step ].
Qed.

Lemma keeps_heap_setTargetByName t : keeps heapOrdered (setTargetByName t).
Proof. unfold setTargetByName. heap. Qed.

Lemma keeps_heap_selectTarget targets : keeps heapOrdered (selectTarget targets).
Proof.
  unfold selectTarget.
  repeat first [ apply keeps_heap_setTargetByName | heap_step ].
Qed.

Lemma keeps_heap_selectLaunch names :
  keeps heapOrdered (selectLaunchConfiguration names).
Proof. unfold selectLaunchConfiguration. heap. Qed.

Lemma keeps_heap_parseLaunch source :
  keeps heapOrdered (parseLaunchConfigurations source).
Proof. unfold parseLaunchConfigurations. heap. Qed.

Ltac heap_commands :=
  lazymatch goal with
  | |- keeps _ (setConfigurationByName _) => apply keeps_heap_setConfigurationByName
  | |- keeps _ (setTargetByName _) => apply keeps_heap_setTargetByName
  | |- keeps _ (selectTarget _) => apply keeps_heap_selectTarget
  | |- keeps _ (selectLaunchConfiguration _) => apply keeps_heap_selectLaunch
  | |- keeps _ (parseLaunchConfigurations _) => apply keeps_heap_parseLaunch
  end.

Ltac heap_all := repeat first [ heap_known | heap_commands | heap_step ].

(** Every entry point maintains the order of the heap. *)
Lemma keeps_heap_run (c : Command) : keeps heapOrdered (run c).
Proof.
  destruct c as [|[fileName|affects]| | |n|t|l| | |]; cbn [run deliver].
  - unfold initFromSettings, readLoggingLevel, readExtensionLog, readMakePath,
      readBuildLog, readCurrentMakeConfiguration,
      readCurrentMakeConfigurationCommand, readCurrentTarget.
    heap_all.
  - unfold onDidSaveTextDocument, readCurrentMakeConfigurationCommand.
    heap_all.
  - unfold onDidChangeConfiguration, compareSettings, checkBuildConfiguration,
      checkTarget, checkLaunchConfiguration, checkBuildLog, checkExtensionLog,
      checkMakePath, getLaunchConfigurationSetting, readCurrentMakeConfiguration,
      readMakePath, readBuildLog, readExtensionLog, readCurrentTarget.
    heap_all.
  - unfold startListeningToSettingsChanged. heap.
  - unfold stopListeningToSettingsChanged. heap.
  - apply keeps_heap_setConfigurationByName.
  - apply keeps_heap_setTargetByName.
  - apply keeps_heap_setLaunch.
  - unfold setNewConfiguration, prepareConfigurationsQuickPick. heap_all.
  - unfold setNewTarget, parseTargetsFromBuildLog. heap_all.
  - unfold setNewLaunchConfiguration, parseLaunchConfigurationsFromBuildLog.
    heap_all.
Qed.

(** The heap is ordered in every state that the entry points reach from
    the initial one. *)
Lemma reachable_heapOrdered (cs : list (World * Command)) :
  heapOrdered (runAll cs initialState).
Proof.
  assert (G : forall s, heapOrdered s -> heapOrdered (runAll cs s)).
  { induction cs as [|[w c] cs IH]; intros s H; [exact H|].
    cbn [runAll]. apply IH. now apply keeps_heap_run. }
  apply G. exact I.
Qed.

End Heap.

(** ** Runs of the code *)

Example started_defaults :
  currentMakeConfiguration started = "Default"
  /\ currentTarget started = Some ""
  /\ configurationCommandName started = "make"
  /\ configurationCommandArgs started = []
  /\ configurationBuildLog started = None
  /\ ignoreSettingsChanged started = false.
Proof. repeat split. Qed.

Lemma self_writes_request_no_reparse_witness :
  @quietlyNotified specUtil (setConfigurationByName "A") emptyWorld started
  /\ @quietlyNotified specUtil (setTargetByName "all") emptyWorld started
  /\ @quietlyNotified specUtil
       (@setLaunchConfigurationByName specUtil "/proj>bin/app(-v)")
       emptyWorld started.
Proof.
  pose proof (@self_writes_request_no_reparse specUtil emptyWorld started eq_refl)
    as [H1 [H2 H3]].
  split; [apply H1 | split; [apply H2 | apply H3]].
Defined.

(** C2 as stated does not hold: [setConfigurationByName] writes the
    configuration to the store while the guard is off, the guard is still
    off when the function returns, and the notification of the write
    starts the comparisons of the reconciliation step. *)
Lemma self_write_is_not_guarded :
  let '(w1, s1, s2) :=
    @thenNotified specUtil (setConfigurationByName "A") emptyWorld started in
  ignoreSettingsChanged started = false
  /\ In (SettingsUpdate "buildConfiguration" (VString "A"))
        (added (setConfigurationByName "A") emptyWorld started)
  /\ Settings.buildConfiguration (settings w1) = Some "A"
  /\ ignoreSettingsChanged s1 = false
  /\ detections (events s2) = S (detections (events s1)).
Proof.
  vm_compute. repeat split. left. reflexivity.
Qed.

(** With a build log setting that is relative to the root folder, the
    notification of a write requests a second reparse, after the one the
    writing function has requested itself. *)
Lemma self_write_reparses_twice_with_relative_log :
  let s := exec (@initFromSettings specUtil tinyJson) (withStore storeRelativeLog)
             initialState in
  let '(w1, s1, s2) :=
    @thenNotified specUtil (setTargetByName "all") (withStore storeRelativeLog) s in
  reparses (events s1) = reparses (events s) + 1
  /\ reparses (events s2) = reparses (events s1) + 1.
Proof. vm_compute. split; reflexivity. Qed.

Lemma suppressed_notifications_change_nothing_witness :
  @deliverAll specUtil tinyJson
    [(worldWithA, DocumentSaved "/proj/.vscode/make_configurations.json");
     (withStore storeRelativeLogEdited, ConfigurationChanged true)]
    suppressed
  = suppressed.
Proof.
  apply (@suppressed_notifications_change_nothing specUtil tinyJson).
  reflexivity.
Defined.

(** The same two notifications reach an open listener. *)
Example open_listener_reacts :
  @deliverAll specUtil tinyJson
    [(worldWithA, DocumentSaved "/proj/.vscode/make_configurations.json");
     (withStore storeRelativeLogEdited, ConfigurationChanged true)]
    started
  <> started.
Proof. vm_compute. discriminate. Qed.

Lemma launch_configuration_reread_witness :
  launchChanges
    (events (exec (@onDidChangeConfiguration specUtil true)
               (withStore storeWithLaunch) startedWithLaunch))
  = S (launchChanges (events startedWithLaunch)).
Proof.
  apply (@launch_configuration_reread specUtil (withStore storeWithLaunch)
           startedWithLaunch launchApp
           {| objectId := 0; content := launchApp |}).
  - reflexivity.
  - reflexivity.
  - reflexivity.
  - reflexivity.
  - cbn. lia.
Defined.

(** * Further properties *)

(** ** The order of strings *)

Lemma ascii_compare_lt_trans (a b c : ascii) :
  Ascii.compare a b = Lt -> Ascii.compare b c = Lt -> Ascii.compare a c = Lt.
Proof.
  unfold Ascii.compare. rewrite !N.compare_lt_iff. apply N.lt_trans.
Qed.

Lemma string_compare_trans (a b c : string) :
  String.compare a b <> Gt -> String.compare b c <> Gt -> String.compare a c <> Gt.
Proof.
  revert b c. induction a as [|x a IH]; intros [|y b] [|z c]; cbn; try congruence.
  destruct (Ascii.compare x y) eqn:Exy; try congruence.
  - apply Ascii.compare_eq_iff in Exy. subst y.
    destruct (Ascii.compare x z) eqn:Exz; try congruence. apply IH.
  - destruct (Ascii.compare y z) eqn:Eyz; try congruence.
    + apply Ascii.compare_eq_iff in Eyz. subst z. rewrite Exy. congruence.
    + rewrite (ascii_compare_lt_trans x y z Exy Eyz). congruence.
Qed.

Lemma leString_trans (a b c : string) : leString a b -> leString b c -> leString a c.
Proof.
  unfold leString, String.leb. intros H1 H2.
  pose proof (string_compare_trans a b c) as T.
  destruct (String.compare a b); destruct (String.compare b c);
    destruct (String.compare a c); try reflexivity; try discriminate;
    exfalso; apply T; congruence.
Qed.

(** ** The first occurrence of an element *)

Lemma indexOf_nth (x : string) (xs : list string) (i : nat) :
  Js.indexOf x xs = Some i -> nth_error xs i = Some x.
Proof.
  revert i. induction xs as [|y ys IH]; intros i; cbn [Js.indexOf]; [discriminate|].
  destruct (String.eqb y x) eqn:E.
  - intros [= <-]. apply String.eqb_eq in E. now subst.
  - destruct (Js.indexOf x ys) as [j|]; [|discriminate].
    intros [= <-]. cbn. now apply IH.
Qed.

Lemma indexOf_first (x : string) (xs : list string) (i j : nat) :
  Js.indexOf x xs = Some i -> nth_error xs j = Some x -> i <= j.
Proof.
  revert i j. induction xs as [|y ys IH]; intros i j; cbn [Js.indexOf]; [discriminate|].
  destruct (String.eqb y x) eqn:E.
  - intros [= <-] _. lia.
  - destruct (Js.indexOf x ys) as [k|] eqn:Ek; [|discriminate].
    intros [= <-]. destruct j as [|j]; cbn.
    + intros [= ->]. rewrite String.eqb_refl in E. discriminate.
    + intros H. apply le_n_S. now apply (IH k j).
Qed.

Lemma indexOf_In (x : string) (xs : list string) :
  In x xs -> exists i, Js.indexOf x xs = Some i.
Proof.
  induction xs as [|y ys IH]; cbn [Js.indexOf]; [intros []|].
  intros [->|H].
  - rewrite String.eqb_refl. now exists 0.
  - destruct (String.eqb y x); [now exists 0|].
    destruct (IH H) as [i ->]. now exists (S i).
Qed.

(** The elements that the filter keeps from the position [k] on are those
    whose first occurrence is at [k] or later. *)
Lemma filterFirstFrom_In (self : list string) (k : nat) (xs : list string) (x : string) :
  skipn k self = xs ->
  (In x (Js.filterFirstFrom self k xs) <-> exists i, k <= i /\ Js.indexOf x self = Some i).
Proof.
  revert k. induction xs as [|y xs IH]; intros k Hk; cbn [Js.filterFirstFrom].
  - split; [intros []|]. intros [i [Hi E]].
    apply indexOf_nth in E.
    assert (L : length self <= k).
    { destruct (Nat.le_gt_cases (length self) k) as [L|L]; [exact L|].
      apply (f_equal (@length string)) in Hk. rewrite length_skipn in Hk.
      cbn in Hk. lia. }
    assert (nth_error self i = None) by (apply nth_error_None; lia).
    congruence.
  - assert (Hy : nth_error self k = Some y).
    { pose proof (nth_error_skipn k self 0) as N.
      rewrite Hk, Nat.add_0_r in N. now rewrite <- N. }
    assert (Hk' : skipn (S k) self = xs).
    { change (S k) with (1 + k). rewrite <- skipn_skipn, Hk.
      reflexivity. }
    specialize (IH (S k) Hk').
    assert (Back : (exists i, k <= i /\ Js.indexOf x self = Some i) ->
                   (Js.indexOf x self = Some k /\ x = y)
                   \/ exists i, S k <= i /\ Js.indexOf x self = Some i).
    { intros [i [Hi E]]. destruct (Nat.eq_dec i k) as [->|N].
      - left. split; [exact E|]. apply indexOf_nth in E. congruence.
      - right. exists i. split; [lia | exact E]. }
    destruct (Js.indexOf y self) as [i|] eqn:Ei.
    + destruct (Nat.eqb k i) eqn:Eki.
      * apply Nat.eqb_eq in Eki. subst i. cbn [In]. rewrite IH. split.
        -- intros [<-|[i [Hi E]]]; [exists k; split; [lia | exact Ei]|].
           exists i. split; [lia | exact E].
        -- intros H. destruct (Back H) as [[_ ->]|H']; [now left | now right].
      * apply Nat.eqb_neq in Eki. rewrite IH. split.
        -- intros [j [Hj E]]. exists j. split; [lia | exact E].
        -- intros H. destruct (Back H) as [[E ->]|H']; [congruence | exact H'].
    + rewrite IH. split.
      * intros [j [Hj E]]. exists j. split; [lia | exact E].
      * intros H. destruct (Back H) as [[E ->]|H']; [congruence | exact H'].
Qed.

Lemma filterFirstFrom_NoDup (self : list string) (k : nat) (xs : list string) :
  skipn k self = xs -> NoDup (Js.filterFirstFrom self k xs).
Proof.
  revert k. induction xs as [|y xs IH]; intros k Hk; cbn [Js.filterFirstFrom];
    [constructor|].
  assert (Hk' : skipn (S k) self = xs).
  { change (S k) with (1 + k). rewrite <- skipn_skipn, Hk.
    reflexivity. }
  destruct (Js.indexOf y self) as [i|] eqn:Ei; [|now apply IH].
  destruct (Nat.eqb k i) eqn:Eki; [|now apply IH].
  apply Nat.eqb_eq in Eki. subst i. constructor; [|now apply IH].
  rewrite (filterFirstFrom_In self (S k) xs y Hk').
  intros [i [Hi E]]. rewrite E in Ei. injection Ei as ->. lia.
Qed.

Lemma filterFirstFrom_subset (self : list string) (k : nat) (xs : list string) x :
  In x (Js.filterFirstFrom self k xs) -> In x xs.
Proof.
  revert k. induction xs as [|y xs IH]; intros k; cbn [Js.filterFirstFrom];
    [intros []|].
  destruct (Js.indexOf y self) as [i|].
  - destruct (Nat.eqb k i).
    + intros [->|H]; [now left | right; now apply (IH (S k))].
    + intros H. right. now apply (IH (S k)).
  - intros H. right. now apply (IH (S k)).
Qed.

Lemma filterFirstFrom_sorted (self : list string) (k : nat) (xs : list string) :
  StronglySorted leString xs ->
  StronglySorted leString (Js.filterFirstFrom self k xs).
Proof.
  intros H. revert k. induction H as [|y xs Hs IH Hall]; intros k;
    cbn [Js.filterFirstFrom]; [constructor|].
  destruct (Js.indexOf y self) as [i|]; [|apply IH].
  destruct (Nat.eqb k i); [|apply IH].
  constructor; [apply IH|].
  rewrite Forall_forall in *. intros x Hx. apply Hall.
  now apply (filterFirstFrom_subset self (S k) xs).
Qed.

Lemma sort_strongly_sorted (xs : list string) : StronglySorted leString (Js.sort xs).
Proof.
  apply Sorted_StronglySorted.
  - intros a b c. apply leString_trans.
  - apply Sorted_LocallySorted_iff. apply sort_sorted.
Qed.

(** Sorting and then keeping the first occurrences: the result is sorted,
    has no duplicates and the same members. *)
Lemma sorted_distinct (xs : list string) :
  let ys := Js.filterFirstOccurrence (Js.sort xs) in
  LocallySorted leString ys /\ NoDup ys /\ (forall x, In x ys <-> In x xs).
Proof.
  cbn zeta. unfold Js.filterFirstOccurrence. split; [|split].
  - apply Sorted_LocallySorted_iff, StronglySorted_Sorted.
    apply filterFirstFrom_sorted, sort_strongly_sorted.
  - now apply filterFirstFrom_NoDup.
  - intros x. rewrite (filterFirstFrom_In (Js.sort xs) 0 (Js.sort xs) x eq_refl).
    split.
    + intros [i [_ E]]. apply indexOf_nth, nth_error_In in E.
      now apply (Permutation_in x (sort_permutation xs)).
    + intros H. apply (Permutation_in x (Permutation_sym (sort_permutation xs))) in H.
      destruct (indexOf_In x _ H) as [i E]. exists i. split; [lia | exact E].
Qed.

(** ** What a computation adds to the trace *)

Lemma grows_ret {A} (a : A) : grows (ret a).
Proof. intros w s. exists []. now rewrite app_nil_r. Qed.

Lemma grows_world : grows world.
Proof. intros w s. exists []. now rewrite app_nil_r. Qed.

Lemma grows_getState : grows getState.
Proof. intros w s. exists []. now rewrite app_nil_r. Qed.

Lemma grows_modify (g : State -> State) :
  (forall s, events (g s) = events s) -> grows (modify g).
Proof. intros H w s. exists []. rewrite app_nil_r. apply H. Qed.

Lemma grows_allocate lc : grows (allocate lc).
Proof. intros w s. exists []. now rewrite app_nil_r. Qed.

Lemma grows_emit (e : Event) : grows (emit e).
Proof. intros w s. now exists [e]. Qed.

Lemma grows_bind {A B} (c : M A) (k : A -> M B) :
  grows c -> (forall a, grows (k a)) -> grows (bind c k).
Proof.
  intros Hc Hk w s. rewrite exec_bind.
  destruct (Hc w s) as [es1 E1].
  destruct (Hk (eval c w s) w (exec c w s)) as [es2 E2].
  exists (es1 ++ es2). now rewrite E2, E1, app_assoc.
Qed.

Ltac growing_step :=
  lazymatch goal with
  | |- grows (ret _) => apply grows_ret
  | |- grows skip => apply grows_ret
  | |- grows world => apply grows_world
  | |- grows getState => apply grows_getState
  | |- grows (allocate _) => apply grows_allocate
  | |- grows (emit _) => apply grows_emit
  | |- grows (logger_message _) => apply grows_emit
  | |- grows make_parseBuildOrDryRun => apply grows_emit
  | |- grows (bind _ _) => apply grows_bind; [ | intros ? ]
  | |- grows (modify _) => apply grows_modify; intros; reflexivity
  | |- grows (if ?b then _ else _) => destruct b
  | |- grows (match ?x with _ => _ end) => destruct x
  end.

Ltac growing := repeat growing_step.

(** The trace after a computation is the trace before it and what the
    computation adds. *)
Lemma events_added {A} (c : M A) w s :
  grows c -> events (exec c w s) = events s ++ added c w s.
Proof.
  intros H. destruct (H w s) as [es E]. now rewrite (added_app c w s es E).
Qed.

Lemma added_bind {A B} (c : M A) (k : A -> M B) w s :
  grows c -> (forall a, grows (k a)) ->
  added (bind c k) w s = added c w s ++ added (k (eval c w s)) w (exec c w s).
Proof.
  intros Hc Hk. apply added_app. rewrite exec_bind.
  rewrite (events_added (k (eval c w s))) by apply Hk.
  rewrite (events_added c) by exact Hc. now rewrite app_assoc.
Qed.

Lemma added_emit (e : Event) w s : added (emit e) w s = [e].
Proof. now apply added_app. Qed.

Lemma added_silent {A} (c : M A) w s :
  events (exec c w s) = events s -> added c w s = [].
Proof. intros H. apply added_app. now rewrite app_nil_r. Qed.

(** An event that a filter does not select leaves the number of selected
    events. *)
Lemma preserves_count_emit (p : Event -> bool) (e : Event) :
  p e = false -> preserves (fun s => length (filter p (events s))) (emit e).
Proof.
  intros He w s.
  change (length (filter p (events s ++ [e])) = length (filter p (events s))).
  rewrite filter_app, length_app. cbn [filter]. rewrite He. cbn. lia.
Qed.

Lemma count_app (p : Event -> bool) (a b : list Event) :
  length (filter p (a ++ b)) = length (filter p a) + length (filter p b).
Proof. now rewrite filter_app, length_app. Qed.

(** The steps of [frame], with the counts of writes and quick picks. *)
Ltac observe_step :=
  first
    [ apply preserves_ret
    | apply preserves_world
    | apply preserves_getState
    | apply preserves_bind; [ | intros ? ]
    | apply preserves_modify; intros; reflexivity
    | apply preserves_allocate; intros; reflexivity
    | apply preserves_reparses_emit; discriminate
    | apply preserves_count_emit; reflexivity
    | apply preserves_occurrences_emit;
      let H := fresh in intro H; cbn in H; discriminate H
    | match goal with
      | |- preserves _ (if ?b then _ else _) => destruct b
      | |- preserves _ (match ?x with _ => _ end) => destruct x
      end ].

Ltac observe := repeat observe_step.

(** Every function of the file only adds to the trace. *)
Section Traces.

Context {U : Util} {P : Parser} {J : Json}.

Lemma grows_reads :
  grows readLoggingLevel /\ grows readExtensionLog /\ grows readMakePath
  /\ grows readBuildLog /\ grows readCurrentMakeConfiguration
  /\ grows readCurrentTarget /\ grows readCurrentLaunchConfiguration
  /\ grows readMakeConfigurations.
Proof.
  unfold readLoggingLevel, readExtensionLog, readMakePath, readBuildLog,
    readCurrentMakeConfiguration, readCurrentTarget,
    readCurrentLaunchConfiguration, getLaunchConfigurationSetting,
    readMakeConfigurations.
  repeat split; growing.
Qed.

Lemma grows_getCommand c : grows (getCommandForConfiguration c).
Proof. unfold getCommandForConfiguration. growing. Qed.

Lemma grows_getBuildLog c : grows (getBuildLogForConfiguration c).
Proof. unfold getBuildLogForConfiguration. growing. Qed.

Lemma grows_parseLaunchConfigurations source :
  grows (parseLaunchConfigurations source).
Proof. unfold parseLaunchConfigurations. growing. Qed.

Lemma grows_parseLaunchFromLog : grows parseLaunchConfigurationsFromBuildLog.
Proof.
  unfold parseLaunchConfigurationsFromBuildLog, parseLaunchConfigurations.
  growing.
Qed.

Lemma grows_parseTargetsFromLog : grows parseTargetsFromBuildLog.
Proof. unfold parseTargetsFromBuildLog. growing. Qed.

Lemma grows_setTargetByName t : grows (setTargetByName t).
Proof. unfold setTargetByName. growing. Qed.

Lemma grows_setLaunchByName l : grows (setLaunchConfigurationByName l).
Proof. unfold setLaunchConfigurationByName. growing. Qed.

Lemma grows_selectTarget targets : grows (selectTarget targets).
Proof. unfold selectTarget, setTargetByName. growing. Qed.

Lemma grows_selectLaunch names : grows (selectLaunchConfiguration names).
Proof. unfold selectLaunchConfiguration, setLaunchConfigurationByName. growing. Qed.

End Traces.

(** ** Discovery of the launch configurations *)

Section LaunchNames.

Context {U : Util} {P : Parser} {J : Json}.

(** The names that [parseLaunchConfigurations] returns for the encodings
    [items] of what the parser finds. *)
Lemma eval_parseLaunchConfigurations source w s :
  eval (parseLaunchConfigurations source) w s
  = Js.filterFirstOccurrence
      (Js.sort (map launchConfigurationToString (parseForLaunchConfiguration source))).
Proof. reflexivity. Qed.

(** X1.  The launch targets that [parseLaunchConfigurations] offers are the
    one-line forms of the launch configurations that the parser finds in
    the text, in lexicographic order and each of them once, however often
    the parser returns it; the function logs the list and changes no
    variable. *)
Theorem launch_names_sorted_and_distinct (source : string) w s :
  let found :=
    map launchConfigurationToString (parseForLaunchConfiguration source) in
  let items := eval (parseLaunchConfigurations source) w s in
  LocallySorted leString items
  /\ NoDup items
  /\ (forall x, In x items <-> In x found)
  /\ exec (parseLaunchConfigurations source) w s
     = set_events
         (events s ++ [LogMessage ("Found the following launch targets defined in the makefile: "
                                   +++ Js.join ";" items)]) s.
Proof.
  cbn zeta. rewrite eval_parseLaunchConfigurations.
  destruct (sorted_distinct
              (map launchConfigurationToString (parseForLaunchConfiguration source)))
    as [Hsorted [Hnodup Hin]].
  split; [exact Hsorted|]. split; [exact Hnodup|]. split; [exact Hin|].
  reflexivity.
Qed.

Lemma parseLaunchFromLog_log w s c t :
  buildLogContent w s = Some (String c t) ->
  eval parseLaunchConfigurationsFromBuildLog w s
  = Some (Js.filterFirstOccurrence
            (Js.sort (map launchConfigurationToString
                        (parseForLaunchConfiguration (String c t))))).
Proof.
  intros H. unfold parseLaunchConfigurationsFromBuildLog, eval, bind, world, getState.
  cbn. rewrite H. reflexivity.
Qed.

Lemma parseLaunchFromLog_spawns :
  preserves (fun s => spawns (events s)) parseLaunchConfigurationsFromBuildLog.
Proof.
  unfold parseLaunchConfigurationsFromBuildLog, parseLaunchConfigurations,
    logger_message.
  frame.
Qed.

Lemma selectLaunch_spawns names :
  preserves (fun s => spawns (events s)) (selectLaunchConfiguration names).
Proof.
  unfold selectLaunchConfiguration, setLaunchConfigurationByName, logger_message,
    skip.
  frame.
Qed.

Lemma added_selectLaunch_pick names w s :
  In (QuickPick names (match names with
                       | [] => Some "No launch targets identified"
                       | _ => None
                       end))
     (added (selectLaunchConfiguration names) w s).
Proof.
  unfold selectLaunchConfiguration.
  rewrite added_bind;
    [|apply grows_world
     |intros ?; fold (selectLaunchConfiguration names);
      unfold setLaunchConfigurationByName; growing].
  rewrite added_bind;
    [|apply grows_emit|intros ?; unfold setLaunchConfigurationByName; growing].
  rewrite added_emit. apply in_or_app. right. now left.
Qed.

(** X2.  When the build log of the configuration can be read and is not
    empty, the launch targets are taken from it: the names offered are the
    sorted, duplicate-free one-line forms of what the parser finds in the
    log, they are shown in one quick pick (with the placeholder for an
    empty list), and no process is started. *)
Theorem launch_names_from_build_log w s text :
  buildLogContent w s = Some text -> text <> "" ->
  let items :=
    Js.filterFirstOccurrence
      (Js.sort (map launchConfigurationToString (parseForLaunchConfiguration text))) in
  eval parseLaunchConfigurationsFromBuildLog w s = Some items
  /\ In (QuickPick items (match items with
                          | [] => Some "No launch targets identified"
                          | _ => None
                          end))
        (added setNewLaunchConfiguration w s)
  /\ spawns (events (exec setNewLaunchConfiguration w s)) = spawns (events s).
Proof.
  intros H Hne. destruct text as [|c t]; [congruence|]. cbn zeta.
  pose proof (parseLaunchFromLog_log w s c t H) as E.
  split; [exact E|]. split.
  - unfold setNewLaunchConfiguration.
    rewrite added_bind; [|apply grows_parseLaunchFromLog|].
    + rewrite E. apply in_or_app. right. apply added_selectLaunch_pick.
    + intros [names|]; [apply grows_selectLaunch|].
      unfold parseLaunchConfigurations. growing; apply grows_selectLaunch.
  - unfold setNewLaunchConfiguration. rewrite exec_bind, E.
    rewrite (selectLaunch_spawns _ w _). apply parseLaunchFromLog_spawns.
Qed.

End LaunchNames.

(** ** The dry runs *)

Lemma added_world {A} (k : World -> M A) w s :
  added (bind world k) w s = added (k w) w s.
Proof. reflexivity. Qed.

Lemma added_getState {A} (k : State -> M A) w s :
  added (bind getState k) w s = added (k s) w s.
Proof. reflexivity. Qed.

Lemma added_then {A} (e : Event) (k : unit -> M A) w s :
  grows (k tt) ->
  added (bind (emit e) k) w s = e :: added (k tt) w (exec (emit e) w s).
Proof.
  intros Hk. rewrite added_bind; [|apply grows_emit|intros []; exact Hk].
  now rewrite added_emit.
Qed.

Lemma spawns_added {A} (c : M A) w s :
  grows c ->
  spawns (events (exec c w s)) = spawns (events s) + spawns (added c w s).
Proof. intros H. now rewrite (events_added c w s H), spawns_app. Qed.

Lemma picks_added {A} (c : M A) w s :
  grows c ->
  picks (events (exec c w s)) = picks (events s) + picks (added c w s).
Proof. intros H. rewrite (events_added c w s H). apply count_app. Qed.

Lemma count_zero (p : Event -> bool) (a b : list Event) :
  length (filter p (a ++ b)) = length (filter p a) -> filter p b = [].
Proof.
  rewrite count_app. intros H. apply length_zero_iff_nil. lia.
Qed.

Section DryRun.

Context {U : Util} {P : Parser} {J : Json}.

Lemma parseTargetsFromBuildLog_none w s :
  Js.truthy (buildLogContent w s) = false ->
  parseTargetsFromBuildLog w s = (None, s).
Proof.
  intros H. unfold parseTargetsFromBuildLog, bind, world, getState.
  destruct (buildLogContent w s) as [[|c t]|]; try reflexivity. discriminate.
Qed.

Lemma parseLaunchFromLog_none w s :
  Js.truthy (buildLogContent w s) = false ->
  parseLaunchConfigurationsFromBuildLog w s = (None, s).
Proof.
  intros H. unfold parseLaunchConfigurationsFromBuildLog, bind, world, getState.
  destruct (buildLogContent w s) as [[|c t]|]; try reflexivity. discriminate.
Qed.

Lemma setNewTarget_process w s :
  Js.truthy (buildLogContent w s) = false ->
  exec setNewTarget w s
  = match spawnChildProcess w (configurationCommandName s) (targetArguments s)
            (rootOrEmpty w) with
    | Closed out err code signal =>
        exec (targetClosing out err code) w
          (set_events (events s ++ targetDryRun w s) s)
    | Rejected error =>
        set_events (events s ++ targetDryRun w s ++ [LogMessage error]) s
    end.
Proof.
  intros H. unfold setNewTarget, exec, bind.
  rewrite (parseTargetsFromBuildLog_none w s H).
  unfold world, getState, logger_message, emit, modify, targetClosing, bind,
    targetDryRun, targetArguments.
  cbn [fst snd events set_events].
  destruct (spawnChildProcess w _ _ _) as [error|out err code signal].
  - cbn [fst snd events set_events]. rewrite <- !app_assoc. reflexivity.
  - rewrite <- !app_assoc. reflexivity.
Qed.

Lemma setNewLaunchConfiguration_process w s :
  Js.truthy (buildLogContent w s) = false ->
  exec setNewLaunchConfiguration w s
  = match spawnChildProcess w (configurationCommandName s) (launchArguments s)
            (rootOrEmpty w) with
    | Closed out err code signal =>
        exec (launchClosing out err code) w
          (set_events (events s ++ launchDryRun w s) s)
    | Rejected error =>
        set_events (events s ++ launchDryRun w s ++ [LogMessage error]) s
    end.
Proof.
  intros H. unfold setNewLaunchConfiguration, exec, bind.
  rewrite (parseLaunchFromLog_none w s H).
  unfold world, getState, logger_message, emit, modify, launchClosing, bind,
    launchDryRun, launchArguments.
  cbn [fst snd events set_events].
  destruct (spawnChildProcess w _ _ _) as [error|out err code signal].
  - cbn [fst snd events set_events]. rewrite <- !app_assoc. reflexivity.
  - rewrite <- !app_assoc. reflexivity.
Qed.

Lemma grows_targetClosing out err code : grows (targetClosing out err code).
Proof.
  unfold targetClosing.
  apply grows_bind; [growing | intros ?; apply grows_selectTarget].
Qed.

Lemma grows_launchClosing out err code : grows (launchClosing out err code).
Proof.
  unfold launchClosing.
  apply grows_bind; [growing | intros ?].
  apply grows_bind; [apply grows_parseLaunchConfigurations | intros ?].
  apply grows_selectLaunch.
Qed.

Lemma targetClosing_spawns out err code :
  preserves (fun s => spawns (events s)) (targetClosing out err code).
Proof.
  unfold targetClosing, selectTarget, setTargetByName, make_parseBuildOrDryRun,
    logger_message, skip.
  frame.
Qed.

Lemma launchClosing_spawns out err code :
  preserves (fun s => spawns (events s)) (launchClosing out err code).
Proof.
  unfold launchClosing, parseLaunchConfigurations, selectLaunchConfiguration,
    setLaunchConfigurationByName, logger_message, skip.
  frame.
Qed.

(** What the closing callback of [setNewTarget] adds: the two lines of a
    failed run, then the quick pick and what the choice leads to. *)
Lemma added_targetClosing out err code w s :
  added (targetClosing out err code) w s
  = (if negb (code =? 0)%Z
     then [LogMessage "The verbose make dry-run command for parsing targets failed.";
           LogMessage (String.concat "" err)]
     else [])
    ++ added (selectTarget (Js.sort (parseTargets (String.concat "" out)))) w
         (exec (if negb (code =? 0)%Z then
                  logger_message "The verbose make dry-run command for parsing targets failed." ;;
                  logger_message (String.concat "" err)
                else skip) w s).
Proof.
  unfold targetClosing.
  rewrite added_bind; [|growing|intros ?; apply grows_selectTarget].
  f_equal. destruct (negb (code =? 0)%Z); [|now apply added_silent].
  apply added_app. cbn. now rewrite <- app_assoc.
Qed.

Lemma added_setTargetByName target w s :
  added (setTargetByName target) w s
  = [StatusSetTarget target; LogMessage ("Setting target " +++ target);
     SettingsUpdate "buildTarget" (VString target); ParseBuildOrDryRun].
Proof. apply added_app. cbn. now rewrite <- !app_assoc. Qed.

(** What [selectTarget] adds: the quick pick, and the effects of
    [setTargetByName] when the user chooses a target. *)
Lemma added_selectTarget targets w s :
  added (selectTarget targets) w s
  = QuickPick targets None
    :: match showQuickPick w targets with
       | Some (String c t) =>
           [StatusSetTarget (String c t);
            LogMessage ("Setting target " +++ String c t);
            SettingsUpdate "buildTarget" (VString (String c t));
            ParseBuildOrDryRun]
       | _ => []
       end.
Proof.
  unfold selectTarget. rewrite added_world.
  rewrite added_then by (unfold setTargetByName; growing).
  f_equal.
  destruct (showQuickPick w targets) as [[|c t]|];
    [now apply added_silent | apply added_setTargetByName | now apply added_silent].
Qed.

End DryRun.

Section DryRunTheorems.

Context {U : Util} {P : Parser} {J : Json}.

Lemma added_setLaunchByName l w s :
  added (setLaunchConfigurationByName l) w s
  = [StatusSetLaunchConfiguration l;
     LogMessage ("Setting launch target " +++ dq +++ l +++ dq);
     SettingsUpdate "launchConfiguration" (launchValue l)].
Proof.
  apply added_app. unfold setLaunchConfigurationByName, launchValue.
  destruct (stringToLaunchConfiguration l); cbn; now rewrite <- !app_assoc.
Qed.

(** What [selectLaunchConfiguration] adds: the quick pick, and the effects
    of [setLaunchConfigurationByName] when the user chooses a name. *)
Lemma added_selectLaunch names w s :
  added (selectLaunchConfiguration names) w s
  = QuickPick names (launchPlaceHolder names)
    :: match showQuickPick w names with
       | Some (String c t) =>
           [StatusSetLaunchConfiguration (String c t);
            LogMessage ("Setting launch target " +++ dq +++ String c t +++ dq);
            SettingsUpdate "launchConfiguration" (launchValue (String c t))]
       | _ => []
       end.
Proof.
  unfold selectLaunchConfiguration. rewrite added_world.
  rewrite added_then by (unfold setLaunchConfigurationByName; growing).
  f_equal.
  destruct (showQuickPick w names) as [[|c t]|];
    [now apply added_silent | apply added_setLaunchByName | now apply added_silent].
Qed.

(** What the closing callback of [setNewLaunchConfiguration] adds. *)
Lemma added_launchClosing out err code w s :
  let names :=
    Js.filterFirstOccurrence
      (Js.sort (map launchConfigurationToString
                  (parseForLaunchConfiguration (String.concat "" out)))) in
  exists s',
    added (launchClosing out err code) w s
    = (if negb (code =? 0)%Z
       then [LogMessage "The verbose make dry-run command for parsing binaries launch configuration failed.";
             LogMessage (String.concat "" err)]
       else [])
      ++ LogMessage ("Found the following launch targets defined in the makefile: "
                     +++ Js.join ";" names)
      :: added (selectLaunchConfiguration names) w s'.
Proof.
  cbn zeta. unfold launchClosing.
  eexists.
  rewrite added_bind;
    [|growing
     |intros ?; apply grows_bind;
      [apply grows_parseLaunchConfigurations | intros ?; apply grows_selectLaunch]].
  f_equal.
  - destruct (negb (code =? 0)%Z); [|now apply added_silent].
    apply added_app. cbn. now rewrite <- app_assoc.
  - rewrite added_bind;
      [|apply grows_parseLaunchConfigurations|intros ?; apply grows_selectLaunch].
    rewrite eval_parseLaunchConfigurations.
    change (LogMessage ?m :: ?x) with ([LogMessage m] ++ x). f_equal.
    now apply added_app.
Qed.

Lemma added_setNewTarget_process w s :
  Js.truthy (buildLogContent w s) = false ->
  added setNewTarget w s
  = targetDryRun w s
    ++ match spawnChildProcess w (configurationCommandName s) (targetArguments s)
               (rootOrEmpty w) with
       | Closed out err code signal =>
           added (targetClosing out err code) w
             (set_events (events s ++ targetDryRun w s) s)
       | Rejected error => [LogMessage error]
       end.
Proof.
  intros H. apply added_app. rewrite (setNewTarget_process w s H).
  destruct (spawnChildProcess w _ _ _) as [error|out err code signal];
    [reflexivity|].
  rewrite (events_added _ _ _ (grows_targetClosing out err code)).
  cbn [events set_events]. now rewrite app_assoc.
Qed.

Lemma added_setNewLaunch_process w s :
  Js.truthy (buildLogContent w s) = false ->
  added setNewLaunchConfiguration w s
  = launchDryRun w s
    ++ match spawnChildProcess w (configurationCommandName s) (launchArguments s)
               (rootOrEmpty w) with
       | Closed out err code signal =>
           added (launchClosing out err code) w
             (set_events (events s ++ launchDryRun w s) s)
       | Rejected error => [LogMessage error]
       end.
Proof.
  intros H. apply added_app. rewrite (setNewLaunchConfiguration_process w s H).
  destruct (spawnChildProcess w _ _ _) as [error|out err code signal];
    [reflexivity|].
  rewrite (events_added _ _ _ (grows_launchClosing out err code)).
  cbn [events set_events]. now rewrite app_assoc.
Qed.

Lemma process_path_spawns_once (dryRun : list Event) (s s' : State)
  (tail : list Event) :
  spawns dryRun = 1 ->
  events s' = events s ++ dryRun ++ tail -> spawns tail = 0 ->
  spawns (events s') = S (spawns (events s)).
Proof. intros H1 -> H0. rewrite !spawns_app. lia. Qed.

(** X3.  Without a build log that can be read, [setNewTarget] starts the
    make tool of the configuration once, in the root folder, with the
    arguments [all], [--dry-run], [-p] followed by the arguments of the
    configuration, after logging the command line.  When the process
    cannot be started, the error is logged and nothing else happens: no
    quick pick is shown and no variable changes.  When the process ends,
    whatever its exit code, one quick pick offers the targets that the
    parser finds in the concatenated output, in lexicographic order; a
    non-zero exit code only adds the collected error output to the
    log. *)
Theorem target_dry_run w s :
  Js.truthy (buildLogContent w s) = false ->
  let outcome :=
    spawnChildProcess w (configurationCommandName s) (targetArguments s)
      (rootOrEmpty w) in
  let s' := exec setNewTarget w s in
  spawns (events s') = S (spawns (events s))
  /\ (exists rest, added setNewTarget w s = targetDryRun w s ++ rest)
  /\ (forall error, outcome = Rejected error ->
        s' = set_events (events s ++ targetDryRun w s ++ [LogMessage error]) s)
  /\ (forall out err code signal, outcome = Closed out err code signal ->
        let targets := Js.sort (parseTargets (String.concat "" out)) in
        In (QuickPick targets None) (added setNewTarget w s)
        /\ picks (added setNewTarget w s) = 1
        /\ LocallySorted leString targets
        /\ Permutation targets (parseTargets (String.concat "" out))
        /\ (code <> 0%Z ->
            In (LogMessage (String.concat "" err)) (added setNewTarget w s))).
Proof.
  intros H. cbn zeta.
  pose proof (added_setNewTarget_process w s H) as A.
  pose proof (setNewTarget_process w s H) as E.
  split; [|split; [|split]].
  - destruct (spawnChildProcess w _ _ _) as [error|out err code signal].
    + rewrite E. cbn [events set_events]. rewrite !spawns_app. cbn. lia.
    + rewrite E, (targetClosing_spawns out err code w).
      cbn [events set_events]. rewrite spawns_app. cbn. lia.
  - eexists. exact A.
  - intros error Ho. rewrite E, Ho. reflexivity.
  - intros out err code signal Ho. rewrite Ho in A. cbn zeta.
    rewrite added_targetClosing, added_selectTarget in A. rewrite A.
    split; [|split; [|split; [|split]]].
    + apply in_or_app. right. apply in_or_app. right. now left.
    + unfold picks. rewrite !count_app.
      destruct (negb (code =? 0)%Z);
        destruct (showQuickPick w _) as [[|c t]|]; reflexivity.
    + apply sort_sorted.
    + apply sort_permutation.
    + intros Hc. apply in_or_app. right. apply in_or_app. left.
      assert (Hn : negb (code =? 0)%Z = true)
        by (apply negb_true_iff, Z.eqb_neq; exact Hc).
      rewrite Hn. right. now left.
Qed.

(** X4.  Without a build log that can be read, [setNewLaunchConfiguration]
    starts the make tool of the configuration once, in the root folder,
    with the arguments of the configuration, then the current target when
    it is not empty, then [--dry-run], [--always-make], [--keep-going] and
    [--print-data-base].  When the process cannot be started, the error is
    logged and nothing else happens.  When the process ends, whatever its
    exit code, one quick pick offers the sorted, duplicate-free one-line
    forms of the launch configurations that the parser finds in the
    concatenated output, with a placeholder when there is none. *)
Theorem launch_dry_run w s :
  Js.truthy (buildLogContent w s) = false ->
  let switches :=
    ["--dry-run"; "--always-make"; "--keep-going"; "--print-data-base"] in
  let outcome :=
    spawnChildProcess w (configurationCommandName s) (launchArguments s)
      (rootOrEmpty w) in
  let s' := exec setNewLaunchConfiguration w s in
  spawns (events s') = S (spawns (events s))
  /\ (exists rest, added setNewLaunchConfiguration w s = launchDryRun w s ++ rest)
  /\ (Js.truthy (currentTarget s) = false ->
      launchArguments s = configurationCommandArgs s ++ switches)
  /\ (forall target, currentTarget s = Some target -> target <> "" ->
      launchArguments s = configurationCommandArgs s ++ target :: switches)
  /\ (forall error, outcome = Rejected error ->
        s' = set_events (events s ++ launchDryRun w s ++ [LogMessage error]) s)
  /\ (forall out err code signal, outcome = Closed out err code signal ->
        let names :=
          Js.filterFirstOccurrence
            (Js.sort (map launchConfigurationToString
                        (parseForLaunchConfiguration (String.concat "" out)))) in
        In (QuickPick names (launchPlaceHolder names))
           (added setNewLaunchConfiguration w s)
        /\ picks (added setNewLaunchConfiguration w s) = 1
        /\ (code <> 0%Z ->
            In (LogMessage (String.concat "" err))
               (added setNewLaunchConfiguration w s))).
Proof.
  intros H. cbn zeta.
  pose proof (added_setNewLaunch_process w s H) as A.
  pose proof (setNewLaunchConfiguration_process w s H) as E.
  split; [|split; [|split; [|split; [|split]]]].
  - destruct (spawnChildProcess w _ _ _) as [error|out err code signal].
    + rewrite E. cbn [events set_events]. rewrite !spawns_app. cbn. lia.
    + rewrite E, (launchClosing_spawns out err code w).
      cbn [events set_events]. rewrite spawns_app. cbn. lia.
  - eexists. exact A.
  - intros Ht. unfold launchArguments. now rewrite Ht.
  - intros target Ht Hne. unfold launchArguments. rewrite Ht.
    destruct target as [|c t]; [congruence | reflexivity].
  - intros error Ho. rewrite E, Ho. reflexivity.
  - intros out err code signal Ho. rewrite Ho in A. cbn zeta.
    destruct (added_launchClosing out err code w
                (set_events (events s ++ launchDryRun w s) s)) as [s1 A1].
    cbn zeta in A1. rewrite A1, added_selectLaunch in A. rewrite A.
    split; [|split].
    + apply in_or_app. right. apply in_or_app. right. right. now left.
    + unfold picks. rewrite !count_app.
      destruct (negb (code =? 0)%Z);
        destruct (showQuickPick w _) as [[|c t]|]; reflexivity.
    + intros Hc. apply in_or_app. right. apply in_or_app. left.
      assert (Hn : negb (code =? 0)%Z = true)
        by (apply negb_true_iff, Z.eqb_neq; exact Hc).
      rewrite Hn. right. now left.
Qed.

End DryRunTheorems.

Lemma launch_names_from_build_log_witness :
  @eval _ (@parseLaunchConfigurationsFromBuildLog specUtil launchParser)
    worldWithLog stateWithLog
  = Some ["/proj>bin/app(-v,input.txt)"; "/proj>bin/test(--all)"].
Proof.
  apply (@launch_names_from_build_log specUtil launchParser worldWithLog
           stateWithLog
           ("all" +++ lineBreak +++ "clean" +++ lineBreak +++ "clean")).
  - reflexivity.
  - discriminate.
Defined.

Lemma target_dry_run_witness :
  spawns (events (exec (@setNewTarget lineParser) worldWithMake started))
  = S (spawns (events started))
  /\ In (QuickPick ["all"; "clean"] None)
        (added (@setNewTarget lineParser) worldWithMake started)
  /\ In (LogMessage "make: *** No rule.")
        (added (@setNewTarget lineParser) worldWithMake started).
Proof.
  pose proof (@target_dry_run lineParser worldWithMake started eq_refl)
    as [H1 [_ [_ H4]]].
  destruct (H4 _ _ _ _ eq_refl) as [H5 [_ [_ [_ H6]]]].
  split; [exact H1|]. split; [exact H5|]. apply H6. discriminate.
Defined.

Lemma launch_dry_run_witness :
  spawns (events (exec (@setNewLaunchConfiguration specUtil launchParser)
                    worldWithMake started))
  = S (spawns (events started))
  /\ In (QuickPick ["/proj>bin/app(-v,input.txt)"; "/proj>bin/test(--all)"] None)
        (added (@setNewLaunchConfiguration specUtil launchParser) worldWithMake
           started)
  /\ @launchArguments started
     = ["--dry-run"; "--always-make"; "--keep-going"; "--print-data-base"].
Proof.
  pose proof (@launch_dry_run specUtil launchParser worldWithMake started eq_refl)
    as [H1 [_ [H3 [_ [_ H6]]]]].
  destruct (H6 _ _ _ _ eq_refl) as [H7 _].
  split; [exact H1|]. split; [exact H7|]. apply H3. reflexivity.
Defined.

(** ** The quick picks *)

Lemma preservesIn_of {A X} (w : World) (f : State -> X) (c : M A) :
  preserves f c -> preservesIn w f c.
Proof. intros H s. apply H. Qed.

Lemma preservesIn_bind {A B X} (w : World) (f : State -> X) (c : M A)
  (k : A -> M B) :
  preservesIn w f c -> (forall a, preservesIn w f (k a)) ->
  preservesIn w f (bind c k).
Proof. intros Hc Hk s. now rewrite exec_bind, Hk, Hc. Qed.

Lemma preservesIn_world {A X} (w : World) (f : State -> X) (k : World -> M A) :
  preservesIn w f (k w) -> preservesIn w f (bind world k).
Proof. intros H s. apply H. Qed.

(** The steps of a proof that a function leaves an observation alone in a
    workspace whose user dismisses every quick pick ([H]). *)
Ltac dismissed_step H :=
  lazymatch goal with
  | |- preservesIn ?w _ (match showQuickPick ?w ?items with _ => _ end) =>
      let E := fresh in
      pose proof (H items) as E;
      destruct (showQuickPick w items) as [[|? ?]|]; [ | discriminate E | ]
  | |- preservesIn _ _ (bind world _) => apply preservesIn_world; cbv beta
  | |- preservesIn _ _ (bind _ _) => apply preservesIn_bind; [ | intros ? ]
  | |- preservesIn _ _ (if ?b then _ else _) => destruct b
  | |- preservesIn _ _ (match ?x with _ => _ end) => destruct x
  | |- preservesIn _ _ _ => apply preservesIn_of; solve [observe]
  end.

Ltac dismissed H := repeat dismissed_step H.

Section QuickPicks.

Context {U : Util} {P : Parser} {J : Json}.

(** X5.  When the user dismisses the quick pick (or the answer is empty),
    the three commands that show one ([setNewConfiguration],
    [setNewTarget], [setNewLaunchConfiguration]) leave the current
    configuration, target and launch configuration and the resolved
    command and build log as they are, write no setting and request no
    reparse, whether the names come from the build log or from a dry
    run. *)
Theorem dismissed_quick_pick_changes_nothing (c : Command) w s :
  (forall items, Js.truthy (showQuickPick w items) = false) ->
  In c [SetNewConfiguration; SetNewTarget; SetNewLaunchConfiguration] ->
  let s' := exec (run c) w s in
  currentMakeConfiguration s' = currentMakeConfiguration s
  /\ currentTarget s' = currentTarget s
  /\ currentLaunchConfiguration s' = currentLaunchConfiguration s
  /\ configurationCommandName s' = configurationCommandName s
  /\ configurationCommandArgs s' = configurationCommandArgs s
  /\ configurationBuildLog s' = configurationBuildLog s
  /\ writes (events s') = writes (events s)
  /\ reparses (events s') = reparses (events s).
Proof.
  intros H Hc. cbn zeta.
  assert (F : preservesIn w currentMakeConfiguration (run c)
              /\ preservesIn w currentTarget (run c)
              /\ preservesIn w currentLaunchConfiguration (run c)
              /\ preservesIn w configurationCommandName (run c)
              /\ preservesIn w configurationCommandArgs (run c)
              /\ preservesIn w configurationBuildLog (run c)
              /\ preservesIn w (fun s => writes (events s)) (run c)
              /\ preservesIn w (fun s => reparses (events s)) (run c)).
  { unfold writes.
    destruct Hc as [<-|[<-|[<-|[]]]]; cbn [run];
      unfold setNewConfiguration, prepareConfigurationsQuickPick,
        readMakeConfigurations, setNewTarget, parseTargetsFromBuildLog,
        selectTarget, setNewLaunchConfiguration,
        parseLaunchConfigurationsFromBuildLog, parseLaunchConfigurations,
        selectLaunchConfiguration, logger_message, skip;
      repeat split; dismissed H. }
  destruct F as [F1 [F2 [F3 [F4 [F5 [F6 [F7 F8]]]]]]].
  now rewrite F1, F2, F3, F4, F5, F6, F7, F8.
Qed.

End QuickPicks.

Lemma dismissed_quick_pick_changes_nothing_witness :
  let s' := exec (@run specUtil lineParser tinyJson SetNewTarget) worldWithMake
              started in
  currentTarget s' = currentTarget started
  /\ writes (events s') = writes (events started)
  /\ reparses (events s') = reparses (events started).
Proof.
  cbn zeta.
  pose proof (@dismissed_quick_pick_changes_nothing specUtil lineParser tinyJson
                SetNewTarget worldWithMake started (fun _ => eq_refl)
                (or_intror (or_introl eq_refl)))
    as [_ [H2 [_ [_ [_ [_ [H7 H8]]]]]]].
  split; [exact H2 | split; [exact H7 | exact H8]].
Defined.

(** ** Setting by name *)

Section ByName.

Context {U : Util} {P : Parser} {J : Json}.

(** [setConfigurationByName], step by step. *)
Lemma exec_setConfigurationByName n w s :
  exec (setConfigurationByName n) w s
  = exec make_parseBuildOrDryRun w
      (exec (getBuildLogForConfiguration (Some n)) w
         (exec (getCommandForConfiguration (Some n)) w
            (set_events
               (events s ++ [SettingsUpdate "buildConfiguration" (VString n);
                             StatusSetConfiguration n;
                             LogMessage ("Setting configuration - " +++ n)])
               (set_currentMakeConfiguration n s)))).
Proof.
  unfold setConfigurationByName, setCurrentMakeConfiguration.
  rewrite !exec_bind.
  cbn [eval exec getState modify emit logger_message fst snd
       currentMakeConfiguration set_currentMakeConfiguration set_events events bind].
  rewrite <- !app_assoc. reflexivity.
Qed.

Lemma getCommand_frame c :
  preserves currentMakeConfiguration (getCommandForConfiguration c)
  /\ preserves makeConfigurations (getCommandForConfiguration c)
  /\ preserves makePath (getCommandForConfiguration c)
  /\ preserves buildLog (getCommandForConfiguration c)
  /\ preserves configurationBuildLog (getCommandForConfiguration c)
  /\ preserves (fun s => writes (events s)) (getCommandForConfiguration c)
  /\ preserves (fun s => reparses (events s)) (getCommandForConfiguration c)
  /\ preserves (fun s => picks (events s)) (getCommandForConfiguration c).
Proof.
  unfold writes, picks, getCommandForConfiguration, logger_message, skip.
  repeat split; observe.
Qed.

Lemma getBuildLog_frame c :
  preserves currentMakeConfiguration (getBuildLogForConfiguration c)
  /\ preserves makeConfigurations (getBuildLogForConfiguration c)
  /\ preserves makePath (getBuildLogForConfiguration c)
  /\ preserves buildLog (getBuildLogForConfiguration c)
  /\ preserves configurationCommandName (getBuildLogForConfiguration c)
  /\ preserves configurationCommandArgs (getBuildLogForConfiguration c)
  /\ preserves (fun s => writes (events s)) (getBuildLogForConfiguration c)
  /\ preserves (fun s => reparses (events s)) (getBuildLogForConfiguration c)
  /\ preserves (fun s => picks (events s)) (getBuildLogForConfiguration c).
Proof.
  unfold writes, picks, getBuildLogForConfiguration, logger_message, skip.
  repeat split; observe.
Qed.

(** X7.  [setConfigurationByName] makes the name the current
    configuration, shows it in the status bar, writes it to the
    [buildConfiguration] setting, resolves the command, the arguments and
    the build log of the first record with that name among the
    configurations in memory (the file is not read again; a name without
    a record resolves to the make path of the settings or the defaults),
    and requests the reparse once. *)
Theorem configuration_by_name (n : string) w s :
  let s' := exec (setConfigurationByName n) w s in
  let record := findConfiguration (Some n) (makeConfigurations s) in
  currentMakeConfiguration s' = n
  /\ makeConfigurations s' = makeConfigurations s
  /\ configurationCommandName s' = resolvedCommand record (makePath s)
  /\ configurationCommandArgs s' = resolvedArgs record
  /\ configurationBuildLog s'
     = match recordBuildLog record with
       | Some (String c t) => Some (resolvedPath w (String c t))
       | _ => buildLog s
       end
  /\ In (StatusSetConfiguration n) (added (setConfigurationByName n) w s)
  /\ In (SettingsUpdate "buildConfiguration" (VString n))
        (added (setConfigurationByName n) w s)
  /\ writes (events s') = S (writes (events s))
  /\ reparses (events s') = S (reparses (events s)).
Proof.
  cbn zeta.
  destruct (getCommand_frame (Some n)) as [C1 [C2 [C3 [C4 [C5 [C6 [C7 C8]]]]]]].
  destruct (getBuildLog_frame (Some n)) as [B1 [B2 [B3 [B4 [B5 [B6 [B7 [B8 B9]]]]]]]].
  set (s0 := set_events
               (events s ++ [SettingsUpdate "buildConfiguration" (VString n);
                             StatusSetConfiguration n;
                             LogMessage ("Setting configuration - " +++ n)])
               (set_currentMakeConfiguration n s)).
  assert (E : exec (setConfigurationByName n) w s
              = exec make_parseBuildOrDryRun w
                  (exec (getBuildLogForConfiguration (Some n)) w
                     (exec (getCommandForConfiguration (Some n)) w s0)))
    by apply exec_setConfigurationByName.
  assert (G : grows (setConfigurationByName n)).
  { unfold setConfigurationByName, setCurrentMakeConfiguration.
    repeat first [ apply grows_getCommand | apply grows_getBuildLog | growing_step ]. }
  assert (A : exists rest,
             added (setConfigurationByName n) w s
             = [SettingsUpdate "buildConfiguration" (VString n);
                StatusSetConfiguration n] ++ rest).
  { eexists. apply added_app. rewrite E.
    change (events (exec make_parseBuildOrDryRun w ?x))
      with (events x ++ [ParseBuildOrDryRun]).
    rewrite (events_added _ _ _ (grows_getBuildLog (Some n))).
    rewrite (events_added _ _ _ (grows_getCommand (Some n))).
    unfold s0. cbn [events set_events]. rewrite <- !app_assoc.
    cbn [app]. reflexivity. }
  destruct A as [rest A].
  rewrite E.
  change (exec make_parseBuildOrDryRun w ?x)
    with (set_events (events x ++ [ParseBuildOrDryRun]) x).
  cbn [currentMakeConfiguration makeConfigurations configurationCommandName
       configurationCommandArgs configurationBuildLog set_events events].
  split; [now rewrite B1, C1|].
  split; [now rewrite B2, C2|].
  split; [now rewrite B5, getCommand_name|].
  split; [now rewrite B6, getCommand_args|].
  split.
  { rewrite getBuildLog_result, C2, C4. reflexivity. }
  split; [rewrite A; right; now left|].
  split; [rewrite A; now left|].
  split.
  - unfold writes at 1. rewrite count_app.
    fold (writes (events
      (exec (getBuildLogForConfiguration (Some n)) w
         (exec (getCommandForConfiguration (Some n)) w s0)))).
    rewrite B7, C6. unfold s0. cbn [events set_events].
    unfold writes. rewrite count_app. cbn. lia.
  - unfold reparses at 1. rewrite occurrences_app.
    fold (reparses (events
      (exec (getBuildLogForConfiguration (Some n)) w
         (exec (getCommandForConfiguration (Some n)) w s0)))).
    rewrite B8, C7. unfold s0. cbn [events set_events].
    unfold reparses. rewrite occurrences_app. cbn. lia.
Qed.

(** What the reads leave in the variables they assign. *)
Lemma read_currentMakeConfiguration w s :
  currentMakeConfiguration (exec readCurrentMakeConfiguration w s)
  = Js.orString (Settings.buildConfiguration (settings w)) "Default".
Proof.
  unfold readCurrentMakeConfiguration, exec, bind, world, getState, modify,
    logger_message, emit.
  cbn [fst snd]. destruct (Settings.buildConfiguration (settings w)) as [[|c t]|];
    reflexivity.
Qed.

Lemma read_currentTarget w s :
  currentTarget (exec readCurrentTarget w s)
  = Some (Js.orString (Settings.buildTarget (settings w)) "").
Proof.
  unfold readCurrentTarget, exec, bind, world, getState, modify,
    logger_message, emit.
  cbn [fst snd]. destruct (Settings.buildTarget (settings w)) as [[|c t]|];
    reflexivity.
Qed.

Lemma read_currentLaunchConfiguration w s :
  option_map content (currentLaunchConfiguration (exec readCurrentLaunchConfiguration w s))
  = Settings.launchConfiguration (settings w).
Proof.
  unfold readCurrentLaunchConfiguration, getLaunchConfigurationSetting, exec,
    bind, world, getState, modify, allocate, emit, ret.
  cbn [fst snd]. destruct (Settings.launchConfiguration (settings w));
    reflexivity.
Qed.

(** X6.  What the three functions that write a setting put into the store
    is what the corresponding read takes from it: after
    [setConfigurationByName], [setTargetByName] and
    [setLaunchConfigurationByName], and once the store has taken the
    write, reading the setting gives the value that the function left in
    memory.  The one exception is the empty configuration name, which is
    read back as [Default].  For the launch configuration, the value is
    what the name decodes to, and nothing when it does not decode. *)
Theorem written_settings_read_back w s :
  (forall n,
     let w1 := stored (setConfigurationByName n) w s in
     let s1 := exec (setConfigurationByName n) w s in
     Settings.buildConfiguration (settings w1) = Some n
     /\ currentMakeConfiguration s1 = n
     /\ currentMakeConfiguration (exec readCurrentMakeConfiguration w1 s1)
        = Js.orString (Some n) "Default")
  /\ (forall target,
        let w1 := stored (setTargetByName target) w s in
        let s1 := exec (setTargetByName target) w s in
        Settings.buildTarget (settings w1) = Some target
        /\ currentTarget s1 = Some target
        /\ currentTarget (exec readCurrentTarget w1 s1) = Some target)
  /\ (forall l,
        let w1 := stored (setLaunchConfigurationByName l) w s in
        let s1 := exec (setLaunchConfigurationByName l) w s in
        Settings.launchConfiguration (settings w1) = stringToLaunchConfiguration l
        /\ option_map content (currentLaunchConfiguration s1)
           = stringToLaunchConfiguration l
        /\ option_map content
             (currentLaunchConfiguration (exec readCurrentLaunchConfiguration w1 s1))
           = stringToLaunchConfiguration l).
Proof.
  split; [|split].
  - intros n. cbn zeta.
    assert (E : Settings.buildConfiguration
                  (settings (stored (setConfigurationByName n) w s)) = Some n).
    { unfold stored. cbn [settings withSettings].
      now rewrite store_after_setConfigurationByName. }
    split; [exact E|]. split.
    + now destruct (state_after_setConfigurationByName n w s) as [A _].
    + now rewrite read_currentMakeConfiguration, E.
  - intros target. cbn zeta.
    assert (E : Settings.buildTarget
                  (settings (stored (setTargetByName target) w s)) = Some target).
    { unfold stored. cbn [settings withSettings].
      now rewrite store_after_setTargetByName. }
    split; [exact E|]. split; [reflexivity|].
    rewrite read_currentTarget, E. now destruct target.
  - intros l. cbn zeta.
    assert (E : Settings.launchConfiguration
                  (settings (stored (setLaunchConfigurationByName l) w s))
                = stringToLaunchConfiguration l).
    { unfold stored. cbn [settings withSettings].
      rewrite store_after_setLaunchConfigurationByName. unfold launchValue.
      now destruct (stringToLaunchConfiguration l). }
    split; [exact E|]. split.
    + unfold setLaunchConfigurationByName, exec, bind, emit, modify, allocate,
        logger_message.
      cbn [fst snd]. now destruct (stringToLaunchConfiguration l).
    + now rewrite read_currentLaunchConfiguration.
Qed.

(** ** The quick pick of configurations *)

Lemma readMakeConfigurations_loads w s :
  makeConfigurations (exec readMakeConfigurations w s) = loadedConfigurations w s.
Proof.
  unfold readMakeConfigurations, loadedConfigurations, checkFileExistsSync, exec,
    bind, world, logger_message, emit, modify.
  cbn [fst snd]. destruct (files w (configurationsJsonPath w)) as [text|];
    [|reflexivity].
  cbn [show fst snd]. destruct (JSON_parse text); reflexivity.
Qed.

Lemma readMakeConfigurations_frame :
  preserves currentMakeConfiguration readMakeConfigurations
  /\ preserves makePath readMakeConfigurations
  /\ preserves buildLog readMakeConfigurations
  /\ preserves (fun s => writes (events s)) readMakeConfigurations
  /\ preserves (fun s => reparses (events s)) readMakeConfigurations
  /\ preserves (fun s => picks (events s)) readMakeConfigurations.
Proof.
  unfold writes, picks, readMakeConfigurations, logger_message.
  repeat split; observe.
Qed.

Lemma prepare_steps w s :
  eval prepareConfigurationsQuickPick w s
  = configurationNames (loadedConfigurations w s)
  /\ exists m,
       exec prepareConfigurationsQuickPick w s
       = exec (logger_message m) w (exec readMakeConfigurations w s).
Proof.
  unfold prepareConfigurationsQuickPick. rewrite eval_bind, exec_bind.
  rewrite <- readMakeConfigurations_loads.
  set (s1 := exec readMakeConfigurations w s).
  unfold eval, exec, bind, getState, configurationNames. cbn [fst snd].
  destruct (makeConfigurations s1) as [|k ks]; cbn [map fst snd app];
    (split; [reflexivity | eexists; reflexivity]).
Qed.

Lemma configurationNames_not_empty configurations :
  configurationNames configurations <> [].
Proof. destruct configurations; discriminate. Qed.

(** X8.  The quick pick of configurations is never empty: it offers the
    names of the configurations that have just been loaded from the file
    (those in memory when the file is missing or does not parse), in
    their order and with their repetitions, and the single name [Default]
    when there is none.  The name that the user chooses becomes the
    current configuration and its command is resolved against the
    configurations just loaded, with one reparse. *)
Theorem configuration_names_offered w s :
  let loaded := loadedConfigurations w s in
  let items := eval prepareConfigurationsQuickPick w s in
  let s' := exec setNewConfiguration w s in
  items <> []
  /\ (loaded = [] -> items = ["Default"])
  /\ (loaded <> [] -> items = map name loaded)
  /\ makeConfigurations (exec prepareConfigurationsQuickPick w s) = loaded
  /\ (forall chosen, showQuickPick w items = Some chosen -> chosen <> "" ->
        currentMakeConfiguration s' = chosen
        /\ configurationCommandName s'
           = resolvedCommand (findConfiguration (Some chosen) loaded) (makePath s)
        /\ configurationCommandArgs s'
           = resolvedArgs (findConfiguration (Some chosen) loaded)
        /\ reparses (events s') = S (reparses (events s))).
Proof.
  cbn zeta. destruct (prepare_steps w s) as [Ev [m Ex]].
  destruct readMakeConfigurations_frame as [R1 [R2 [R3 [R4 [R5 R6]]]]].
  rewrite Ev.
  split; [apply configurationNames_not_empty|].
  split; [now intros ->|].
  split; [destruct (loadedConfigurations w s); [congruence | reflexivity]|].
  split.
  { rewrite Ex. cbn. apply readMakeConfigurations_loads. }
  intros chosen Hc Hne.
  destruct chosen as [|c t]; [congruence|].
  assert (E : exec setNewConfiguration w s
              = exec (setConfigurationByName (String c t)) w
                  (exec (emit (QuickPick (configurationNames
                                            (loadedConfigurations w s)) None)) w
                     (exec prepareConfigurationsQuickPick w s))).
  { unfold setNewConfiguration. rewrite exec_bind, Ev.
    rewrite exec_bind. cbn [eval world fst].
    change (exec world w ?x) with x. rewrite exec_bind.
    cbn [eval emit modify fst]. now rewrite Hc. }
  rewrite E.
  set (s2 := exec (emit (QuickPick _ None)) w
               (exec prepareConfigurationsQuickPick w s)).
  assert (M2 : makeConfigurations s2 = loadedConfigurations w s).
  { unfold s2. rewrite Ex. cbn. apply readMakeConfigurations_loads. }
  assert (P2 : makePath s2 = makePath s).
  { unfold s2. rewrite Ex. cbn. apply R2. }
  assert (N2 : reparses (events s2) = reparses (events s)).
  { unfold s2. rewrite Ex. cbn [exec emit logger_message modify snd events set_events].
    unfold reparses. rewrite !occurrences_app. cbn.
    pose proof (R5 w s) as R. unfold reparses in R. cbn beta in R. rewrite R. lia. }
  destruct (state_after_setConfigurationByName (String c t) w s2) as [A _].
  split; [exact A|].
  rewrite exec_setConfigurationByName.
  destruct (getCommand_frame (Some (String c t))) as [C1 [C2 [C3 [C4 [C5 [C6 [C7 C8]]]]]]].
  destruct (getBuildLog_frame (Some (String c t)))
    as [B1 [B2 [B3 [B4 [B5 [B6 [B7 [B8 B9]]]]]]]].
  change (exec make_parseBuildOrDryRun w ?x)
    with (set_events (events x ++ [ParseBuildOrDryRun]) x).
  cbn [configurationCommandName configurationCommandArgs set_events events].
  split.
  { rewrite B5, getCommand_name.
    cbn [makeConfigurations makePath set_events set_currentMakeConfiguration].
    now rewrite M2, P2. }
  split.
  { rewrite B6, getCommand_args.
    cbn [makeConfigurations makePath set_events set_currentMakeConfiguration].
    now rewrite M2. }
  unfold reparses at 1. rewrite occurrences_app.
  match goal with
  | |- occurrences _ (events ?x) + _ = _ => fold (reparses (events x))
  end.
  rewrite B8, C7. cbn [events set_events]. unfold reparses at 1.
  rewrite occurrences_app. fold (reparses (events s2)). rewrite N2. cbn. lia.
Qed.

End ByName.

Lemma configuration_names_offered_witness :
  let s' := exec (@setNewConfiguration tinyJson) worldChoosingA started in
  currentMakeConfiguration s' = "A"
  /\ configurationCommandName s' = "nmake"
  /\ configurationCommandArgs s' = ["/f"; "Foo"]
  /\ reparses (events s') = S (reparses (events started)).
Proof.
  cbn zeta.
  pose proof (configuration_names_offered (J := tinyJson) worldChoosingA started)
    as [_ [_ [_ [_ H]]]].
  apply (H "A"); [reflexivity | discriminate].
Defined.

(** ** The initialisation *)

(** The functions that the initialisation and the listeners are made of,
    taken apart down to their steps. *)
Ltac steps :=
  unfold initFromSettings, onDidSaveTextDocument, onDidChangeConfiguration,
    compareSettings, triggerUpdates, checkBuildConfiguration, checkTarget,
    checkLaunchConfiguration, checkBuildLog, checkExtensionLog, checkMakePath,
    readCurrentMakeConfigurationCommand, readLoggingLevel, readExtensionLog,
    readMakePath, readBuildLog, readCurrentMakeConfiguration, readCurrentTarget,
    readCurrentLaunchConfiguration, getLaunchConfigurationSetting,
    readMakeConfigurations, getCommandForConfiguration,
    getBuildLogForConfiguration, make_parseBuildOrDryRun, logger_message, skip.

(** Rewrites an observation of the state after a step that leaves it
    alone. *)
Ltac unchanged :=
  match goal with
  | |- context [?f (exec ?c ?w ?s)] =>
      let H := fresh in
      assert (H : preserves f c) by (steps; observe);
      rewrite (H w s); clear H
  end.

Lemma resolvedSetting_truthy (w : World) (v : option string) :
  Js.truthy (resolvedSetting w v) = Js.truthy v.
Proof.
  destruct v as [[|c t]|]; try reflexivity.
  unfold resolvedSetting, resolvedPath.
  destruct (Path.isAbsolute (String c t)); [reflexivity|].
  pose proof (join_not_empty (rootOrEmpty w) (String c t)) as N.
  destruct (Path.join (rootOrEmpty w) (String c t)); [congruence | reflexivity].
Qed.

Lemma resolvedSetting_absolute (w : World) (v : option string) (p : string) :
  Path.isAbsolute (rootOrEmpty w) = true ->
  resolvedSetting w v = Some p -> p <> "" -> Path.isAbsolute p = true.
Proof.
  intros Hroot. destruct v as [[|c t]|]; cbn [resolvedSetting]; try congruence.
  intros [= <-] _. unfold resolvedPath.
  destruct (Path.isAbsolute (String c t)) eqn:E; [exact E|].
  now apply join_absolute.
Qed.

Lemma read_loggingLevel w s :
  loggingLevel (exec readLoggingLevel w s)
  = Some (Js.orString (Settings.loggingLevel (settings w)) "Normal").
Proof.
  unfold readLoggingLevel, exec, bind, world, getState, modify, skip, ret.
  cbn [fst snd loggingLevel set_loggingLevel].
  destruct (Settings.loggingLevel (settings w)) as [[|c t]|]; reflexivity.
Qed.

Lemma read_makePath w s :
  makePath (exec readMakePath w s) = Settings.makePath (settings w).
Proof.
  unfold readMakePath, exec, bind, world, getState, logger_message, emit,
    modify, skip, ret.
  cbn [fst snd makePath set_makePath].
  destruct (Js.truthy (Settings.makePath (settings w))); reflexivity.
Qed.

Lemma read_buildLog w s :
  buildLog (exec readBuildLog w s)
  = resolvedSetting w (Settings.buildLog (settings w)).
Proof.
  unfold readBuildLog, exec, bind, world, getState, logger_message, emit,
    modify, skip, ret, resolvedSetting, resolvedPath.
  cbn [fst snd buildLog set_buildLog].
  destruct (Settings.buildLog (settings w)) as [[|c t]|]; try reflexivity.
  destruct (Path.isAbsolute (String c t));
    cbn [negb fst snd buildLog set_buildLog set_events];
    repeat match goal with
      | |- context [if ?b then _ else _] => destruct b
    end; reflexivity.
Qed.

Lemma read_extensionLog w s :
  extensionLog (exec readExtensionLog w s)
  = resolvedSetting w (Settings.extensionLog (settings w)).
Proof.
  unfold readExtensionLog, exec, bind, world, getState, logger_message, emit,
    modify, skip, ret, resolvedSetting, resolvedPath.
  cbn [fst snd extensionLog set_extensionLog].
  destruct (Settings.extensionLog (settings w)) as [[|c t]|]; try reflexivity.
  destruct (Path.isAbsolute (String c t)); reflexivity.
Qed.

Section Initialisation.

Context {U : Util} {P : Parser} {J : Json}.

Lemma exec_initFromSettings w s :
  exec initFromSettings w s
  = exec readCurrentLaunchConfiguration w
      (exec readCurrentTarget w
         (exec readCurrentMakeConfigurationCommand w
            (exec readCurrentMakeConfiguration w
               (exec readBuildLog w
                  (exec readMakePath w
                     (exec readExtensionLog w
                        (exec readLoggingLevel w s))))))).
Proof. unfold initFromSettings. now rewrite !exec_bind. Qed.

Lemma exec_readCommand w s :
  exec readCurrentMakeConfigurationCommand w s
  = exec (getBuildLogForConfiguration (Some (currentMakeConfiguration s))) w
      (exec (getCommandForConfiguration (Some (currentMakeConfiguration s))) w
         (exec readMakeConfigurations w s)).
Proof.
  unfold readCurrentMakeConfigurationCommand. rewrite !exec_bind.
  cbn [eval getState fst]. change (exec getState w ?x) with x.
  assert (H : preserves currentMakeConfiguration readMakeConfigurations)
    by (steps; observe).
  now rewrite (H w s).
Qed.

Lemma init_loggingLevel w s :
  loggingLevel (exec initFromSettings w s)
  = Some (Js.orString (Settings.loggingLevel (settings w)) "Normal").
Proof.
  rewrite exec_initFromSettings. do 7 unchanged. apply read_loggingLevel.
Qed.


Lemma init_makePath w s :
  makePath (exec initFromSettings w s) = Settings.makePath (settings w).
Proof.
  rewrite exec_initFromSettings. do 5 unchanged. apply read_makePath.
Qed.

Lemma init_buildLog w s :
  buildLog (exec initFromSettings w s)
  = resolvedSetting w (Settings.buildLog (settings w)).
Proof.
  rewrite exec_initFromSettings. do 4 unchanged. apply read_buildLog.
Qed.

Lemma init_currentMakeConfiguration w s :
  currentMakeConfiguration (exec initFromSettings w s)
  = Js.orString (Settings.buildConfiguration (settings w)) "Default".
Proof.
  rewrite exec_initFromSettings. do 3 unchanged.
  apply read_currentMakeConfiguration.
Qed.

Lemma init_currentTarget w s :
  currentTarget (exec initFromSettings w s)
  = Some (Js.orString (Settings.buildTarget (settings w)) "").
Proof. rewrite exec_initFromSettings. unchanged. apply read_currentTarget. Qed.


Lemma loadedConfigurations_ext w (a b : State) :
  makeConfigurations a = makeConfigurations b ->
  loadedConfigurations w a = loadedConfigurations w b.
Proof. intros H. unfold loadedConfigurations. now rewrite H. Qed.


(** The state in which the initialisation resolves the command and the
    build log. *)
Lemma init_resolution w s :
  exists s0,
    exec initFromSettings w s
    = exec readCurrentLaunchConfiguration w
        (exec readCurrentTarget w
           (exec (getBuildLogForConfiguration
                    (Some (Js.orString (Settings.buildConfiguration (settings w))
                             "Default"))) w
              (exec (getCommandForConfiguration
                       (Some (Js.orString (Settings.buildConfiguration (settings w))
                                "Default"))) w s0)))
    /\ makeConfigurations s0 = loadedConfigurations w s
    /\ makePath s0 = Settings.makePath (settings w)
    /\ buildLog s0 = resolvedSetting w (Settings.buildLog (settings w)).
Proof.
  eexists. split; [|split; [|split]].
  - rewrite exec_initFromSettings, exec_readCommand.
    rewrite read_currentMakeConfiguration. reflexivity.
  - rewrite readMakeConfigurations_loads.
    apply loadedConfigurations_ext. now do 5 unchanged.
  - do 3 unchanged. apply read_makePath.
  - do 2 unchanged. apply read_buildLog.
Qed.


(** X9.  The initialisation only reads: it writes no setting, requests no
    reparse, starts no process and shows no quick pick, in whatever
    workspace and state it runs. *)
Theorem initialisation_requests_nothing w s :
  let s' := exec initFromSettings w s in
  writes (events s') = writes (events s)
  /\ reparses (events s') = reparses (events s)
  /\ spawns (events s') = spawns (events s)
  /\ picks (events s') = picks (events s).
Proof.
  cbn zeta.
  assert (F : preserves (fun s => writes (events s)) initFromSettings
              /\ preserves (fun s => reparses (events s)) initFromSettings
              /\ preserves (fun s => spawns (events s)) initFromSettings
              /\ preserves (fun s => picks (events s)) initFromSettings).
  { unfold writes, spawns, picks. steps. repeat split; observe. }
  destruct F as [F1 [F2 [F3 F4]]].
  now rewrite F1, F2, F3, F4.
Qed.

(** The comparisons of the listener against the variables that the reads
    have just assigned. *)
Lemma read_configuration_compared (v : option string) :
  v <> Some "" ->
  buildConfigurationChanged v (Js.orString v "Default") = false.
Proof.
  intros H. destruct v as [[|c t]|]; [congruence| |reflexivity].
  unfold buildConfigurationChanged. cbn [Js.orString Js.truthy ofString strictEquals].
  now rewrite String.eqb_refl.
Qed.

Lemma read_target_compared (v : option string) :
  targetChanged v (Some (Js.orString v "")) = false.
Proof.
  destruct v as [[|c t]|]; try reflexivity.
  unfold targetChanged. cbn [Js.orString Js.truthy ofString strictEquals].
  now rewrite String.eqb_refl.
Qed.

Lemma setting_compared (v : option string) : settingChanged v v = false.
Proof.
  unfold settingChanged. destruct v as [x|]; cbn [ofString strictEquals];
    [now rewrite String.eqb_refl | reflexivity].
Qed.

(** X11.  A notification that arrives when no setting has changed since
    the initialisation requests no reparse, provided that the
    [buildConfiguration] setting is not the empty string and that the
    [buildLog] setting is absent, empty or an absolute path. *)
Theorem unchanged_settings_request_no_reparse w s :
  Settings.buildConfiguration (settings w) <> Some "" ->
  (forall b, Settings.buildLog (settings w) = Some b ->
             b = "" \/ Path.isAbsolute b = true) ->
  let s0 := exec initFromSettings w s in
  reparseDue w s0 = false
  /\ reparses (events (exec (onDidChangeConfiguration true) w s0))
     = reparses (events s0).
Proof.
  intros Hc Hb. cbn zeta.
  assert (D : reparseDue w (exec initFromSettings w s) = false).
  { unfold reparseDue.
    rewrite init_currentMakeConfiguration, init_currentTarget, init_buildLog,
      init_makePath.
    rewrite (read_configuration_compared _ Hc), read_target_compared,
      setting_compared.
    assert (R : resolvedSetting w (Settings.buildLog (settings w))
                = Settings.buildLog (settings w)).
    { destruct (Settings.buildLog (settings w)) as [[|c t]|] eqn:E;
        try reflexivity.
      destruct (Hb _ eq_refl) as [N|A]; [discriminate|].
      unfold resolvedSetting, resolvedPath. now rewrite A. }
    rewrite R. now rewrite setting_compared. }
  split; [exact D|]. now apply listener_requests_nothing.
Qed.

End Initialisation.

Lemma unchanged_settings_request_no_reparse_witness :
  let s0 := exec (@initFromSettings specUtil tinyJson) (withStore storeAbsoluteLog)
              initialState in
  reparseDue (withStore storeAbsoluteLog) s0 = false
  /\ reparses (events (exec (@onDidChangeConfiguration specUtil true)
                         (withStore storeAbsoluteLog) s0))
     = reparses (events s0).
Proof.
  apply (@unchanged_settings_request_no_reparse specUtil tinyJson
           (withStore storeAbsoluteLog) initialState).
  - discriminate.
  - intros b [= <-]. right. reflexivity.
Defined.

(** ** Settings that the listener keeps re-reading *)

Section EmptyConfiguration.

Context {U : Util} {P : Parser} {J : Json}.

Lemma listener_keeps_guard :
  preserves ignoreSettingsChanged (onDidChangeConfiguration true).
Proof. steps. observe. Qed.

Lemma empty_configuration_step w s :
  workspaceFolders w = true -> ignoreSettingsChanged s = false ->
  Settings.buildConfiguration (settings w) = Some "" ->
  currentMakeConfiguration s <> "" ->
  let s' := exec (onDidChangeConfiguration true) w s in
  currentMakeConfiguration s' = "Default"
  /\ reparses (events s') = S (reparses (events s))
  /\ ignoreSettingsChanged s' = false.
Proof.
  intros Hw Hs He Hc. cbn zeta.
  assert (Changed : buildConfigurationChanged
                      (Settings.buildConfiguration (settings w))
                      (currentMakeConfiguration s) = true).
  { rewrite He. unfold buildConfigurationChanged. cbn [ofString strictEquals].
    destruct (currentMakeConfiguration s); [congruence | reflexivity]. }
  assert (D : reparseDue w s = true) by (unfold reparseDue; now rewrite Changed).
  split; [|split].
  - rewrite listener_steps by assumption.
    assert (C : currentMakeConfiguration (exec compareSettings w s) = "Default").
    { rewrite exec_compareSettings. do 5 unchanged.
      unfold checkBuildConfiguration. rewrite !exec_bind.
      cbn [eval world getState fst]. change (exec world w ?x) with x.
      change (exec getState w ?x) with x.
      change (currentMakeConfiguration
                (exec (logger_message "Detected a change in settings") w s))
        with (currentMakeConfiguration s).
      rewrite Changed, !exec_bind.
      change (exec (ret true) w ?x) with x.
      now rewrite read_currentMakeConfiguration, He. }
    destruct (eval compareSettings w s); [|exact C].
    now unchanged.
  - destruct (reparse_once w s Hw Hs) as [_ R]. rewrite R, D. lia.
  - now rewrite listener_keeps_guard.
Qed.

(** X12.  When the [buildConfiguration] setting is the empty string, the
    configuration in memory is [Default], the comparison of the listener
    finds the two different at every notification, and every notification
    sets the configuration to [Default] again and requests a reparse:
    after a sequence of notifications the reparse has been requested once
    for each of them. *)
Theorem empty_configuration_setting_reparses_every_time
  (ws : list World) (s : State) :
  Forall (fun w => workspaceFolders w = true
                   /\ Settings.buildConfiguration (settings w) = Some "") ws ->
  ignoreSettingsChanged s = false ->
  currentMakeConfiguration s <> "" ->
  reparses (events (deliverAll (map (fun w => (w, ConfigurationChanged true)) ws) s))
  = length ws + reparses (events s).
Proof.
  intros Hws. revert s.
  induction Hws as [|w ws [Hw He] _ IH]; intros s Hs Hc; [reflexivity|].
  cbn [map deliverAll deliver length].
  destruct (empty_configuration_step w s Hw Hs He Hc) as [C [R G]].
  rewrite IH; [rewrite R; lia | exact G | rewrite C; discriminate].
Qed.

(** X13.  The logging level is read by the initialisation and by nothing
    else: no listener and no command assigns it, so a change of the
    [loggingLevel] setting is not taken up after the initialisation.
    After the initialisation it is the level of the settings, or
    [Normal] when the settings give none or an empty one. *)
Theorem logging_level_only_read_at_initialisation (c : Command) w s :
  c <> InitFromSettings ->
  loggingLevel (exec (run c) w s) = loggingLevel s
  /\ loggingLevel (exec (run InitFromSettings) w s)
     = Some (Js.orString (Settings.loggingLevel (settings w)) "Normal").
Proof.
  intros Hc. split; [|apply init_loggingLevel].
  assert (F : preserves loggingLevel (run c)).
  { destruct c as [|[fileName|affects]| | |n|t|l| | |]; cbn [run deliver];
      try congruence;
      unfold startListeningToSettingsChanged, stopListeningToSettingsChanged,
        setNewConfiguration, prepareConfigurationsQuickPick, setNewTarget,
        setNewLaunchConfiguration, parseTargetsFromBuildLog,
        parseLaunchConfigurationsFromBuildLog, parseLaunchConfigurations,
        selectTarget, selectLaunchConfiguration, setConfigurationByName,
        setTargetByName, setLaunchConfigurationByName,
        setCurrentMakeConfiguration;
      steps; observe. }
  apply F.
Qed.

End EmptyConfiguration.

Lemma empty_configuration_setting_reparses_every_time_witness :
  let s := exec (@initFromSettings specUtil tinyJson)
             (withStore storeEmptyConfiguration) initialState in
  reparses (events (@deliverAll specUtil tinyJson
                      (map (fun w => (w, ConfigurationChanged true))
                         [withStore storeEmptyConfiguration;
                          withStore storeEmptyConfiguration]) s))
  = 2 + reparses (events s).
Proof.
  cbn zeta.
  apply (@empty_configuration_setting_reparses_every_time specUtil tinyJson
           [withStore storeEmptyConfiguration; withStore storeEmptyConfiguration]).
  - repeat constructor.
  - reflexivity.
  - discriminate.
Defined.

Lemma logging_level_only_read_at_initialisation_witness :
  loggingLevel (exec (@run specUtil lineParser tinyJson
                        (Notify (ConfigurationChanged true)))
                  (withStore storeAbsoluteLog) started)
  = Some "Normal".
Proof.
  apply (@logging_level_only_read_at_initialisation specUtil lineParser tinyJson
           (Notify (ConfigurationChanged true)) (withStore storeAbsoluteLog)
           started).
  discriminate.
Defined.

(** ** The paths of the two logs *)

Lemma added_readBuildLog_missing w s (p : string) :
  buildLog (exec readBuildLog w s) = Some p -> p <> "" -> files w p = None ->
  In (LogMessage buildLogNotFound) (added readBuildLog w s).
Proof.
  intros Hp Hne Hf.
  assert (G : grows readBuildLog) by (unfold readBuildLog, logger_message; growing).
  assert (E : exists es, events (exec readBuildLog w s)
                         = events s ++ es ++ [LogMessage buildLogNotFound]).
  { revert Hp. unfold readBuildLog, exec, bind, world, getState, logger_message,
      emit, modify, skip, ret, checkFileExistsSync.
    cbn [fst snd buildLog set_buildLog].
    destruct (Settings.buildLog (settings w)) as [[|c t]|];
      cbn [fst snd buildLog set_buildLog]; try congruence.
    destruct (Path.isAbsolute (String c t));
      cbn [negb fst snd buildLog set_buildLog set_events events show].
    - destruct (files w (String c t)) eqn:F;
        cbn [negb fst snd buildLog set_buildLog set_events events];
        intros [= <-]; [congruence|].
      exists [LogMessage ("Found build log path setting " +++ dq +++ String c t
                          +++ dq)].
      now rewrite <- app_assoc.
    - destruct (files w (Path.join (rootOrEmpty w) (String c t))) eqn:F;
        cbn [negb fst snd buildLog set_buildLog set_events events];
        intros [= <-]; [congruence|].
      exists [LogMessage ("Found build log path setting " +++ dq +++ String c t
                          +++ dq);
              LogMessage ("Resolving build log path to  " +++ dq
                          +++ Path.join (rootOrEmpty w) (String c t) +++ dq)].
      now rewrite <- !app_assoc. }
  destruct E as [es E]. rewrite (added_app _ _ _ _ E).
  apply in_or_app. right. now left.
Qed.

(** X14.  [readBuildLog] and [readExtensionLog] leave in their variables
    the path of the setting, resolved: an absolute path as it is, a
    relative one joined against the root folder, which makes it absolute
    when the root folder is; an absent or empty setting is kept as it is.
    A build log that does not exist on disk is reported in the log, and
    the variable holds its path all the same. *)
Theorem settings_logs_resolved w s :
  let log := buildLog (exec readBuildLog w s) in
  let extension := extensionLog (exec readExtensionLog w s) in
  log = resolvedSetting w (Settings.buildLog (settings w))
  /\ extension = resolvedSetting w (Settings.extensionLog (settings w))
  /\ (forall p, Settings.buildLog (settings w) = Some p -> p <> "" ->
        log = Some (if Path.isAbsolute p then p else Path.join (rootOrEmpty w) p))
  /\ (forall p, Settings.extensionLog (settings w) = Some p -> p <> "" ->
        extension
        = Some (if Path.isAbsolute p then p else Path.join (rootOrEmpty w) p))
  /\ (Js.truthy (Settings.buildLog (settings w)) = false ->
      log = Settings.buildLog (settings w))
  /\ (Path.isAbsolute (rootOrEmpty w) = true ->
      (forall p, log = Some p -> p <> "" -> Path.isAbsolute p = true)
      /\ (forall p, extension = Some p -> p <> "" -> Path.isAbsolute p = true))
  /\ (forall p, log = Some p -> p <> "" -> files w p = None ->
        In (LogMessage buildLogNotFound) (added readBuildLog w s)).
Proof.
  cbn zeta. rewrite read_buildLog, read_extensionLog.
  split; [reflexivity|]. split; [reflexivity|].
  split.
  { intros p -> Hne. destruct p as [|c t]; [congruence | reflexivity]. }
  split.
  { intros p -> Hne. destruct p as [|c t]; [congruence | reflexivity]. }
  split.
  { intros H. destruct (Settings.buildLog (settings w)) as [[|c t]|];
      try reflexivity. discriminate. }
  split.
  { intros Hroot. split; intros p; now apply resolvedSetting_absolute. }
  intros p Hp. apply added_readBuildLog_missing. now rewrite read_buildLog.
Qed.

(** ** What the listeners bring up to date *)

Lemma compared_configuration (v : option string) (current : string) :
  v <> Some "" -> buildConfigurationChanged v current = false ->
  current = Js.orString v "Default".
Proof.
  intros Hv. unfold buildConfigurationChanged.
  destruct v as [[|c t]|]; [congruence| |]; cbn [ofString strictEquals negb orb].
  - rewrite andb_true_r. intros H. apply negb_false_iff, String.eqb_eq in H.
    now subst.
  - cbn [andb]. intros H. apply negb_false_iff, String.eqb_eq in H. now subst.
Qed.

Lemma compared_target (v current : option string) :
  current <> None -> targetChanged v current = false ->
  current = Some (Js.orString v "").
Proof.
  intros Hc. unfold targetChanged.
  destruct current as [x|]; [|congruence].
  destruct v as [y|]; cbn [ofString strictEquals negb orb andb].
  - rewrite andb_true_r. intros H. apply negb_false_iff, String.eqb_eq in H.
    subst. now destruct x.
  - intros H. apply negb_false_iff, String.eqb_eq in H. now subst.
Qed.

Lemma compared_setting (v current : option string) :
  settingChanged v current = false -> current = v.
Proof.
  unfold settingChanged. destruct v as [x|], current as [y|];
    cbn [ofString strictEquals negb]; try discriminate; [|reflexivity].
  intros H. apply negb_false_iff, String.eqb_eq in H. now subst.
Qed.

Section Synchronized.

Context {U : Util} {P : Parser} {J : Json}.

Lemma exec_check (changed : bool) (m : string) (read : M unit) w s :
  exec (if changed then logger_message m ;; read ;; ret true else ret false) w s
  = if changed then exec read w (exec (logger_message m) w s) else s.
Proof. destruct changed; [now rewrite !exec_bind | reflexivity]. Qed.

Lemma check_configuration_value w s :
  currentMakeConfiguration (exec checkBuildConfiguration w s)
  = if buildConfigurationChanged (Settings.buildConfiguration (settings w))
         (currentMakeConfiguration s)
    then Js.orString (Settings.buildConfiguration (settings w)) "Default"
    else currentMakeConfiguration s.
Proof.
  unfold checkBuildConfiguration. rewrite !exec_bind.
  cbn [eval world getState fst]. change (exec world w s) with s.
  change (exec getState w s) with s. rewrite exec_check.
  destruct (buildConfigurationChanged _ _); [|reflexivity].
  apply read_currentMakeConfiguration.
Qed.

Lemma check_target_value w s :
  currentTarget (exec checkTarget w s)
  = if targetChanged (Settings.buildTarget (settings w)) (currentTarget s)
    then Some (Js.orString (Settings.buildTarget (settings w)) "")
    else currentTarget s.
Proof.
  unfold checkTarget. rewrite !exec_bind.
  cbn [eval world getState fst]. change (exec world w s) with s.
  change (exec getState w s) with s. rewrite exec_check.
  destruct (targetChanged _ _); [|reflexivity].
  apply read_currentTarget.
Qed.

Lemma check_buildLog_value w s :
  buildLog (exec checkBuildLog w s)
  = if settingChanged (Settings.buildLog (settings w)) (buildLog s)
    then resolvedSetting w (Settings.buildLog (settings w))
    else buildLog s.
Proof.
  unfold checkBuildLog. rewrite !exec_bind.
  cbn [eval world getState fst]. change (exec world w s) with s.
  change (exec getState w s) with s. rewrite exec_check.
  destruct (settingChanged _ _); [|reflexivity].
  apply read_buildLog.
Qed.

Lemma check_makePath_value w s :
  makePath (exec checkMakePath w s) = Settings.makePath (settings w).
Proof.
  unfold checkMakePath. rewrite !exec_bind.
  cbn [eval world getState fst]. change (exec world w s) with s.
  change (exec getState w s) with s. rewrite exec_check.
  destruct (settingChanged _ _) eqn:E; [apply read_makePath|].
  now apply compared_setting.
Qed.

Lemma check_extensionLog_value w s :
  extensionLog (exec checkExtensionLog w s)
  = if settingChanged (Settings.extensionLog (settings w)) (extensionLog s)
    then resolvedSetting w (Settings.extensionLog (settings w))
    else extensionLog s.
Proof.
  unfold checkExtensionLog. rewrite !exec_bind.
  cbn [eval world getState fst]. change (exec world w s) with s.
  change (exec getState w s) with s.
  destruct (settingChanged _ _); [|reflexivity].
  rewrite exec_bind. apply read_extensionLog.
Qed.

Lemma check_launch_value w s :
  heapOrdered s ->
  option_map content
    (currentLaunchConfiguration (exec checkLaunchConfiguration w s))
  = Settings.launchConfiguration (settings w).
Proof.
  intros H.
  assert (Changed : Settings.launchConfiguration (settings w) = None
                    /\ currentLaunchConfiguration s = None
                    \/ launchConfigurationChanged
                         (eval getLaunchConfigurationSetting w s)
                         (currentLaunchConfiguration
                            (exec getLaunchConfigurationSetting w s)) = true).
  { unfold heapOrdered in H.
    unfold getLaunchConfigurationSetting, launchConfigurationChanged, eval, exec,
      bind, world, allocate, ret.
    cbn [fst snd].
    destruct (Settings.launchConfiguration (settings w)) as [lc|];
      cbn [fst snd currentLaunchConfiguration set_nextObject ofObject objectId];
      destruct (currentLaunchConfiguration s) as [o|];
      cbn [ofObject strictEquals negb]; auto.
    right. apply negb_true_iff, Nat.eqb_neq. lia. }
  unfold checkLaunchConfiguration. rewrite !exec_bind.
  cbn [eval getState fst]. change (exec getState w ?x) with x.
  destruct Changed as [[N1 N2]|C].
  - assert (E : exec getLaunchConfigurationSetting w s = s
                /\ eval getLaunchConfigurationSetting w s = None).
    { unfold getLaunchConfigurationSetting, eval, exec, bind, world, ret.
      cbn [fst snd]. now rewrite N1. }
    destruct E as [E1 E2]. rewrite E1, E2, N2, N1.
    change (launchConfigurationChanged None None) with false.
    cbn [exec skip ret snd]. now rewrite N2.
  - rewrite C, exec_bind. apply read_currentLaunchConfiguration.
Qed.

(** The state of the listener after its comparisons, whether or not the
    updates follow. *)
Lemma listener_observes {X} (f : State -> X) w s :
  workspaceFolders w = true -> ignoreSettingsChanged s = false ->
  preserves f triggerUpdates ->
  f (exec (onDidChangeConfiguration true) w s) = f (exec compareSettings w s).
Proof.
  intros Hw Hs F. rewrite listener_steps by assumption.
  destruct (eval compareSettings w s); [apply F | reflexivity].
Qed.

(** X16.  An open listener brings the configuration and the target in
    memory up to date with the settings: after a notification the current
    configuration is the [buildConfiguration] setting, or [Default] when
    there is none (for a setting other than the empty string), and the
    current target is the [buildTarget] setting, or the empty string when
    there is none (once the target has been assigned). *)
Theorem notification_synchronizes_configuration_and_target w s :
  workspaceFolders w = true -> ignoreSettingsChanged s = false ->
  let s' := exec (onDidChangeConfiguration true) w s in
  (Settings.buildConfiguration (settings w) <> Some "" ->
   currentMakeConfiguration s'
   = Js.orString (Settings.buildConfiguration (settings w)) "Default")
  /\ (currentTarget s <> None ->
      currentTarget s'
      = Some (Js.orString (Settings.buildTarget (settings w)) "")).
Proof.
  intros Hw Hs. cbn zeta. split.
  - intros Hv.
    rewrite (listener_observes currentMakeConfiguration w s Hw Hs)
      by (steps; observe).
    rewrite exec_compareSettings. do 5 unchanged.
    rewrite check_configuration_value.
    change (currentMakeConfiguration
              (exec (logger_message "Detected a change in settings") w s))
      with (currentMakeConfiguration s).
    destruct (buildConfigurationChanged _ _) eqn:E; [reflexivity|].
    now apply compared_configuration.
  - intros Hc.
    rewrite (listener_observes currentTarget w s Hw Hs) by (steps; observe).
    rewrite exec_compareSettings. do 4 unchanged.
    rewrite check_target_value. do 2 unchanged.
    destruct (targetChanged _ _) eqn:E; [reflexivity|].
    now apply compared_target.
Qed.

(** X17.  An open listener brings the make path in memory up to date with
    the settings, whatever it was.  The build log and the extension log
    in memory are compared with the unresolved setting: when they differ
    from it they become the resolved setting, and otherwise they stay
    what they are; so for a setting that is absent, empty or absolute
    they are the setting after the notification. *)
Theorem notification_synchronizes_paths w s :
  workspaceFolders w = true -> ignoreSettingsChanged s = false ->
  let s' := exec (onDidChangeConfiguration true) w s in
  let t := settings w in
  makePath s' = Settings.makePath t
  /\ buildLog s'
     = (if settingChanged (Settings.buildLog t) (buildLog s)
        then resolvedSetting w (Settings.buildLog t) else buildLog s)
  /\ extensionLog s'
     = (if settingChanged (Settings.extensionLog t) (extensionLog s)
        then resolvedSetting w (Settings.extensionLog t) else extensionLog s)
  /\ (resolvedSetting w (Settings.buildLog t) = Settings.buildLog t ->
      buildLog s' = Settings.buildLog t)
  /\ (resolvedSetting w (Settings.extensionLog t) = Settings.extensionLog t ->
      extensionLog s' = Settings.extensionLog t).
Proof.
  intros Hw Hs. cbn zeta.
  assert (B : buildLog (exec (onDidChangeConfiguration true) w s)
              = if settingChanged (Settings.buildLog (settings w)) (buildLog s)
                then resolvedSetting w (Settings.buildLog (settings w))
                else buildLog s).
  { rewrite (listener_observes buildLog w s Hw Hs) by (steps; observe).
    rewrite exec_compareSettings. do 2 unchanged.
    rewrite check_buildLog_value. now do 4 unchanged. }
  assert (E : extensionLog (exec (onDidChangeConfiguration true) w s)
              = if settingChanged (Settings.extensionLog (settings w))
                     (extensionLog s)
                then resolvedSetting w (Settings.extensionLog (settings w))
                else extensionLog s).
  { rewrite (listener_observes extensionLog w s Hw Hs) by (steps; observe).
    rewrite exec_compareSettings. unchanged.
    rewrite check_extensionLog_value. now do 5 unchanged. }
  split.
  { rewrite (listener_observes makePath w s Hw Hs) by (steps; observe).
    rewrite exec_compareSettings. apply check_makePath_value. }
  split; [exact B|]. split; [exact E|]. split.
  - intros R. rewrite B.
    destruct (settingChanged (Settings.buildLog (settings w)) (buildLog s)) eqn:C;
      [exact R | now apply compared_setting].
  - intros R. rewrite E.
    destruct (settingChanged (Settings.extensionLog (settings w)) (extensionLog s))
      eqn:C; [exact R | now apply compared_setting].
Qed.

(** X18.  An open listener brings the launch configuration in memory up
    to date with the settings: after a notification the memory holds the
    launch configuration of the store, and none when the store holds
    none.  (The object in memory is older than the next one, as in every
    state that the entry points reach.) *)
Theorem notification_synchronizes_launch_configuration w s :
  workspaceFolders w = true -> ignoreSettingsChanged s = false ->
  heapOrdered s ->
  let s' := exec (onDidChangeConfiguration true) w s in
  option_map content (currentLaunchConfiguration s')
  = Settings.launchConfiguration (settings w).
Proof.
  intros Hw Hs Hh. cbn zeta.
  rewrite (listener_observes
             (fun s => option_map content (currentLaunchConfiguration s)) w s Hw Hs).
  - rewrite exec_compareSettings.
    destruct after_launch_check as [[L4 [L5 L6]] _].
    rewrite L6, L5, L4.
    apply check_launch_value.
    destruct before_launch_check as [[L0 [L1 L2]] [[N0 [N1 N2]] _]].
    unfold heapOrdered in *. now rewrite L2, L1, L0, N2, N1, N0.
  - destruct triggerUpdates_frame as [T _]. intros w' s'. now rewrite T.
Qed.

End Synchronized.

Lemma settings_logs_resolved_witness :
  buildLog (exec readBuildLog (withStore storeRelativeLog) initialState)
  = Some "/proj/build.log"
  /\ extensionLog (exec readExtensionLog (withStore storeAbsoluteLog) initialState)
     = Some "/proj/logs/extension.log"
  /\ In (LogMessage buildLogNotFound)
        (added readBuildLog (withStore storeRelativeLog) initialState).
Proof.
  pose proof (settings_logs_resolved (withStore storeRelativeLog) initialState)
    as [_ [_ [H3 [_ [_ [_ H7]]]]]].
  pose proof (settings_logs_resolved (withStore storeAbsoluteLog) initialState)
    as [_ [_ [_ [H4 _]]]].
  split; [|split].
  - apply (H3 "build.log"); [reflexivity | discriminate].
  - apply (H4 "logs/extension.log"); [reflexivity | discriminate].
  - apply (H7 "/proj/build.log"); [reflexivity | discriminate | reflexivity].
Defined.

Lemma notification_synchronizes_configuration_and_target_witness :
  let s' := exec (@onDidChangeConfiguration specUtil true)
              (withStore storeAbsoluteLog) started in
  currentMakeConfiguration s' = "A" /\ currentTarget s' = Some "".
Proof.
  cbn zeta.
  pose proof (@notification_synchronizes_configuration_and_target specUtil
                (withStore storeAbsoluteLog) started eq_refl eq_refl) as [H1 H2].
  split; [apply H1 | apply H2]; discriminate.
Defined.

Lemma notification_synchronizes_paths_witness :
  let s' := exec (@onDidChangeConfiguration specUtil true)
              (withStore storeAbsoluteLog) started in
  makePath s' = None
  /\ buildLog s' = Some "/var/log/build.log"
  /\ extensionLog s' = Some "/proj/logs/extension.log".
Proof.
  cbn zeta.
  pose proof (@notification_synchronizes_paths specUtil
                (withStore storeAbsoluteLog) started eq_refl eq_refl)
    as [H1 [H2 [H3 _]]].
  split; [exact H1 | split; [exact H2 | exact H3]].
Defined.

Lemma notification_synchronizes_launch_configuration_witness :
  option_map content
    (currentLaunchConfiguration
       (exec (@onDidChangeConfiguration specUtil true) (withStore storeWithLaunch)
          started))
  = Some launchApp.
Proof.
  apply (@notification_synchronizes_launch_configuration specUtil
           (withStore storeWithLaunch) started eq_refl eq_refl).
  exact I.
Defined.

(** ** The listener on saved documents *)

Section Saved.

Context {U : Util} {P : Parser} {J : Json}.

Lemma exec_onDidSaveTextDocument fileName w s :
  exec (onDidSaveTextDocument fileName) w s
  = if String.eqb (Path.normalize fileName)
         (Path.normalize (configurationsJsonPath w))
       && negb (ignoreSettingsChanged s)
    then exec make_parseBuildOrDryRun w
           (exec readCurrentMakeConfigurationCommand w
              (exec (logger_message "Changes detected in make_configurations.json and triggering update")
                 w s))
    else s.
Proof.
  unfold onDidSaveTextDocument. rewrite !exec_bind.
  cbn [eval world getState fst]. change (exec world w s) with s.
  change (exec getState w s) with s.
  destruct (_ && _); [now rewrite !exec_bind | reflexivity].
Qed.

(** X15.  The listener on saved documents reacts to a file whose
    normalized path is the normalized path of the configurations file,
    while the guard is off: it loads the configurations again, resolves
    the command, the arguments and the build log of the current
    configuration against them, and requests the reparse once.  The save
    of any other file changes nothing. *)
Theorem saved_configurations_file (fileName : string) w s :
  let s' := exec (onDidSaveTextDocument fileName) w s in
  let record :=
    findConfiguration (Some (currentMakeConfiguration s))
      (loadedConfigurations w s) in
  (Path.normalize fileName <> Path.normalize (configurationsJsonPath w) ->
   s' = s)
  /\ (Path.normalize fileName = Path.normalize (configurationsJsonPath w) ->
      ignoreSettingsChanged s = false ->
      currentMakeConfiguration s' = currentMakeConfiguration s
      /\ makeConfigurations s' = loadedConfigurations w s
      /\ configurationCommandName s' = resolvedCommand record (makePath s)
      /\ configurationCommandArgs s' = resolvedArgs record
      /\ configurationBuildLog s'
         = match recordBuildLog record with
           | Some (String c t) => Some (resolvedPath w (String c t))
           | _ => buildLog s
           end
      /\ writes (events s') = writes (events s)
      /\ reparses (events s') = S (reparses (events s))).
Proof.
  cbn zeta. rewrite exec_onDidSaveTextDocument. split.
  - intros H. apply String.eqb_neq in H. now rewrite H.
  - intros H Hs. rewrite H, String.eqb_refl, Hs. cbn [andb negb].
    rewrite exec_readCommand.
    set (s0 := exec (logger_message "Changes detected in make_configurations.json and triggering update") w s).
    change (currentMakeConfiguration s0) with (currentMakeConfiguration s).
    assert (L : loadedConfigurations w s0 = loadedConfigurations w s)
      by reflexivity.
    destruct (getCommand_frame (Some (currentMakeConfiguration s)))
      as [C1 [C2 [C3 [C4 [C5 [C6 [C7 C8]]]]]]].
    destruct (getBuildLog_frame (Some (currentMakeConfiguration s)))
      as [B1 [B2 [B3 [B4 [B5 [B6 [B7 [B8 B9]]]]]]]].
    destruct readMakeConfigurations_frame as [R1 [R2 [R3 [R4 [R5 R6]]]]].
    change (exec make_parseBuildOrDryRun w ?x)
      with (set_events (events x ++ [ParseBuildOrDryRun]) x).
    cbn [currentMakeConfiguration makeConfigurations configurationCommandName
         configurationCommandArgs configurationBuildLog set_events events].
    split; [now rewrite B1, C1, R1|].
    split; [now rewrite B2, C2, readMakeConfigurations_loads|].
    split.
    { now rewrite B5, getCommand_name, readMakeConfigurations_loads, R2, L. }
    split.
    { now rewrite B6, getCommand_args, readMakeConfigurations_loads, L. }
    split.
    { now rewrite getBuildLog_result, C2, C4, readMakeConfigurations_loads, R3, L. }
    split.
    + unfold writes at 1. rewrite count_app.
      match goal with
      | |- length (filter isWrite (events ?x)) + _ = _ => fold (writes (events x))
      end.
      rewrite B7, C6, R4. unfold s0. cbn [exec logger_message emit modify snd
        events set_events]. unfold writes. rewrite count_app. cbn. lia.
    + unfold reparses at 1. rewrite occurrences_app.
      match goal with
      | |- occurrences _ (events ?x) + _ = _ => fold (reparses (events x))
      end.
      rewrite B8, C7, R5. unfold s0. cbn [exec logger_message emit modify snd
        events set_events]. unfold reparses. rewrite occurrences_app. cbn. lia.
Qed.

End Saved.

Lemma saved_configurations_file_witness :
  let s' := exec (@onDidSaveTextDocument tinyJson
                    "/proj/.vscode/../.vscode/make_configurations.json")
              worldWithA started in
  makeConfigurations s' = [configurationA]
  /\ reparses (events s') = S (reparses (events started))
  /\ exec (@onDidSaveTextDocument tinyJson "/proj/Makefile") worldWithA started
     = started.
Proof.
  cbn zeta.
  pose proof (saved_configurations_file (J := tinyJson)
                "/proj/.vscode/../.vscode/make_configurations.json" worldWithA
                started) as [_ H].
  destruct (H eq_refl eq_refl) as [_ [H2 [_ [_ [_ [_ H7]]]]]].
  pose proof (saved_configurations_file (J := tinyJson) "/proj/Makefile"
                worldWithA started) as [H0 _].
  split; [exact H2 | split; [exact H7 | apply H0; discriminate]].
Defined.

(** ** The status bar *)

Lemma shownConfiguration_emit (trace : list Event) (e : Event) :
  shownConfiguration (trace ++ [e])
  = lastConfiguration (shownConfiguration trace) e.
Proof. unfold shownConfiguration. now rewrite fold_left_app. Qed.

Lemma shownTarget_emit (trace : list Event) (e : Event) :
  shownTarget (trace ++ [e]) = lastTarget (shownTarget trace) e.
Proof. unfold shownTarget. now rewrite fold_left_app. Qed.

Lemma shownLaunchConfiguration_emit (trace : list Event) (e : Event) :
  shownLaunchConfiguration (trace ++ [e])
  = lastLaunchConfiguration (shownLaunchConfiguration trace) e.
Proof. unfold shownLaunchConfiguration. now rewrite fold_left_app. Qed.

(** A step that leaves the variable and the trace keeps the agreement; so
    does an event that is not for the item of the status bar. *)
Lemma keeps_configurationShown_modify (g : State -> State) :
  (forall s, currentMakeConfiguration (g s) = currentMakeConfiguration s) ->
  (forall s, events (g s) = events s) ->
  keeps configurationShown (modify g).
Proof.
  intros H1 H2 w s H text. unfold exec, modify. cbn [snd].
  rewrite H1, H2. apply H.
Qed.

Lemma keeps_configurationShown_emit (e : Event) :
  (forall shown, lastConfiguration shown e = shown) ->
  keeps configurationShown (emit e).
Proof.
  intros He w s H text. unfold exec, emit, modify. cbn [snd events set_events].
  rewrite shownConfiguration_emit, He.
  change (currentMakeConfiguration (set_events _ s))
    with (currentMakeConfiguration s).
  apply H.
Qed.

Lemma keeps_targetShown_modify (g : State -> State) :
  (forall s, currentTarget (g s) = currentTarget s) ->
  (forall s, events (g s) = events s) ->
  keeps targetShown (modify g).
Proof.
  intros H1 H2 w s H text. unfold exec, modify. cbn [snd].
  rewrite H1, H2. apply H.
Qed.

Lemma keeps_targetShown_emit (e : Event) :
  (forall shown, lastTarget shown e = shown) -> keeps targetShown (emit e).
Proof.
  intros He w s H text. unfold exec, emit, modify. cbn [snd events set_events].
  rewrite shownTarget_emit, He.
  change (currentTarget (set_events _ s)) with (currentTarget s).
  apply H.
Qed.

Section StatusBar.

Context {U : Util} {P : Parser} {J : Json}.

Lemma keeps_launchShown_modify (g : State -> State) :
  (forall s, currentLaunchConfiguration (g s) = currentLaunchConfiguration s) ->
  (forall s, events (g s) = events s) ->
  keeps launchConfigurationShown (modify g).
Proof.
  intros H1 H2 w s H text. unfold exec, modify. cbn [snd].
  rewrite H1, H2. apply H.
Qed.

Lemma keeps_launchShown_emit (e : Event) :
  (forall shown, lastLaunchConfiguration shown e = shown) ->
  keeps launchConfigurationShown (emit e).
Proof.
  intros He w s H text. unfold exec, emit, modify. cbn [snd events set_events].
  rewrite shownLaunchConfiguration_emit, He.
  change (currentLaunchConfiguration (set_events _ s))
    with (currentLaunchConfiguration s).
  apply H.
Qed.

(** The functions that assign a variable and set its item of the status
    bar establish the agreement, whatever the state before. *)
Lemma readCurrentMakeConfiguration_shown w s :
  configurationShown (exec readCurrentMakeConfiguration w s).
Proof.
  intros text. unfold readCurrentMakeConfiguration, exec, bind, world, getState,
    logger_message, emit, modify.
  cbn [fst snd].
  destruct (Settings.buildConfiguration (settings w)) as [[|c t]|];
    cbn [fst snd events set_events currentMakeConfiguration
         set_currentMakeConfiguration];
    rewrite shownConfiguration_emit; cbn [lastConfiguration]; congruence.
Qed.

Lemma setConfigurationByName_shown n w s :
  configurationShown (exec (setConfigurationByName n) w s).
Proof.
  rewrite exec_setConfigurationByName.
  assert (K : forall c, keeps configurationShown (getCommandForConfiguration c)
                        /\ keeps configurationShown (getBuildLogForConfiguration c)).
  { intros c. unfold getCommandForConfiguration, getBuildLogForConfiguration.
    split;
      repeat lazymatch goal with
        | |- keeps _ (ret _) => apply keeps_ret
        | |- keeps _ skip => apply keeps_ret
        | |- keeps _ world => intros ? ? H; exact H
        | |- keeps _ getState => intros ? ? H; exact H
        | |- keeps _ (bind _ _) => apply keeps_bind; [ | intros ? ]
        | |- keeps _ (modify _) =>
            apply keeps_configurationShown_modify; intros; reflexivity
        | |- keeps _ (logger_message _) =>
            apply keeps_configurationShown_emit; intros; reflexivity
        | |- keeps _ (if ?b then _ else _) => destruct b
        | |- keeps _ (match ?x with _ => _ end) => destruct x
        end. }
  apply (keeps_configurationShown_emit ParseBuildOrDryRun); [reflexivity|].
  apply (proj2 (K (Some n))). apply (proj1 (K (Some n))).
  intros text. cbn [events set_events currentMakeConfiguration
                    set_currentMakeConfiguration].
  change (events s ++ [?a; ?b; ?c]) with (events s ++ [a; b] ++ [c]).
  rewrite app_assoc, shownConfiguration_emit. cbn [lastConfiguration].
  change (events s ++ [?a; ?b]) with (events s ++ [a] ++ [b]).
  rewrite app_assoc, shownConfiguration_emit. cbn [lastConfiguration].
  congruence.
Qed.

Lemma readCurrentTarget_shown w s : targetShown (exec readCurrentTarget w s).
Proof.
  intros text. unfold readCurrentTarget, exec, bind, world, getState,
    logger_message, emit, modify.
  cbn [fst snd].
  destruct (Settings.buildTarget (settings w)) as [[|c t]|];
    cbn [fst snd events set_events currentTarget set_currentTarget];
    rewrite ?shownTarget_emit; cbn [lastTarget];
    intros [= <-]; auto.
Qed.

Lemma setTargetByName_shown target w s :
  targetShown (exec (setTargetByName target) w s).
Proof.
  intros text. unfold setTargetByName, exec, bind, make_parseBuildOrDryRun,
    logger_message, emit, modify.
  cbn [fst snd events set_events currentTarget set_currentTarget].
  rewrite !shownTarget_emit. cbn [lastTarget]. intros [= <-]. now left.
Qed.

Lemma readCurrentLaunchConfiguration_shown w s :
  launchConfigurationShown (exec readCurrentLaunchConfiguration w s).
Proof.
  intros text. unfold readCurrentLaunchConfiguration,
    getLaunchConfigurationSetting, exec, bind, world, allocate, emit, modify, ret.
  cbn [fst snd].
  destruct (Settings.launchConfiguration (settings w)) as [lc|];
    cbn [fst snd events set_events currentLaunchConfiguration
         set_currentLaunchConfiguration set_nextObject content];
    rewrite shownLaunchConfiguration_emit; cbn [lastLaunchConfiguration];
    intros [= <-]; [now left | reflexivity].
Qed.

Lemma setLaunchConfigurationByName_shown l w s :
  launchConfigurationShown (exec (setLaunchConfigurationByName l) w s).
Proof.
  intros text. unfold setLaunchConfigurationByName, exec, bind, allocate,
    logger_message, emit, modify.
  cbn [fst snd].
  destruct (stringToLaunchConfiguration l) as [lc|] eqn:E;
    cbn [fst snd events set_events currentLaunchConfiguration
         set_currentLaunchConfiguration set_nextObject content];
    rewrite !shownLaunchConfiguration_emit; cbn [lastLaunchConfiguration];
    intros [= <-]; [now right | exact E].
Qed.

(** The steps of a proof that a function keeps the three agreements. *)
Ltac shown_step :=
  lazymatch goal with
  | |- keeps _ (ret _) => apply keeps_ret
  | |- keeps _ skip => apply keeps_ret
  | |- keeps _ world => intros ? ? ?; assumption
  | |- keeps _ getState => intros ? ? ?; assumption
  | |- keeps configurationShown readCurrentMakeConfiguration =>
      intros ? ? _; apply readCurrentMakeConfiguration_shown
  | |- keeps configurationShown (setConfigurationByName _) =>
      intros ? ? _; apply setConfigurationByName_shown
  | |- keeps targetShown readCurrentTarget =>
      intros ? ? _; apply readCurrentTarget_shown
  | |- keeps targetShown (setTargetByName _) =>
      intros ? ? _; apply setTargetByName_shown
  | |- keeps launchConfigurationShown readCurrentLaunchConfiguration =>
      intros ? ? _; apply readCurrentLaunchConfiguration_shown
  | |- keeps launchConfigurationShown (setLaunchConfigurationByName _) =>
      intros ? ? _; apply setLaunchConfigurationByName_shown
  | |- keeps _ (allocate _) =>
      let H := fresh in intros ? ? H; exact H
  | |- keeps _ (bind _ _) => apply keeps_bind; [ | intros ? ]
  | |- keeps configurationShown (modify _) =>
      apply keeps_configurationShown_modify; intros; reflexivity
  | |- keeps targetShown (modify _) =>
      apply keeps_targetShown_modify; intros; reflexivity
  | |- keeps launchConfigurationShown (modify _) =>
      apply keeps_launchShown_modify; intros; reflexivity
  | |- keeps configurationShown (emit _) =>
      apply keeps_configurationShown_emit; intros; reflexivity
  | |- keeps targetShown (emit _) =>
      apply keeps_targetShown_emit; intros; reflexivity
  | |- keeps launchConfigurationShown (emit _) =>
      apply keeps_launchShown_emit; intros; reflexivity
  | |- keeps _ (if ?b then _ else _) => destruct b
  | |- keeps _ (match ?x with _ => _ end) => destruct x
  end.

Ltac shown := repeat shown_step.

(** The functions of the file below the entry points, without those that
    establish an agreement. *)
Ltac parts :=
  unfold initFromSettings, onDidSaveTextDocument, onDidChangeConfiguration,
    compareSettings, checkBuildConfiguration, checkTarget,
    checkLaunchConfiguration, checkBuildLog, checkExtensionLog, checkMakePath,
    startListeningToSettingsChanged, stopListeningToSettingsChanged,
    setNewConfiguration, prepareConfigurationsQuickPick, setNewTarget,
    setNewLaunchConfiguration, parseTargetsFromBuildLog,
    parseLaunchConfigurationsFromBuildLog, parseLaunchConfigurations,
    selectTarget, selectLaunchConfiguration,
    readCurrentMakeConfigurationCommand, readLoggingLevel, readExtensionLog,
    readMakePath, readBuildLog, getLaunchConfigurationSetting,
    readMakeConfigurations, getCommandForConfiguration,
    getBuildLogForConfiguration, make_parseBuildOrDryRun, logger_message.

Lemma keeps_configurationShown_run (c : Command) :
  keeps configurationShown (run c).
Proof.
  destruct c as [|[fileName|affects]| | |n|t|l| | |]; cbn [run deliver];
    parts; unfold readCurrentTarget, readCurrentLaunchConfiguration,
      setTargetByName, setLaunchConfigurationByName, getLaunchConfigurationSetting,
      make_parseBuildOrDryRun, logger_message;
    shown.
Qed.

Lemma keeps_targetShown_run (c : Command) : keeps targetShown (run c).
Proof.
  destruct c as [|[fileName|affects]| | |n|t|l| | |]; cbn [run deliver];
    parts; unfold readCurrentMakeConfiguration, readCurrentLaunchConfiguration,
      setConfigurationByName, setCurrentMakeConfiguration,
      setLaunchConfigurationByName, getLaunchConfigurationSetting,
      getCommandForConfiguration, getBuildLogForConfiguration,
      make_parseBuildOrDryRun, logger_message;
    shown.
Qed.

Lemma keeps_launchShown_run (c : Command) :
  keeps launchConfigurationShown (run c).
Proof.
  destruct c as [|[fileName|affects]| | |n|t|l| | |]; cbn [run deliver];
    parts; unfold readCurrentMakeConfiguration, readCurrentTarget,
      setConfigurationByName, setCurrentMakeConfiguration, setTargetByName,
      getCommandForConfiguration, getBuildLogForConfiguration,
      make_parseBuildOrDryRun, logger_message;
    shown.
Qed.

(** X19.  The status bar agrees with the variables in every state that
    the initialisation, the listeners and the commands reach from the
    initial one: the configuration it shows is the current configuration;
    the target it shows is the current target, or [Default] for the empty
    target; the launch configuration it shows is the one-line form of the
    launch configuration in memory or the name that was decoded into it,
    and a text that does not decode when the memory holds none. *)
Theorem status_bar_agrees_with_variables (cs : list (World * Command)) :
  statusBarConsistent (runAll cs initialState).
Proof.
  assert (G : forall s, statusBarConsistent s -> statusBarConsistent (runAll cs s)).
  { induction cs as [|[w c] cs IH]; intros s H; [exact H|].
    cbn [runAll]. apply IH. destruct H as [H1 [H2 H3]].
    split; [|split].
    - now apply keeps_configurationShown_run.
    - now apply keeps_targetShown_run.
    - now apply keeps_launchShown_run. }
  apply G. repeat split; intros text; discriminate.
Qed.

End StatusBar.

(** ** What decodes *)

(** A match of a group followed by the rest of a pattern: the text starts
    with the group, which holds no line terminator, and the rest matches
    what follows. *)
Lemma matchHere_group (p : list Js.Item) (s : string) (gs : list string) :
  Js.matchHere (Js.DotStar :: p) s = Some gs ->
  exists g gs' s',
    gs = g :: gs' /\ s = g +++ s' /\ lineFree g = true
    /\ Js.matchHere p s' = Some gs'.
Proof.
  revert gs. induction s as [|x t IH]; intros gs; rewrite matchHere_star.
  - unfold Js.capture. destruct (Js.matchHere p "") as [gs'|] eqn:E;
      cbn [option_map]; [|discriminate].
    intros [= <-]. now exists "", gs', "".
  - assert (Stop : Js.capture (Js.matchHere p (String x t)) = Some gs ->
                   exists g gs' s',
                     gs = g :: gs' /\ String x t = g +++ s' /\ lineFree g = true
                     /\ Js.matchHere p s' = Some gs').
    { unfold Js.capture. destruct (Js.matchHere p (String x t)) as [gs'|] eqn:E;
        cbn [option_map]; [|discriminate].
      intros [= <-]. now exists "", gs', (String x t). }
    destruct (Js.lineTerminator x) eqn:Ex; [exact Stop|].
    destruct (Js.matchHere (Js.DotStar :: p) t) as [[|g gs']|] eqn:E;
      [exact Stop| |exact Stop].
    intros [= <-].
    destruct (IH _ eq_refl) as [g0 [gs0 [s' [Hg [Ht [Hl Hm]]]]]].
    injection Hg as -> ->.
    exists (String x g0), gs0, s'. repeat split.
    + cbn [append]. now rewrite <- Ht.
    + cbn [lineFree]. now rewrite Ex, Hl.
    + exact Hm.
Qed.

Lemma matchHere_literal (p : list Js.Item) (c : ascii) (s : string)
  (gs : list string) :
  Js.matchHere (Js.Lit c :: p) s = Some gs ->
  exists s', s = String c s' /\ Js.matchHere p s' = Some gs.
Proof.
  destruct s as [|x t]; [discriminate|]. rewrite matchHere_lit.
  destruct (Ascii.eqb x c) eqn:E; [|discriminate].
  apply Ascii.eqb_eq in E. subst. intros H. now exists t.
Qed.

Lemma exec_suffix (p : list Js.Item) (s : string) (gs : list string) :
  Js.exec p s = Some gs ->
  exists before s', s = before +++ s' /\ Js.matchHere p s' = Some gs.
Proof.
  induction s as [|x t IH]; cbn [Js.exec].
  - destruct (Js.matchHere p "") as [gs'|] eqn:E; [|discriminate].
    intros [= <-]. now exists "", "".
  - destruct (Js.matchHere p (String x t)) as [gs'|] eqn:E.
    + intros [= <-]. now exists "", (String x t).
    + intros H. destruct (IH H) as [before [s' [Hs Hm]]].
      exists (String x before), s'. split; [|exact Hm].
      cbn [append]. now rewrite Hs.
Qed.

(** What the regular expression of the one-line form finds: three groups
    without a line terminator, in a text of the shape
    [cwd>relative(arguments)]. *)
Lemma exec_launchRegexp (str : string) (gs : list string) :
  Js.exec launchRegexp str = Some gs ->
  exists before m1 m2 m3 after,
    gs = [m1; m2; m3]
    /\ str = before +++ m1 +++ ">" +++ m2 +++ "(" +++ m3 +++ ")" +++ after
    /\ lineFree m1 = true /\ lineFree m2 = true /\ lineFree m3 = true.
Proof.
  intros H. destruct (exec_suffix _ _ _ H) as [before [s0 [Hs H0]]].
  unfold launchRegexp in H0.
  destruct (matchHere_group _ _ _ H0) as [m1 [gs1 [s1 [-> [-> [L1 H1]]]]]].
  destruct (matchHere_literal _ _ _ _ H1) as [s2 [-> H2]].
  destruct (matchHere_group _ _ _ H2) as [m2 [gs2 [s3 [-> [-> [L2 H3]]]]]].
  destruct (matchHere_literal _ _ _ _ H3) as [s4 [-> H4]].
  destruct (matchHere_group _ _ _ H4) as [m3 [gs3 [s5 [-> [-> [L3 H5]]]]]].
  destruct (matchHere_literal _ _ _ _ H5) as [after [-> H6]].
  cbn in H6. injection H6 as <-.
  exists before, m1, m2, m3, after. repeat split; assumption.
Qed.

(** The pieces of a split hold no separator. *)
Lemma split_pieces (sep : ascii) (s : string) :
  forallb (fun x => negb (contains sep x)) (Js.split sep s) = true.
Proof.
  induction s as [|c t IH]; [reflexivity|]. cbn [Js.split].
  destruct (Ascii.eqb c sep) eqn:E; [exact IH|].
  destruct (Js.split sep t) as [|h r]; cbn [forallb contains] in *.
  - now rewrite E.
  - now rewrite E.
Qed.

(** The pieces of a text without line terminator hold none. *)
Lemma split_lineFree (sep : ascii) (s : string) :
  lineFree s = true -> forallb lineFree (Js.split sep s) = true.
Proof.
  induction s as [|c t IH]; [reflexivity|]. cbn [Js.split lineFree].
  intros H. apply andb_prop in H as [Hc Ht]. specialize (IH Ht).
  destruct (Ascii.eqb c sep); [exact IH|].
  destruct (Js.split sep t) as [|h r]; cbn [forallb lineFree] in *.
  - now rewrite Hc.
  - now rewrite Hc.
Qed.

Section Decoded.

Context {U : Util} {P : Parser} {J : Json}.

(** X20.  Whatever [stringToLaunchConfiguration] decodes comes from a
    text of the shape [cwd>relative(arguments)] on one line of the
    string: the working directory is the text before the [>], the binary
    is the full path of the text between [>] and [(] against the working
    directory, and the arguments are the pieces between the commas of the
    text in the parentheses.  So a decoded launch configuration has at
    least one argument, no argument holds a comma, and neither the
    working directory nor an argument holds a line terminator. *)
Theorem decoded_launch_configuration (str : string) (r : LaunchConfiguration) :
  stringToLaunchConfiguration str = Some r ->
  exists before relative arguments after,
    str = before +++ cwd r +++ ">" +++ relative +++ "(" +++ arguments +++ ")"
          +++ after
    /\ binary r = makeFullPath relative (cwd r)
    /\ args r = Js.split ","%char arguments
    /\ args r <> []
    /\ forallb (fun a => negb (contains ","%char a)) (args r) = true
    /\ lineFree (cwd r) = true
    /\ lineFree relative = true
    /\ forallb lineFree (args r) = true.
Proof.
  unfold stringToLaunchConfiguration.
  destruct (Js.exec launchRegexp str) as [gs|] eqn:E; [|discriminate].
  destruct (exec_launchRegexp str gs E)
    as [before [m1 [m2 [m3 [after [-> [Hs [L1 [L2 L3]]]]]]]]].
  intros [= <-]. cbn [cwd binary args].
  exists before, m2, m3, after.
  split; [exact Hs|]. split; [reflexivity|]. split; [reflexivity|].
  split; [apply split_not_nil|]. split; [apply split_pieces|].
  split; [exact L1|]. split; [exact L2|]. now apply split_lineFree.
Qed.

Lemma contains_true_append c (a b : string) :
  contains c b = true -> contains c (a +++ b) = true.
Proof. intros H. rewrite contains_append, H. apply orb_true_r. Qed.

(** A name that lacks one of the three delimiters does not decode. *)
Lemma undecodable (l : string) :
  contains ">"%char l = false \/ contains "("%char l = false
  \/ contains ")"%char l = false ->
  stringToLaunchConfiguration l = None.
Proof.
  intros H. unfold stringToLaunchConfiguration.
  destruct (Js.exec launchRegexp l) as [gs|] eqn:E; [|reflexivity].
  destruct (exec_launchRegexp l gs E)
    as [before [m1 [m2 [m3 [after [-> [Hs _]]]]]]].
  exfalso.
  assert (C1 : contains ">"%char l = true).
  { rewrite Hs. do 2 apply contains_true_append. cbn [append contains].
    now rewrite Ascii.eqb_refl. }
  assert (C2 : contains "("%char l = true).
  { rewrite Hs. do 4 apply contains_true_append. cbn [append contains].
    now rewrite Ascii.eqb_refl. }
  assert (C3 : contains ")"%char l = true).
  { rewrite Hs. do 6 apply contains_true_append. cbn [append contains].
    now rewrite Ascii.eqb_refl. }
  destruct H as [H|[H|H]]; congruence.
Qed.

(** X21.  A name without [>], without [(] or without [)] is not a launch
    configuration: [setLaunchConfigurationByName] shows the name in the
    status bar all the same, leaves no launch configuration in memory and
    writes [undefined] to the [launchConfiguration] setting, which removes
    the setting from the store. *)
Theorem undecodable_name_clears_launch_configuration (l : string) w s :
  contains ">"%char l = false \/ contains "("%char l = false
  \/ contains ")"%char l = false ->
  let s' := exec (setLaunchConfigurationByName l) w s in
  stringToLaunchConfiguration l = None
  /\ currentLaunchConfiguration s' = None
  /\ added (setLaunchConfigurationByName l) w s
     = [StatusSetLaunchConfiguration l;
        LogMessage ("Setting launch target " +++ dq +++ l +++ dq);
        SettingsUpdate "launchConfiguration" VUndefined]
  /\ Settings.launchConfiguration
       (settings (stored (setLaunchConfigurationByName l) w s)) = None.
Proof.
  intros H. cbn zeta. pose proof (undecodable l H) as E.
  split; [exact E|]. split; [|split].
  - unfold setLaunchConfigurationByName, exec, bind, emit, modify, logger_message.
    now rewrite E.
  - rewrite added_setLaunchByName. unfold launchValue. now rewrite E.
  - unfold stored. cbn [settings withSettings].
    rewrite store_after_setLaunchConfigurationByName. unfold launchValue.
    now rewrite E.
Qed.

End Decoded.

Lemma decoded_launch_configuration_witness :
  @stringToLaunchConfiguration specUtil "/proj>bin/app(-v,input.txt)"
  = Some launchApp
  /\ args launchApp <> []
  /\ forallb (fun a => negb (contains ","%char a)) (args launchApp) = true
  /\ lineFree (cwd launchApp) = true.
Proof.
  split; [reflexivity|].
  destruct (@decoded_launch_configuration specUtil "/proj>bin/app(-v,input.txt)"
              launchApp eq_refl)
    as [before [relative [arguments [after [_ [_ [_ [H4 [H5 [H6 _]]]]]]]]]].
  split; [exact H4 | split; [exact H5 | exact H6]].
Defined.

Lemma undecodable_name_clears_launch_configuration_witness :
  let l := "/proj/bin/app -v" in
  let w := withStore storeWithLaunch in
  currentLaunchConfiguration startedWithLaunch
  = Some {| objectId := 0; content := launchApp |}
  /\ currentLaunchConfiguration
       (exec (@setLaunchConfigurationByName specUtil l) w startedWithLaunch)
     = None
  /\ Settings.launchConfiguration
       (settings (stored (@setLaunchConfigurationByName specUtil l) w
                    startedWithLaunch))
     = None.
Proof.
  cbn zeta. split; [reflexivity|].
  pose proof (@undecodable_name_clears_launch_configuration specUtil
                "/proj/bin/app -v" (withStore storeWithLaunch) startedWithLaunch
                (or_introl eq_refl)) as [_ [H2 [_ H4]]].
  split; [exact H2 | exact H4].
Defined.

(** ** The warnings about the make tool *)

Section Warnings.

Context {U : Util} {P : Parser} {J : Json}.

(** Without a build log that can be read, and with neither a make path
    nor a command name, [getCommandForConfiguration] logs the three
    warnings and nothing else. *)
Lemma added_getCommand_warnings w s configuration :
  Js.truthy (buildLogContent w s) = false ->
  Js.truthy (makePath s) = false ->
  Js.truthy (recordCommandName
               (findConfiguration configuration (makeConfigurations s))) = false ->
  added (getCommandForConfiguration configuration) w s
  = map LogMessage toolWarnings.
Proof.
  intros Hc Hm Hr. apply added_app.
  unfold buildLogContent in Hc.
  unfold getCommandForConfiguration, parsedPathSettings, parsedPathConfigurations,
    exec, bind, world, getState, logger_message, emit, modify, skip, ret.
  cbn [fst snd configurationBuildLog makePath makeConfigurations
       set_configurationCommandArgs set_configurationCommandName].
  unfold recordCommandName in Hr.
  destruct (findConfiguration configuration (makeConfigurations s)) as [k|];
    [destruct (commandName k) as [[|c t]|]; [|discriminate|]|];
    (destruct (makePath s) as [[|c' t']|]; [|discriminate|]);
    cbn [Js.truthy option_map andb] in *;
    rewrite Hc; cbn [negb fst snd events set_events map toolWarnings];
    rewrite <- ?app_assoc; reflexivity.
Qed.

(** With a build log that can be read, it logs at most the command that
    it has found. *)
Lemma added_getCommand_quiet w s configuration :
  Js.truthy (buildLogContent w s) = true ->
  added (getCommandForConfiguration configuration) w s = []
  \/ exists m, added (getCommandForConfiguration configuration) w s
               = [LogMessage ("Found command '" +++ m)].
Proof.
  intros Hc. unfold buildLogContent in Hc.
  assert (E : events (exec (getCommandForConfiguration configuration) w s)
              = events s
              \/ exists m, events (exec (getCommandForConfiguration configuration) w s)
                           = events s ++ [LogMessage ("Found command '" +++ m)]).
  { unfold getCommandForConfiguration, exec, bind, world, getState,
      logger_message, emit, modify, skip, ret.
    cbn [fst snd configurationBuildLog set_configurationCommandArgs
         set_configurationCommandName].
    rewrite Hc. cbn [negb].
    match goal with
    | |- context [if ?b then _ else _] => destruct b
    end; cbn [fst snd events set_events]; [right; eexists; reflexivity | now left]. }
  destruct E as [E|[m E]].
  - left. now apply added_silent.
  - right. exists m. now apply added_app.
Qed.

(** X22.  [getCommandForConfiguration] warns about the make tool only
    when the build log that was resolved before the call cannot be read:
    with a readable, non-empty build log it logs none of its three
    warnings; without one, and when neither the make path of the settings
    nor the record of the configuration names a tool, it logs the three
    of them. *)
Theorem make_tool_warnings w s configuration :
  let trace := added (getCommandForConfiguration configuration) w s in
  let record := findConfiguration configuration (makeConfigurations s) in
  (Js.truthy (buildLogContent w s) = true ->
   forall m, In m toolWarnings -> ~ In (LogMessage m) trace)
  /\ (Js.truthy (buildLogContent w s) = false ->
      Js.truthy (makePath s) = false ->
      Js.truthy (recordCommandName record) = false ->
      forall m, In m toolWarnings -> In (LogMessage m) trace).
Proof.
  cbn zeta. split.
  - intros Hc m Hm Hin.
    destruct (added_getCommand_quiet w s configuration Hc) as [E|[x E]];
      rewrite E in Hin; [exact Hin|].
    destruct Hin as [Hin|[]]. injection Hin as Hin.
    destruct Hm as [<-|[<-|[<-|[]]]]; discriminate Hin.
  - intros Hc Hp Hr m Hm.
    rewrite (added_getCommand_warnings w s configuration Hc Hp Hr).
    now apply in_map.
Qed.

(** What a later step adds is part of what the sequence adds. *)
Lemma added_later {A B} (c : M A) (k : A -> M B) (e : Event) w s :
  grows c -> (forall a, grows (k a)) ->
  In e (added (k (eval c w s)) w (exec c w s)) -> In e (added (bind c k) w s).
Proof.
  intros Hc Hk H. rewrite added_bind by assumption. apply in_or_app. now right.
Qed.

Lemma added_sooner {A B} (c : M A) (k : A -> M B) (e : Event) w s :
  grows c -> (forall a, grows (k a)) ->
  In e (added c w s) -> In e (added (bind c k) w s).
Proof.
  intros Hc Hk H. rewrite added_bind by assumption. apply in_or_app. now left.
Qed.

Lemma grows_initialisation :
  grows readCurrentMakeConfigurationCommand /\ grows initFromSettings.
Proof.
  destruct grows_reads as [G1 [G2 [G3 [G4 [G5 [G6 [G7 G8]]]]]]].
  assert (G : grows readCurrentMakeConfigurationCommand).
  { unfold readCurrentMakeConfigurationCommand.
    apply grows_bind; [exact G8 | intros ?].
    apply grows_bind; [apply grows_getState | intros ?].
    apply grows_bind; [apply grows_getCommand | intros ?].
    apply grows_getBuildLog. }
  split; [exact G|].
  unfold initFromSettings.
  repeat (apply grows_bind; [assumption | intros ?]). exact G7.
Qed.

(** X23.  At the initialisation the command is resolved before the build
    log: the build log of the configuration is still undefined when
    [getCommandForConfiguration] decides about its warnings, so when
    neither the settings nor the record of the configuration name a make
    tool, the three warnings are logged whatever build log the settings
    or the configuration name, also one that can be read. *)
Theorem initialisation_warns_before_build_log w s :
  configurationBuildLog s = None ->
  Js.truthy (Settings.makePath (settings w)) = false ->
  Js.truthy
    (recordCommandName
       (findConfiguration
          (Some (Js.orString (Settings.buildConfiguration (settings w)) "Default"))
          (loadedConfigurations w s))) = false ->
  forall m, In m toolWarnings -> In (LogMessage m) (added initFromSettings w s).
Proof.
  intros Hb Hp Hr m Hm.
  destruct grows_reads as [G1 [G2 [G3 [G4 [G5 [G6 [G7 G8]]]]]]].
  destruct grows_initialisation as [GC GI].
  unfold initFromSettings.
  do 5 (apply added_later;
        [assumption
         |intros ?; repeat (apply grows_bind; [assumption | intros ?]); exact G7|]).
  apply added_sooner;
    [exact GC|intros ?; apply grows_bind; [exact G6 | intros ?; exact G7]|].
  unfold readCurrentMakeConfigurationCommand.
  apply added_later;
    [exact G8
     |intros ?; apply grows_bind; [apply grows_getState | intros ?];
      apply grows_bind; [apply grows_getCommand | intros ?; apply grows_getBuildLog]|].
  rewrite added_getState.
  apply added_sooner; [apply grows_getCommand|intros ?; apply grows_getBuildLog|].
  match goal with
  | |- In _ (added (getCommandForConfiguration (Some (currentMakeConfiguration ?x)))
               w ?y) =>
      assert (S0 : configurationBuildLog y = None
                   /\ makePath y = Settings.makePath (settings w)
                   /\ currentMakeConfiguration x
                      = Js.orString (Settings.buildConfiguration (settings w))
                          "Default"
                   /\ makeConfigurations y = loadedConfigurations w s)
  end.
  { cbn [eval fst]. split; [|split; [|split]].
    - do 6 unchanged. exact Hb.
    - do 3 unchanged. apply read_makePath.
    - unchanged. apply read_currentMakeConfiguration.
    - rewrite readMakeConfigurations_loads.
      apply loadedConfigurations_ext. now do 5 unchanged. }
  destruct S0 as [S1 [S2 [S3 S4]]]. rewrite S3.
  rewrite added_getCommand_warnings.
  - now apply in_map.
  - unfold buildLogContent. now rewrite S1.
  - now rewrite S2.
  - now rewrite S4.
Qed.

(** ** Reading the configurations twice *)

Lemma loadedConfigurations_twice w s (s1 : State) :
  makeConfigurations s1 = loadedConfigurations w s ->
  loadedConfigurations w s1 = loadedConfigurations w s.
Proof.
  intros H. unfold loadedConfigurations in *.
  destruct (files w (configurationsJsonPath w)) as [text|]; [|exact H].
  destruct (JSON_parse text); [reflexivity | exact H].
Qed.

Lemma readCommand_values w s :
  let s1 := exec readCurrentMakeConfigurationCommand w s in
  let record :=
    findConfiguration (Some (currentMakeConfiguration s))
      (loadedConfigurations w s) in
  currentMakeConfiguration s1 = currentMakeConfiguration s
  /\ makePath s1 = makePath s
  /\ buildLog s1 = buildLog s
  /\ makeConfigurations s1 = loadedConfigurations w s
  /\ configurationCommandName s1 = resolvedCommand record (makePath s)
  /\ configurationCommandArgs s1 = resolvedArgs record
  /\ configurationBuildLog s1
     = match recordBuildLog record with
       | Some (String c t) => Some (resolvedPath w (String c t))
       | _ => buildLog s
       end.
Proof.
  cbn zeta. rewrite exec_readCommand.
  destruct (getCommand_frame (Some (currentMakeConfiguration s)))
    as [C1 [C2 [C3 [C4 [C5 [C6 [C7 C8]]]]]]].
  destruct (getBuildLog_frame (Some (currentMakeConfiguration s)))
    as [B1 [B2 [B3 [B4 [B5 [B6 [B7 [B8 B9]]]]]]]].
  destruct readMakeConfigurations_frame as [R1 [R2 [R3 [R4 [R5 R6]]]]].
  split; [now rewrite B1, C1, R1|].
  split; [now rewrite B3, C3, R2|].
  split; [now rewrite B4, C4, R3|].
  split; [now rewrite B2, C2, readMakeConfigurations_loads|].
  split; [now rewrite B5, getCommand_name, readMakeConfigurations_loads, R2|].
  split; [now rewrite B6, getCommand_args, readMakeConfigurations_loads|].
  now rewrite getBuildLog_result, C2, C4, readMakeConfigurations_loads, R3.
Qed.

(** X24.  Reading the configurations and resolving the command twice in
    the same workspace gives what doing it once gives: the configurations
    in memory, the command, the arguments and the build log of the
    configuration are the same after the second time. *)
Theorem resolution_is_stable w s :
  let s1 := exec readCurrentMakeConfigurationCommand w s in
  let s2 := exec readCurrentMakeConfigurationCommand w s1 in
  makeConfigurations s2 = makeConfigurations s1
  /\ configurationCommandName s2 = configurationCommandName s1
  /\ configurationCommandArgs s2 = configurationCommandArgs s1
  /\ configurationBuildLog s2 = configurationBuildLog s1.
Proof.
  cbn zeta.
  destruct (readCommand_values w s) as [A1 [A2 [A3 [A4 [A5 [A6 A7]]]]]].
  destruct (readCommand_values w (exec readCurrentMakeConfigurationCommand w s))
    as [_ [_ [_ [D4 [D5 [D6 D7]]]]]].
  cbn zeta in *.
  pose proof (loadedConfigurations_twice w s _ A4) as L.
  rewrite D4, D5, D6, D7, A1, A2, A3, L, A4, A5, A6, A7. repeat split.
Qed.

End Warnings.

Lemma make_tool_warnings_witness :
  In (LogMessage "For the extension to work, make must be on the path.")
     (added (getCommandForConfiguration (Some "Default")) emptyWorld initialState)
  /\ ~ In (LogMessage "For the extension to work, make must be on the path.")
         (added (getCommandForConfiguration (Some "Default")) worldWithLog
            stateWithLog).
Proof.
  pose proof (make_tool_warnings emptyWorld initialState (Some "Default"))
    as [_ H2].
  pose proof (make_tool_warnings worldWithLog stateWithLog (Some "Default"))
    as [H1 _].
  split.
  - apply H2; try reflexivity. right. now left.
  - apply H1; [reflexivity|]. right. now left.
Defined.

Lemma initialisation_warns_before_build_log_witness :
  files worldWithLogSetting "/proj/build.log" = Some "all:"
  /\ configurationBuildLog
       (exec (@initFromSettings specUtil tinyJson) worldWithLogSetting initialState)
     = Some "/proj/build.log"
  /\ In (LogMessage "For the extension to work, make must be on the path.")
        (added (@initFromSettings specUtil tinyJson) worldWithLogSetting
           initialState).
Proof.
  split; [reflexivity|]. split; [reflexivity|].
  apply (@initialisation_warns_before_build_log specUtil tinyJson
           worldWithLogSetting initialState); try reflexivity.
  right. now left.
Defined.

(** ** The choice in a quick pick *)

Section Chosen.

Context {U : Util} {P : Parser} {J : Json}.

Lemma exec_selectTarget targets w s :
  exec (selectTarget targets) w s
  = match showQuickPick w targets with
    | Some (String c t) =>
        exec (setTargetByName (String c t)) w
          (set_events (events s ++ [QuickPick targets None]) s)
    | _ => set_events (events s ++ [QuickPick targets None]) s
    end.
Proof.
  unfold selectTarget, exec, bind, world, emit, modify, skip, ret.
  cbn [fst snd]. now destruct (showQuickPick w targets) as [[|c t]|].
Qed.

Lemma exec_selectLaunch names w s :
  exec (selectLaunchConfiguration names) w s
  = match showQuickPick w names with
    | Some (String c t) =>
        exec (setLaunchConfigurationByName (String c t)) w
          (set_events (events s ++ [QuickPick names (launchPlaceHolder names)]) s)
    | _ => set_events (events s ++ [QuickPick names (launchPlaceHolder names)]) s
    end.
Proof.
  unfold selectLaunchConfiguration, exec, bind, world, emit, modify, skip, ret.
  cbn [fst snd]. now destruct (showQuickPick w names) as [[|c t]|].
Qed.

(** X25.  The name that the user chooses in a quick pick is set by name:
    a chosen target becomes the current target, is shown and written to
    the [buildTarget] setting, and the reparse is requested once; a
    chosen launch target is decoded into the launch configuration in
    memory and written to the [launchConfiguration] setting, and no
    reparse is requested.  An empty answer counts as no choice. *)
Theorem chosen_name_is_set (items : list string) (chosen : string) w s :
  showQuickPick w items = Some chosen -> chosen <> "" ->
  let s1 := exec (selectTarget items) w s in
  let s2 := exec (selectLaunchConfiguration items) w s in
  (currentTarget s1 = Some chosen
   /\ added (selectTarget items) w s
      = [QuickPick items None; StatusSetTarget chosen;
         LogMessage ("Setting target " +++ chosen);
         SettingsUpdate "buildTarget" (VString chosen); ParseBuildOrDryRun]
   /\ reparses (events s1) = S (reparses (events s)))
  /\ (option_map content (currentLaunchConfiguration s2)
      = stringToLaunchConfiguration chosen
      /\ added (selectLaunchConfiguration items) w s
         = [QuickPick items (launchPlaceHolder items);
            StatusSetLaunchConfiguration chosen;
            LogMessage ("Setting launch target " +++ dq +++ chosen +++ dq);
            SettingsUpdate "launchConfiguration" (launchValue chosen)]
      /\ reparses (events s2) = reparses (events s)).
Proof.
  intros Hc Hne. destruct chosen as [|c t]; [congruence|]. cbn zeta.
  pose proof (added_selectTarget items w s) as A1.
  pose proof (added_selectLaunch items w s) as A2.
  rewrite Hc in A1, A2.
  split; split.
  - rewrite exec_selectTarget, Hc. reflexivity.
  - split; [exact A1|].
    rewrite (events_added _ w s (grows_selectTarget items)), A1.
    unfold reparses. rewrite occurrences_app. cbn. lia.
  - rewrite exec_selectLaunch, Hc.
    unfold setLaunchConfigurationByName, exec, bind, emit, modify, allocate,
      logger_message.
    cbn [fst snd]. now destruct (stringToLaunchConfiguration (String c t)).
  - split; [exact A2|].
    rewrite (events_added _ w s (grows_selectLaunch items)), A2.
    unfold reparses. rewrite occurrences_app. cbn. lia.
Qed.

(** ** The accessors and the listener *)

Lemma compareSettings_keeps_command :
  preserves configurationCommandName compareSettings
  /\ preserves configurationCommandArgs compareSettings
  /\ preserves configurationBuildLog compareSettings
  /\ preserves loggingLevel (onDidChangeConfiguration true).
Proof. repeat split; steps; observe. Qed.

(** X26.  What the setters of the variables assign is only in memory, and
    an open listener replaces it at the next notification by what the
    settings hold: the make path by the [makePath] setting; the build log
    and the extension log, when they differ from their setting, by the
    resolved setting; the target by the [buildTarget] setting or the
    empty string.  The logging level is the exception, as no listener
    reads it; and the resolved command stays as it was set as long as the
    notification finds no change that calls for a reparse. *)
Theorem assigned_variables_are_overwritten w s :
  workspaceFolders w = true -> ignoreSettingsChanged s = false ->
  let t := settings w in
  let notified (setter : M unit) :=
    exec (onDidChangeConfiguration true) w (exec setter w s) in
  (forall path, makePath (notified (setMakePath path)) = Settings.makePath t)
  /\ (forall path, Settings.buildLog t <> Some path ->
        buildLog (notified (setBuildLog path))
        = resolvedSetting w (Settings.buildLog t))
  /\ (forall path, Settings.extensionLog t <> Some path ->
        extensionLog (notified (setExtensionLog path))
        = resolvedSetting w (Settings.extensionLog t))
  /\ (forall target,
        currentTarget (notified (setCurrentTarget (Some target)))
        = Some (Js.orString (Settings.buildTarget t) ""))
  /\ (forall logLevel,
        loggingLevel (notified (setLoggingLevel logLevel)) = Some logLevel)
  /\ (forall name,
        reparseDue w s = false ->
        configurationCommandName (notified (setConfigurationCommandName name))
        = name).
Proof.
  intros Hw Hs. cbn zeta.
  destruct compareSettings_keeps_command as [K1 [K2 [K3 K4]]].
  split; [|split; [|split; [|split; [|split]]]].
  - intros path.
    rewrite (listener_observes makePath w (exec (setMakePath path) w s) Hw Hs)
      by (steps; observe).
    rewrite exec_compareSettings. apply check_makePath_value.
  - intros path Hp.
    rewrite (listener_observes buildLog w (exec (setBuildLog path) w s) Hw Hs)
      by (steps; observe).
    rewrite exec_compareSettings. do 2 unchanged.
    rewrite check_buildLog_value. do 4 unchanged.
    change (buildLog (exec (setBuildLog path) w s)) with (Some path).
    destruct (settingChanged _ _) eqn:C; [reflexivity|].
    apply compared_setting in C. congruence.
  - intros path Hp.
    rewrite (listener_observes extensionLog w (exec (setExtensionLog path) w s)
               Hw Hs) by (steps; observe).
    rewrite exec_compareSettings. unchanged.
    rewrite check_extensionLog_value. do 5 unchanged.
    change (extensionLog (exec (setExtensionLog path) w s)) with (Some path).
    destruct (settingChanged _ _) eqn:C; [reflexivity|].
    apply compared_setting in C. congruence.
  - intros target.
    rewrite (listener_observes currentTarget w
               (exec (setCurrentTarget (Some target)) w s) Hw Hs)
      by (steps; observe).
    rewrite exec_compareSettings. do 4 unchanged.
    rewrite check_target_value. do 2 unchanged.
    change (currentTarget (exec (setCurrentTarget (Some target)) w s))
      with (Some target).
    destruct (targetChanged _ _) eqn:C; [reflexivity|].
    apply compared_target in C; [exact C | discriminate].
  - intros logLevel. now rewrite K4.
  - intros name Hd.
    rewrite (listener_steps w (exec (setConfigurationCommandName name) w s) Hw Hs),
      compareSettings_flag.
    change (reparseDue w s = false) in Hd. unfold reparseDue in Hd.
    change (currentMakeConfiguration (exec (setConfigurationCommandName name) w s))
      with (currentMakeConfiguration s).
    change (currentTarget (exec (setConfigurationCommandName name) w s))
      with (currentTarget s).
    change (buildLog (exec (setConfigurationCommandName name) w s))
      with (buildLog s).
    change (makePath (exec (setConfigurationCommandName name) w s))
      with (makePath s).
    rewrite Hd. now rewrite K1.
Qed.

End Chosen.

Lemma chosen_name_is_set_witness :
  currentTarget (exec (selectTarget ["A"; "B"]) worldChoosingA started) = Some "A"
  /\ reparses (events (exec (selectTarget ["A"; "B"]) worldChoosingA started))
     = S (reparses (events started)).
Proof.
  pose proof (@chosen_name_is_set specUtil ["A"; "B"] "A" worldChoosingA started
                eq_refl) as H.
  destruct H as [[H1 [_ H3]] _]; [discriminate|].
  split; [exact H1 | exact H3].
Defined.

Lemma assigned_variables_are_overwritten_witness :
  let w := withStore storeAbsoluteLog in
  makePath (exec (@onDidChangeConfiguration specUtil true) w
              (exec (setMakePath "/opt/bin/make") w started)) = None
  /\ loggingLevel (exec (@onDidChangeConfiguration specUtil true) w
                     (exec (setLoggingLevel "Debug") w started)) = Some "Debug".
Proof.
  cbn zeta.
  pose proof (@assigned_variables_are_overwritten specUtil
                (withStore storeAbsoluteLog) started eq_refl eq_refl)
    as [H1 [_ [_ [_ [H5 _]]]]].
  split; [apply H1 | apply H5].
Defined.

(** ** How often an entry point acts *)

Lemma bounded_of_preserves {A} (f : State -> nat) (c : M A) :
  preserves f c -> bounded f 0 c.
Proof. intros H w s. rewrite H. lia. Qed.

Lemma bounded_weaken {A} (f : State -> nat) (c : M A) :
  bounded f 0 c -> bounded f 1 c.
Proof. intros H w s. specialize (H w s). lia. Qed.

Lemma bounded_bind_quiet {A B} (f : State -> nat) (k : nat) (c : M A)
  (g : A -> M B) :
  preserves f c -> (forall a, bounded f k (g a)) -> bounded f k (bind c g).
Proof.
  intros Hc Hg w s. rewrite exec_bind.
  specialize (Hg (eval c w s) w (exec c w s)). rewrite Hc in Hg. exact Hg.
Qed.

Lemma bounded_bind_last {A B} (f : State -> nat) (k : nat) (c : M A)
  (g : A -> M B) :
  bounded f k c -> (forall a, preserves f (g a)) -> bounded f k (bind c g).
Proof. intros Hc Hg w s. rewrite exec_bind, Hg. apply Hc. Qed.

Lemma bounded_reparses_emit (e : Event) :
  bounded (fun s => reparses (events s)) 1 (emit e).
Proof.
  intros w s. change (events (exec (emit e) w s)) with (events s ++ [e]).
  unfold reparses. rewrite occurrences_app. cbn.
  destruct (Event_eq_dec e ParseBuildOrDryRun); lia.
Qed.

Lemma bounded_count_emit (p : Event -> bool) (e : Event) :
  bounded (fun s => length (filter p (events s))) 1 (emit e).
Proof.
  intros w s. change (events (exec (emit e) w s)) with (events s ++ [e]).
  rewrite count_app. cbn. destruct (p e); cbn; lia.
Qed.

(** The steps of a proof that a function acts once at most: the steps in
    front of the action leave the count, or the steps behind it do. *)
Ltac single_step :=
  lazymatch goal with
  | |- bounded _ _ (if ?b then _ else _) => destruct b
  | |- bounded _ _ (match ?x with _ => _ end) => destruct x
  | |- bounded _ _ (bind _ _) =>
      first
        [ apply bounded_bind_quiet; [ solve [observe] | intros ? ]
        | apply bounded_bind_last; [ | intros ?; solve [observe] ] ]
  | |- bounded _ _ _ =>
      first
        [ apply bounded_weaken, bounded_of_preserves; solve [observe]
        | apply bounded_reparses_emit
        | apply bounded_count_emit ]
  end.

Ltac single := repeat single_step.

(** The functions of the file, taken apart down to their steps. *)
Ltac everything :=
  unfold startListeningToSettingsChanged, stopListeningToSettingsChanged,
    setNewConfiguration, prepareConfigurationsQuickPick, setNewTarget,
    setNewLaunchConfiguration, parseTargetsFromBuildLog,
    parseLaunchConfigurationsFromBuildLog, parseLaunchConfigurations,
    selectTarget, selectLaunchConfiguration, setConfigurationByName,
    setTargetByName, setLaunchConfigurationByName, setCurrentMakeConfiguration;
  steps.

Section Once.

Context {U : Util} {P : Parser} {J : Json}.

(** X27.  One call of an entry point (the initialisation, a notification
    to either listener, a guard switch or a command) requests the reparse
    once at most, writes one setting at most, starts one process at most
    and shows one quick pick at most. *)
Theorem entry_points_act_at_most_once (c : Command) w s :
  let s' := exec (run c) w s in
  reparses (events s') <= reparses (events s) + 1
  /\ writes (events s') <= writes (events s) + 1
  /\ spawns (events s') <= spawns (events s) + 1
  /\ picks (events s') <= picks (events s) + 1.
Proof.
  cbn zeta.
  assert (B : bounded (fun s => reparses (events s)) 1 (run c)
              /\ bounded (fun s => writes (events s)) 1 (run c)
              /\ bounded (fun s => spawns (events s)) 1 (run c)
              /\ bounded (fun s => picks (events s)) 1 (run c)).
  { unfold writes, spawns, picks.
    destruct c as [|[fileName|affects]| | |n|t|l| | |]; cbn [run deliver];
      everything; repeat split; single. }
  destruct B as [B1 [B2 [B3 B4]]].
  repeat split; [apply B1 | apply B2 | apply B3 | apply B4].
Qed.

End Once.

(** ** The variables stay defined *)

Lemma keeps_field {A X} (f : State -> X) (Q : X -> Prop) (c : M A) :
  preserves f c -> keeps (fun s => Q (f s)) c.
Proof. intros H w s Hs. now rewrite H. Qed.

Section Defined.

Context {U : Util} {P : Parser} {J : Json}.

Lemma getCommand_not_empty c w s :
  configurationCommandName (exec (getCommandForConfiguration c) w s) <> "".
Proof. rewrite getCommand_name. apply join_not_empty. Qed.

Lemma readLoggingLevel_truthy w s :
  Js.truthy (loggingLevel (exec readLoggingLevel w s)) = true.
Proof.
  rewrite read_loggingLevel.
  now destruct (Settings.loggingLevel (settings w)) as [[|c t]|].
Qed.

Lemma readCurrentTarget_assigns w s :
  currentTarget (exec readCurrentTarget w s) <> None.
Proof. rewrite read_currentTarget. discriminate. Qed.

(** The steps of a proof that a function keeps a variable defined:
    the functions that assign the variable define it, and the other steps
    leave it. *)
Ltac defined_step f Q :=
  lazymatch goal with
  | |- keeps _ (getCommandForConfiguration _) =>
      first [ intros ? ? _; apply getCommand_not_empty
            | apply (keeps_field f Q);
              unfold getCommandForConfiguration, logger_message, skip;
              solve [observe] ]
  | |- keeps _ readLoggingLevel =>
      first [ intros ? ? _; apply readLoggingLevel_truthy
            | apply (keeps_field f Q); unfold readLoggingLevel, skip;
              solve [observe] ]
  | |- keeps _ readCurrentTarget =>
      first [ intros ? ? _; apply readCurrentTarget_assigns
            | apply (keeps_field f Q); unfold readCurrentTarget, logger_message;
              solve [observe] ]
  | |- keeps _ (setTargetByName _) =>
      first [ intros ? ? _; discriminate
            | apply (keeps_field f Q);
              unfold setTargetByName, make_parseBuildOrDryRun, logger_message;
              solve [observe] ]
  | |- keeps _ (bind _ _) => apply keeps_bind; [ | intros ? ]
  | |- keeps _ (if ?b then _ else _) => destruct b
  | |- keeps _ (match ?x with _ => _ end) => destruct x
  | |- keeps _ _ => apply (keeps_field f Q); solve [observe]
  end.

(** The functions of the file, without those that assign one of the three
    variables. *)
Ltac others :=
  unfold initFromSettings, onDidSaveTextDocument, onDidChangeConfiguration,
    compareSettings, checkBuildConfiguration, checkTarget,
    checkLaunchConfiguration, checkBuildLog, checkExtensionLog, checkMakePath,
    startListeningToSettingsChanged, stopListeningToSettingsChanged,
    setNewConfiguration, prepareConfigurationsQuickPick, setNewTarget,
    setNewLaunchConfiguration, parseTargetsFromBuildLog,
    parseLaunchConfigurationsFromBuildLog, parseLaunchConfigurations,
    selectTarget, selectLaunchConfiguration, setConfigurationByName,
    setLaunchConfigurationByName, setCurrentMakeConfiguration,
    readCurrentMakeConfigurationCommand, readExtensionLog, readMakePath,
    readBuildLog, readCurrentMakeConfiguration, readCurrentLaunchConfiguration,
    getLaunchConfigurationSetting, readMakeConfigurations,
    getBuildLogForConfiguration, make_parseBuildOrDryRun, logger_message, skip.

Lemma keeps_defined_run (c : Command) : keeps defined (run c).
Proof.
  assert (K : keeps (fun s => configurationCommandName s <> "") (run c)
              /\ keeps (fun s => currentTarget s <> None) (run c)
              /\ keeps (fun s => Js.truthy (loggingLevel s) = true) (run c)).
  { split; [|split].
    - destruct c as [|[fileName|affects]| | |n|t|l| | |]; cbn [run deliver];
        others;
        repeat defined_step configurationCommandName (fun x : string => x <> "").
    - destruct c as [|[fileName|affects]| | |n|t|l| | |]; cbn [run deliver];
        others;
        repeat defined_step currentTarget (fun x : option string => x <> None).
    - destruct c as [|[fileName|affects]| | |n|t|l| | |]; cbn [run deliver];
        others;
        repeat defined_step loggingLevel
          (fun x : option string => Js.truthy x = true). }
  destruct K as [K1 [K2 K3]].
  intros w s [H1 [H2 H3]]. split; [|split].
  - now apply K1.
  - now apply K2.
  - now apply K3.
Qed.

(** X28.  Once the initialisation has run, the variables it defines stay
    defined through every sequence of notifications and commands: the
    command of the configuration is never the empty string, the current
    target is never undefined, and the logging level is never empty. *)
Theorem initialised_variables_stay_defined (cs : list (World * Command)) w s :
  defined (runAll cs (exec initFromSettings w s)).
Proof.
  assert (G : forall s0, defined s0 -> defined (runAll cs s0)).
  { induction cs as [|[w0 c] cs IH]; intros s0 H; [exact H|].
    cbn [runAll]. apply IH. now apply keeps_defined_run. }
  apply G. split; [|split].
  - destruct (init_resolution w s) as [s0 [E _]]. rewrite E.
    do 3 unchanged. apply getCommand_not_empty.
  - rewrite init_currentTarget. discriminate.
  - rewrite init_loggingLevel.
    now destruct (Settings.loggingLevel (settings w)) as [[|c t]|].
Qed.

End Defined.

(** ** The guard through a run *)

Section Switches.

Context {U : Util} {P : Parser} {J : Json}.

Lemma Command_switch (c : Command) :
  {c = StartListening} + {c = StopListening}
  + {c <> StartListening /\ c <> StopListening}.
Proof.
  destruct c; try (right; split; discriminate);
    [left; now left | left; now right].
Qed.

Lemma guard_after (c : Command) w s :
  ignoreSettingsChanged (exec (run c) w s)
  = switched (ignoreSettingsChanged s) c.
Proof.
  destruct (Command_switch c) as [[->| ->]|[H1 H2]]; try reflexivity.
  rewrite (guard_only_switched c H1 H2).
  destruct c; try reflexivity; congruence.
Qed.

(** X29.  The guard is what the last call of
    [startListeningToSettingsChanged] or [stopListeningToSettingsChanged]
    has made it, and what it was when there has been none: through a
    sequence of entry points it is off after the one and on after the
    other, and no notification, command or initialisation in between
    changes it.  So the listeners stay closed from a stop to the next
    start, and open from a start to the next stop. *)
Theorem guard_is_last_switch (cs : list (World * Command)) (s : State) :
  ignoreSettingsChanged (runAll cs s) = lastSwitch cs (ignoreSettingsChanged s).
Proof.
  revert s. unfold lastSwitch.
  induction cs as [|[w c] cs IH]; intros s; [reflexivity|].
  cbn [runAll fold_left snd]. rewrite IH. now rewrite guard_after.
Qed.

End Switches.

(** ** The launch configuration and the reparse *)

Section LaunchReparse.

Context {U : Util} {P : Parser} {J : Json}.

(** X30.  Choosing a launch configuration never requests a reparse:
    neither [setLaunchConfigurationByName] nor
    [setNewLaunchConfiguration], on any of its paths (names from the build
    log or from a dry run, a choice or none), requests one, and neither
    changes the current configuration, the target, or the resolved
    command, arguments and build log. *)
Theorem launch_configuration_requests_no_reparse (c : Command) w s :
  (exists l, c = SetLaunchConfigurationByName l) \/ c = SetNewLaunchConfiguration ->
  let s' := exec (run c) w s in
  reparses (events s') = reparses (events s)
  /\ currentMakeConfiguration s' = currentMakeConfiguration s
  /\ currentTarget s' = currentTarget s
  /\ configurationCommandName s' = configurationCommandName s
  /\ configurationCommandArgs s' = configurationCommandArgs s
  /\ configurationBuildLog s' = configurationBuildLog s.
Proof.
  intros Hc. cbn zeta.
  assert (F : preserves (fun s => reparses (events s)) (run c)
              /\ preserves currentMakeConfiguration (run c)
              /\ preserves currentTarget (run c)
              /\ preserves configurationCommandName (run c)
              /\ preserves configurationCommandArgs (run c)
              /\ preserves configurationBuildLog (run c)).
  { destruct Hc as [[l ->]| ->]; cbn [run];
      unfold setNewLaunchConfiguration, parseLaunchConfigurationsFromBuildLog,
        parseLaunchConfigurations, selectLaunchConfiguration,
        setLaunchConfigurationByName, logger_message, skip;
      repeat split; observe. }
  destruct F as [F1 [F2 [F3 [F4 [F5 F6]]]]].
  now rewrite F1, F2, F3, F4, F5, F6.
Qed.

End LaunchReparse.

Lemma launch_configuration_requests_no_reparse_witness :
  reparses (events (exec (@run specUtil launchParser tinyJson
                            SetNewLaunchConfiguration) worldChoosingA started))
  = reparses (events started).
Proof.
  apply (@launch_configuration_requests_no_reparse specUtil launchParser tinyJson
           SetNewLaunchConfiguration worldChoosingA started).
  now right.
Defined.
